(** * Histogram calibration: a shallow embedding of
    [modelopt/torch/quantization/calib/histogram.py]

    Tensors are flattened to lists.  Floating-point values are embedded as
    exact rationals ([Q]), so rounding, infinities and NaN are not part of the
    model; histogram counts are integers ([Z]), without bound in the
    collector and in the searches, and with the wrap-around of the array's
    integer type in the fixed-width entropy search that [compute_amax]
    reaches.  A Python exception is the
    [Raise] branch of [result]; the object state at the time of an exception
    is not kept.  Library functions (numpy, torch, scipy) are embedded by
    their documented behaviour; the scoring collaborators of the searches
    ([scipy.stats.entropy], [fake_tensor_quant], [scaled_e4m3]) are
    parameters. *)

From Stdlib Require Import String.
From Stdlib Require Import QArith ZArith List Lia Bool Qround Qabs.
Import ListNotations.
Open Scope Q_scope.

(** ** Exceptions and the error monad *)

Inductive exn : Type :=
| IndexError | ValueError | RuntimeError | TypeError
| OverflowError | NotImplementedError.

Inductive result (A : Type) : Type :=
| Ok (a : A)
| Raise (e : exn).
Arguments Ok {A} a.
Arguments Raise {A} e.

Definition bind {A B : Type} (m : result A) (k : A -> result B) : result B :=
  match m with
  | Ok a => k a
  | Raise e => Raise e
  end.

Notation "x <- m ;; k" := (bind m (fun x => k))
  (at level 61, m at next level, right associativity).
Notation "' p <- m ;; k" := (bind m (fun p => k))
  (at level 61, p pattern, m at next level, right associativity).

(** ** The numeric substrate (numpy / torch primitives) *)

Module Num.

Definition Qltb (x y : Q) : bool := negb (Qle_bool y x).

Definition qmax (x y : Q) : Q := if Qle_bool x y then y else x.
Definition qmin (x y : Q) : Q := if Qle_bool x y then x else y.

(** [max] / [min] of a flattened tensor; both raise on an empty one. *)
Definition amax (e : exn) (a : list Q) : result Q :=
  match a with
  | [] => Raise e
  | x :: r => Ok (fold_left qmax r x)
  end.

Definition amin (e : exn) (a : list Q) : result Q :=
  match a with
  | [] => Raise e
  | x :: r => Ok (fold_left qmin r x)
  end.

Definition of_nat (k : nat) : Q := inject_Z (Z.of_nat k).

(** [linspace(start, stop, num)]: [num] evenly spaced points, end point
    included. *)
Definition linspace (start stop : Q) (num : nat) : list Q :=
  map (fun k => start + of_nat k * ((stop - start) / of_nat (num - 1)))
      (seq 0 num).

(** [arange(start, stop, step)]: [ceil((stop - start) / step)] points
    [start + k * step]; a zero step is an error. *)
Definition arange (start stop step : Q) : result (list Q) :=
  if Qeq_bool step 0 then Raise ValueError
  else Ok (map (fun k => start + of_nat k * step)
               (seq 0 (Z.to_nat (Qceiling ((stop - start) / step))))).

(** Python indexing [a[i]] for [i >= 0] and [a[-1]]. *)
Definition index {A : Type} (a : list A) (i : nat) : result A :=
  match nth_error a i with
  | Some v => Ok v
  | None => Raise IndexError
  end.

Definition index_last {A : Type} (a : list A) : result A :=
  match a with
  | [] => Raise IndexError
  | _ => index a (length a - 1)
  end.

(** The bin of a value inside [[first, last]] cut into [n] equal bins; the
    right end belongs to the last bin. *)
Definition bin_index (first last : Q) (n : nat) (x : Q) : nat :=
  let k := Z.to_nat (Qfloor ((x - first) * of_nat n / (last - first))) in
  if (k =? n)%nat then (n - 1)%nat else k.

Definition in_range (first last x : Q) : bool :=
  Qle_bool first x && Qle_bool x last.

Definition count_if {A : Type} (p : A -> bool) (a : list A) : Z :=
  Z.of_nat (length (filter p a)).

(** Counts over [n] equal bins of [[first, last]]; values outside the range
    are not counted. *)
Definition uniform_counts (first last : Q) (n : nat) (a : list Q) : list Z :=
  let keep := filter (in_range first last) a in
  map (fun k => count_if (fun x => (bin_index first last n x =? k)%nat) keep)
      (seq 0 n).

(** numpy's [_get_outer_edges]. *)
Definition outer_edges (a : list Q) (range : option (Q * Q)) : result (Q * Q) :=
  '(first, last) <-
     match range with
     | Some (lo, hi) => if Qltb hi lo then Raise ValueError else Ok (lo, hi)
     | None =>
         match a with
         | [] => Ok (0, 1)
         | _ => lo <- amin ValueError a ;; hi <- amax ValueError a ;; Ok (lo, hi)
         end
     end ;;
  if Qeq_bool first last then Ok (first - (1#2), last + (1#2))
  else Ok (first, last).

(** [np.histogram(a, bins=n, range=range)] for an integer [n]. *)
Definition histogram_bins (a : list Q) (bins : Z) (range : option (Q * Q))
  : result (list Z * list Q) :=
  if (bins <? 1)%Z then Raise ValueError
  else
    '(first, last) <- outer_edges a range ;;
    let n := Z.to_nat bins in
    Ok (uniform_counts first last n a, linspace first last (S n)).

Fixpoint monotone (edges : list Q) : bool :=
  match edges with
  | x :: ((y :: _) as r) => Qle_bool x y && monotone r
  | _ => true
  end.

Fixpoint diff (c : list Z) : list Z :=
  match c with
  | x :: ((y :: _) as r) => (y - x)%Z :: diff r
  | _ => []
  end.

(** [np.histogram(a, bins=edges)] for an array of edges: cumulative counts
    by [searchsorted] (left for all edges but the last, right for the last),
    then differences. *)
Definition histogram_edges (a : list Q) (edges : list Q)
  : result (list Z * list Q) :=
  if negb (monotone edges) then Raise ValueError
  else
    last <- index_last edges ;;
    let cum_n :=
      map (fun e => count_if (fun x => Qltb x e) a) (removelast edges)
      ++ [count_if (fun x => Qle_bool x last) a] in
    Ok (diff cum_n, edges).

(** [torch.histc(x, bins, min, max)]: equal [min] and [max] fall back to the
    extrema of the data, and a still empty range is widened by one on each
    side; elements outside the range are ignored. *)
Definition histc (x : list Q) (bins : Z) (mn mx : Q) : result (list Z) :=
  if (bins <? 1)%Z then Raise RuntimeError
  else
    '(lo, hi) <-
       match x with
       | _ :: _ =>
           if Qeq_bool mn mx
           then lo <- amin RuntimeError x ;; hi <- amax RuntimeError x ;; Ok (lo, hi)
           else Ok (mn, mx)
       | [] => Ok (mn, mx)
       end ;;
    let '(lo, hi) := if Qeq_bool lo hi then (lo - 1, hi + 1) else (lo, hi) in
    if negb (Qltb lo hi) then Raise RuntimeError
    else Ok (uniform_counts lo hi (Z.to_nat bins) x).

(** [hist[: len(old)] += old]: the slice is clipped to [hist], and the
    in-place addition needs the two shapes to agree. *)
Fixpoint add_into (hist old : list Z) : list Z :=
  match hist, old with
  | h :: hs, o :: os => (h + o)%Z :: add_into hs os
  | _, _ => hist
  end.

Definition add_prefix (e : exn) (hist old : list Z) : result (list Z) :=
  if (length old <=? length hist)%nat then Ok (add_into hist old)
  else Raise e.

Definition sum (c : list Z) : Z := fold_right Z.add 0%Z c.

(** The integer element types of the arrays of counts: [np.histogram]
    counts in int64, and [compute_amax] converts a torch histogram with
    [.int()], to int32. *)
Inductive IntType : Type := int32 | int64.

Definition bits (dt : IntType) : Z :=
  match dt with
  | int32 => 32
  | int64 => 64
  end.

(** A value stored into an array of type [dt]: two's complement
    wrap-around. *)
Definition cast (dt : IntType) (z : Z) : Z :=
  ((z + 2 ^ (bits dt - 1)) mod 2 ^ bits dt - 2 ^ (bits dt - 1))%Z.

(** [np.sum] of an array of integers: the accumulator is an int64, whatever
    the element type. *)
Definition isum (c : list Z) : Z := cast int64 (sum c).

End Num.

(** ** The incremental histogram collector *)

(** [num_bits] is an integer or a tuple (exponent, mantissa). *)
Inductive NumBits : Type :=
| Int (n : Z)
| Tuple (e m : Z).

Record HistogramCalibrator : Type := mkCalibrator {
  _num_bits : NumBits;
  _unsigned : bool;
  _num_bins : Z;
  _skip_zeros : bool;
  _torch_hist : bool;
  _calib_bin_edges : option (list Q);
  _calib_hist : option (list Z)
}.

(** [HistogramCalibrator.__init__]; [axis] is [None] or some axis. *)
Definition init (num_bits : NumBits) (axis : option Z) (unsigned : bool)
    (num_bins : Z) (skip_zeros torch_hist : bool) : result HistogramCalibrator :=
  match axis with
  | Some _ => Raise NotImplementedError
  | None => Ok (mkCalibrator num_bits unsigned num_bins skip_zeros torch_hist None None)
  end.

Definition set_hist (c : HistogramCalibrator) (num_bins : Z)
    (hist : list Z) (edges : list Q) : HistogramCalibrator :=
  mkCalibrator (_num_bits c) (_unsigned c) num_bins (_skip_zeros c)
               (_torch_hist c) (Some edges) (Some hist).

Definition nonzero (x : Q) : bool := negb (Qeq_bool x 0).

(** The numpy branch of [collect]. *)
Definition collect_numpy (c : HistogramCalibrator) (x : list Q)
  : result HistogramCalibrator :=
  let x_np := if _skip_zeros c then filter nonzero x else x in
  match _calib_bin_edges c, _calib_hist c with
  | None, None =>
      '(hist, edges) <- Num.histogram_bins x_np (_num_bins c) None ;;
      Ok (set_hist c (_num_bins c) hist edges)
  | Some edges, Some old =>
      temp_amax <- Num.amax ValueError x_np ;;
      last <- Num.index_last edges ;;
      edges <-
        (if Num.Qltb last temp_amax then
           e1 <- Num.index edges 1 ;;
           e0 <- Num.index edges 0 ;;
           let width := e1 - e0 in
           new_bin_edges <- Num.arange (last + width) (temp_amax + width) width ;;
           Ok (edges ++ new_bin_edges)
         else Ok edges) ;;
      '(hist, edges) <- Num.histogram_edges x_np edges ;;
      hist <- Num.add_prefix ValueError hist old ;;
      Ok (set_hist c (_num_bins c) hist edges)
  | _, _ => Raise TypeError
  end.

(** The torch branch of [collect]. *)
Definition collect_torch (c : HistogramCalibrator) (x : list Q)
  : result HistogramCalibrator :=
  let x := if _skip_zeros c then filter nonzero x else x in
  x_max <- Num.amax RuntimeError x ;;
  match _calib_bin_edges c, _calib_hist c with
  | None, None =>
      hist <- Num.histc x (_num_bins c) 0 x_max ;;
      if (_num_bins c + 1 <? 0)%Z then Raise RuntimeError
      else
        Ok (set_hist c (_num_bins c) hist
              (Num.linspace 0 x_max (Z.to_nat (_num_bins c + 1))))
  | Some edges, Some old =>
      last <- Num.index_last edges ;;
      '(num_bins, edges) <-
        (if Num.Qltb last x_max then
           e1 <- Num.index edges 1 ;;
           e0 <- Num.index edges 0 ;;
           let width := e1 - e0 in
           if Qeq_bool width 0 then
             (* int() of an infinity or of a nan *)
             Raise (if Qeq_bool x_max 0 then ValueError else OverflowError)
           else
             let num_bins := Qceiling (x_max / width) in
             edges <- Num.arange 0 (x_max + width) width ;;
             Ok (num_bins, edges)
         else Ok (_num_bins c, edges)) ;;
      last <- Num.index_last edges ;;
      hist <- Num.histc x num_bins 0 last ;;
      hist <- Num.add_prefix RuntimeError hist old ;;
      Ok (set_hist c num_bins hist edges)
  | _, _ => Raise TypeError
  end.

(** [HistogramCalibrator.collect]. *)
Definition collect (c : HistogramCalibrator) (x : list Q)
  : result HistogramCalibrator :=
  m <- Num.amin RuntimeError x ;;
  let x := if Num.Qltb m 0 then map Qabs x else x in
  if negb (_torch_hist c) then collect_numpy c x else collect_torch c x.

(** [HistogramCalibrator.reset]. *)
Definition reset (c : HistogramCalibrator) : HistogramCalibrator :=
  mkCalibrator (_num_bits c) (_unsigned c) (_num_bins c) (_skip_zeros c)
               (_torch_hist c) None None.

(** Feeding a sequence of batches; the first exception ends it. *)
Fixpoint collect_all (c : HistogramCalibrator) (batches : list (list Q))
  : result HistogramCalibrator :=
  match batches with
  | [] => Ok c
  | x :: rest => c' <- collect c x ;; collect_all c' rest
  end.

(** ** The threshold search engine *)

(** [np.argmin]: the first index of a minimal element, over any type of
    scores with a strict comparison. *)
Section Argmin.
Context {D : Type} (dltb : D -> D -> bool).

Fixpoint argmin_from (best : D) (besti i : nat) (l : list D) : nat :=
  match l with
  | [] => besti
  | x :: r =>
      if dltb x best then argmin_from x i (S i) r
      else argmin_from best besti (S i) r
  end.

Definition argmin (l : list D) : result nat :=
  match l with
  | [] => Raise ValueError
  | x :: r => Ok (argmin_from x 0%nat 1%nat r)
  end.
End Argmin.

(** Python's [range(start, stop, step)] on non-negative arguments. *)
Definition py_range (start stop step : nat) : result (list nat) :=
  if (step =? 0)%nat then Raise ValueError
  else Ok (map (fun k => (start + k * step)%nat)
               (seq 0 ((stop - start + step - 1) / step))).

Fixpoint mapM {A B : Type} (f : A -> result B) (l : list A) : result (list B) :=
  match l with
  | [] => Ok []
  | a :: r => b <- f a ;; bs <- mapM f r ;; Ok (b :: bs)
  end.

Definition qsum (l : list Q) : Q := fold_right Qplus 0 l.

(** Python's [round] on a float: to the nearest integer, halves to even. *)
Definition py_round (q : Q) : Z :=
  let f := Qfloor q in
  match Qcompare (q - inject_Z f) (1#2) with
  | Lt => f
  | Gt => (f + 1)%Z
  | Eq => if Z.even f then f else (f + 1)%Z
  end.

(** numpy indexing by a signed integer. *)
Definition norm_index (len : nat) (k : Z) : result nat :=
  if ((0 <=? k) && (k <? Z.of_nat len))%Z then Ok (Z.to_nat k)
  else if ((k <? 0) && (- Z.of_nat len <=? k))%Z then Ok (Z.to_nat (Z.of_nat len + k))
  else Raise IndexError.

Fixpoint upd {A : Type} (l : list A) (i : nat) (v : A) : list A :=
  match l, i with
  | [], _ => []
  | _ :: r, O => v :: r
  | x :: r, S j => x :: upd r j v
  end.

Definition getZ (l : list Q) (k : Z) : result Q :=
  i <- norm_index (length l) k ;; Num.index l i.

Definition setZ (l : list Q) (k : Z) (v : Q) : result (list Q) :=
  i <- norm_index (length l) k ;; Ok (upd l i v).

(** [np.digitize(x, space)] for increasing [space]: the number of edges that
    are [<= x]. *)
Definition digitize (x : Q) (space : list Q) : Z :=
  Num.count_if (fun e => Qle_bool e x) space.

(** [ds[mask == 0] = -1] for a mask of the same length. *)
Fixpoint mask_assign (ds : list Z) (mask : list Z) : result (list Z) :=
  match ds, mask with
  | [], [] => Ok []
  | d :: ds', b :: mask' =>
      r <- mask_assign ds' mask' ;;
      Ok ((if (b =? 0)%Z then (-1)%Z else d) :: r)
  | _, _ => Raise IndexError
  end.

(** First loop: [new_density_counts[digitized] += bins[idx]]. *)
Fixpoint accumulate (ndc : list Q) (ds : list Z) (bins : list Z) : result (list Q) :=
  match ds with
  | [] => Ok ndc
  | d :: ds' =>
      match bins with
      | [] => Raise IndexError
      | b :: bins' =>
          ndc' <- (if (d =? -1)%Z then Ok ndc
                   else v <- getZ ndc d ;; setZ ndc d (v + inject_Z b)) ;;
          accumulate ndc' ds' bins'
      end
  end.

(** [collections.Counter]: keys in order of first occurrence. *)
Fixpoint counter_add (c : list (Z * nat)) (k : Z) : list (Z * nat) :=
  match c with
  | [] => [(k, 1%nat)]
  | (k', n) :: r =>
      if (k =? k')%Z then (k', S n) :: r else (k', n) :: counter_add r k
  end.

Definition Counter (l : list Z) : list (Z * nat) := fold_left counter_add l [].

(** Second loop: [new_density_counts[key] /= val] for every key but -1. *)
Fixpoint average (ndc : list Q) (items : list (Z * nat)) : result (list Q) :=
  match items with
  | [] => Ok ndc
  | (key, val) :: r =>
      ndc' <- (if (key =? -1)%Z then Ok ndc
               else v <- getZ ndc key ;; setZ ndc key (v / Num.of_nat val)) ;;
      average ndc' r
  end.

(** Third loop: [new_density[idx] = new_density_counts[digitized]]. *)
Definition spread (ndc : list Q) (ds : list Z) : result (list Q) :=
  mapM (fun d => if (d =? -1)%Z then Ok 0 else getZ ndc d) ds.

(** The quantized distribution for the cut index [i]. *)
Definition new_density_of (bins : list Z) (nbins i : nat) : result (list Q) :=
  let space := Num.linspace 0 (Num.of_nat i) (nbins + 1) in
  let digitized_space :=
    map (fun v => (digitize (Num.of_nat v) space - 1)%Z) (seq 0 i) in
  digitized_space <- mask_assign digitized_space (firstn i bins) ;;
  ndc <- accumulate (repeat 0 nbins) digitized_space bins ;;
  ndc <- average ndc (Counter digitized_space) ;;
  spread ndc digitized_space.

(** The reference distribution for the cut index [i]: the first [i] counts,
    the rest of the mass folded into the last of them. *)
Definition reference_density_of (bins : list Z) (i : nat) : result (list Z) :=
  let ref := firstn i bins in
  match ref with
  | [] => Raise IndexError
  | _ => Ok (removelast ref ++ [(last ref 0 + Num.sum (skipn i bins))%Z])
  end.

Section Entropy.
(** [scipy.stats.entropy(pk, qk)] and the comparison of its values. *)
Context {D : Type} (entropy : list Q -> list Q -> D) (dltb : D -> D -> bool).

(** One iteration of the search loop.  [_normalize_distr] rebinds a local
    name only, so both densities reach [entropy] as built. *)
Definition entropy_body (bins : list Z) (total_data : Z) (nbins i : nat)
  : result D :=
  new_density <- new_density_of bins nbins i ;;
  let total_counts_new := qsum new_density + inject_Z (Num.sum (skipn i bins)) in
  reference_density <- reference_density_of bins i ;;
  let total_counts_old := Num.sum reference_density in
  if negb (py_round total_counts_new =? total_data)%Z
     || negb (total_counts_old =? total_data)%Z
  then Raise RuntimeError
  else Ok (entropy (map inject_Z reference_density) new_density).

(** The part of [_compute_amax_entropy] after [bins[0] = bins[1]]. *)
Definition entropy_search (bins : list Z) (calib_bin_edges : option (list Q))
    (num_bits : NumBits) (unsigned : bool) (stride start_bin : nat)
  : result (option Q) :=
  let total_data := Num.sum bins in
  nbins <-
    match num_bits with
    | Int n =>
        let s := (n - 1 + (if unsigned then 1 else 0))%Z in
        if (s <? 0)%Z then Raise ValueError else Ok (Z.to_nat (2 ^ s))
    | Tuple _ _ => Raise TypeError
    end ;;
  let starting := start_bin in
  let stop := length bins in
  arguments <- py_range starting (stop + 1) stride ;;
  divergences <- mapM (entropy_body bins total_data nbins) arguments ;;
  a <- argmin dltb (rev divergences) ;;
  let last_argmin := (length divergences - 1 - a)%nat in
  match calib_bin_edges with
  | None => Raise TypeError
  | Some edges =>
      calib_amax <- Num.index edges (last_argmin * stride + starting) ;;
      Ok (Some calib_amax)
  end.

(** [_compute_amax_entropy].  [bins = calib_hist[:]] is a view of the
    caller's array, so the write to [bins[0]] lands in it: the first
    component is the content of that array when the call ends. *)
Definition _compute_amax_entropy (calib_hist : option (list Z))
    (calib_bin_edges : option (list Q)) (num_bits : NumBits) (unsigned : bool)
    (stride start_bin : nat) : option (list Z) * result (option Q) :=
  match calib_bin_edges, calib_hist with
  | None, None => (None, Ok None)
  | _, None => (None, Raise TypeError)
  | _, Some hist =>
      match hist with
      | b0 :: b1 :: rest =>
          let bins := b1 :: b1 :: rest in
          (Some bins,
           entropy_search bins calib_bin_edges num_bits unsigned stride start_bin)
      | _ => (Some hist, Raise IndexError)
      end
  end.
End Entropy.

(** ** The entropy search on an array of a fixed-width integer type

    The definitions above compute on integers without bound.  numpy computes
    on the element type [dt] of [calib_hist]: [reference_density] is an array
    of that type, so the sum that line 263 adds to its last entry is cast to
    [dt] when it is stored, and every [np.sum] of counts is an int64.  The two
    agree while the total fits (see [entropy_int_exact]). *)

(** The reference distribution for the cut index [i], as stored. *)
Definition reference_density_int (dt : Num.IntType) (bins : list Z) (i : nat)
  : result (list Z) :=
  let ref := firstn i bins in
  match ref with
  | [] => Raise IndexError
  | _ => Ok (removelast ref
             ++ [Num.cast dt (last ref 0 + Num.isum (skipn i bins))%Z])
  end.

Section EntropyInt.
Context {D : Type} (entropy : list Q -> list Q -> D) (dltb : D -> D -> bool).

Definition entropy_body_int (dt : Num.IntType) (bins : list Z) (total_data : Z)
    (nbins i : nat) : result D :=
  new_density <- new_density_of bins nbins i ;;
  let total_counts_new := qsum new_density + inject_Z (Num.isum (skipn i bins)) in
  reference_density <- reference_density_int dt bins i ;;
  let total_counts_old := Num.isum reference_density in
  if negb (py_round total_counts_new =? total_data)%Z
     || negb (total_counts_old =? total_data)%Z
  then Raise RuntimeError
  else Ok (entropy (map inject_Z reference_density) new_density).

Definition entropy_search_int (dt : Num.IntType) (bins : list Z)
    (calib_bin_edges : option (list Q))
    (num_bits : NumBits) (unsigned : bool) (stride start_bin : nat)
  : result (option Q) :=
  let total_data := Num.isum bins in
  nbins <-
    match num_bits with
    | Int n =>
        let s := (n - 1 + (if unsigned then 1 else 0))%Z in
        if (s <? 0)%Z then Raise ValueError else Ok (Z.to_nat (2 ^ s))
    | Tuple _ _ => Raise TypeError
    end ;;
  let starting := start_bin in
  let stop := length bins in
  arguments <- py_range starting (stop + 1) stride ;;
  divergences <- mapM (entropy_body_int dt bins total_data nbins) arguments ;;
  a <- argmin dltb (rev divergences) ;;
  let last_argmin := (length divergences - 1 - a)%nat in
  match calib_bin_edges with
  | None => Raise TypeError
  | Some edges =>
      calib_amax <- Num.index edges (last_argmin * stride + starting) ;;
      Ok (Some calib_amax)
  end.

(** [_compute_amax_entropy] on a [calib_hist] of element type [dt]; the first
    component is again the content of the caller's array when the call
    ends. *)
Definition _compute_amax_entropy_int (dt : Num.IntType)
    (calib_hist : option (list Z))
    (calib_bin_edges : option (list Q)) (num_bits : NumBits) (unsigned : bool)
    (stride start_bin : nat) : option (list Z) * result (option Q) :=
  match calib_bin_edges, calib_hist with
  | None, None => (None, Ok None)
  | _, None => (None, Raise TypeError)
  | _, Some hist =>
      match hist with
      | b0 :: b1 :: rest =>
          let bins := b1 :: b1 :: rest in
          (Some bins,
           entropy_search_int dt bins calib_bin_edges num_bits unsigned
             stride start_bin)
      | _ => (Some hist, Raise IndexError)
      end
  end.
End EntropyInt.

Section Mse.
(** The fake-quantization collaborators of [tensor_quant]. *)
Context (fake_tensor_quant : list Q -> Q -> Z -> bool -> list Q)
        (scaled_e4m3 : list Q -> Q -> Z -> Z -> list Q).

(** Elementwise binary operation on tensors of one shape. *)
Fixpoint zip_with (f : Q -> Q -> Q) (a b : list Q) : result (list Q) :=
  match a, b with
  | [], [] => Ok []
  | x :: a', y :: b' => r <- zip_with f a' b' ;; Ok (f x y :: r)
  | _, _ => Raise RuntimeError
  end.

Definition mean (l : list Q) : Q := qsum l / Num.of_nat (length l).

(** [(edges[1:] + edges[:-1]) / 2]. *)
Fixpoint centers_of (edges : list Q) : list Q :=
  match edges with
  | x :: ((y :: _) as r) => ((y + x) / 2) :: centers_of r
  | _ => []
  end.

(** One iteration of the MSE loop. *)
Definition mse_body (centers counts : list Q) (num_bits : NumBits)
    (unsigned : bool) (i : nat) : result Q :=
  amax <- Num.index centers i ;;
  quant_centers <-
    match num_bits with
    | Int n =>
        if (0 <=? n)%Z then Ok (fake_tensor_quant centers amax n unsigned)
        else Raise TypeError
    | Tuple e m =>
        if ((e =? 4) && (m =? 3))%Z then Ok (scaled_e4m3 centers amax e m)
        else Raise TypeError
    end ;;
  d <- zip_with Qminus quant_centers centers ;;
  w <- zip_with Qmult (map (fun v => v * v) d) counts ;;
  Ok (mean w).

(** [_compute_amax_mse]. *)
Definition _compute_amax_mse (calib_hist : option (list Z))
    (calib_bin_edges : option (list Q)) (num_bits : NumBits) (unsigned : bool)
    (stride start_bin : nat) : result (option Q) :=
  match calib_bin_edges, calib_hist with
  | None, None => Ok None
  | Some calib_bin_edges, Some calib_hist =>
      let counts := map inject_Z calib_hist in
      let edges := calib_bin_edges in
      let centers := centers_of edges in
      arguments <- py_range start_bin (length centers) stride ;;
      mses <- mapM (mse_body centers counts num_bits unsigned) arguments ;;
      a <- argmin Num.Qltb mses ;;
      i <- Num.index arguments a ;;
      calib_amax <- Num.index centers i ;;
      Ok (Some calib_amax)
  | _, _ => Raise TypeError
  end.
End Mse.

(** [np.cumsum]. *)
Fixpoint cumsum_from (acc : Q) (l : list Q) : list Q :=
  match l with
  | [] => []
  | x :: r => (acc + x) :: cumsum_from (acc + x) r
  end.

Definition cumsum (l : list Q) : list Q := cumsum_from 0 l.

(** [np.searchsorted(a, v)] (left side): a binary search for the first index
    whose element is [>= v]. *)
Fixpoint bsearch (fuel : nat) (a : list Q) (v : Q) (min_idx max_idx : nat) : nat :=
  match fuel with
  | O => min_idx
  | S fuel' =>
      if (min_idx <? max_idx)%nat then
        let mid := (min_idx + (max_idx - min_idx) / 2)%nat in
        if Num.Qltb (nth mid a 0) v then bsearch fuel' a v (S mid) max_idx
        else bsearch fuel' a v min_idx mid
      else min_idx
  end.

Definition searchsorted (a : list Q) (v : Q) : nat :=
  bsearch (List.length a) a v 0 (List.length a).

(** [_compute_amax_percentile]. *)
Definition _compute_amax_percentile (calib_hist : option (list Z))
    (calib_bin_edges : option (list Q)) (percentile : Q) : result (option Q) :=
  if Num.Qltb percentile 0 || Num.Qltb 100 percentile then Raise ValueError
  else
    match calib_bin_edges, calib_hist with
    | None, None => Ok None
    | Some calib_bin_edges, Some calib_hist =>
        let total := inject_Z (Num.sum calib_hist) in
        let cdf := cumsum (map (fun c => inject_Z c / total) calib_hist) in
        let idx := searchsorted cdf (percentile / 100) in
        calib_amax <- Num.index calib_bin_edges idx ;;
        Ok (Some calib_amax)
    | _, _ => Raise TypeError
    end.

(** [HistogramCalibrator.compute_amax].  The advisory warning of the
    distributed case leaves state and result alone and is left out.  A torch
    histogram reaches the search as a copy converted by [.int()], an int32
    array (a count outside the int32 range wraps around); a numpy one, an
    int64 array, is passed as the stored array itself, so what the entropy
    search writes into it is kept in the calibrator. *)
Section ComputeAmax.
Context {D : Type} (entropy : list Q -> list Q -> D) (dltb : D -> D -> bool)
        (fake_tensor_quant : list Q -> Q -> Z -> bool -> list Q)
        (scaled_e4m3 : list Q -> Q -> Z -> Z -> list Q).

Definition compute_amax (c : HistogramCalibrator) (method : string)
    (stride start_bin : nat) (percentile : Q)
  : HistogramCalibrator * result (option Q) :=
  let dt := if _torch_hist c then Num.int32 else Num.int64 in
  let calib_hist :=
    if _torch_hist c
    then option_map (map (Num.cast Num.int32)) (_calib_hist c)
    else _calib_hist c in
  let calib_bin_edges := _calib_bin_edges c in
  if String.eqb method "entropy" then
    let '(stored, calib_amax) :=
      _compute_amax_entropy_int entropy dltb dt calib_hist calib_bin_edges
        (_num_bits c) (_unsigned c) stride start_bin in
    let c' :=
      if _torch_hist c then c
      else mkCalibrator (_num_bits c) (_unsigned c) (_num_bins c)
             (_skip_zeros c) (_torch_hist c) (_calib_bin_edges c) stored in
    (c', calib_amax)
  else if String.eqb method "mse" then
    (c, _compute_amax_mse fake_tensor_quant scaled_e4m3 calib_hist
          calib_bin_edges (_num_bits c) (_unsigned c) stride start_bin)
  else if String.eqb method "percentile" then
    (c, _compute_amax_percentile calib_hist calib_bin_edges percentile)
  else (c, Raise TypeError).
End ComputeAmax.

(** ** The per-channel weight calibration driver *)

Record Tensor : Type := mkTensor {
  shape : list nat;
  data : list Q
}.

Definition prod (s : list nat) : nat := fold_right Nat.mul 1%nat s.
Definition numel (t : Tensor) : nat := prod (shape t).
Definition dim (t : Tensor) : nat := List.length (shape t).

(** The flattened slice [t.index_select(axis, i)] of a row-major tensor. *)
Definition index_select (t : Tensor) (axis i : nat) : result (list Q) :=
  n <- Num.index (shape t) axis ;;
  if (n <=? i)%nat then Raise IndexError
  else
    let outer := prod (firstn axis (shape t)) in
    let inner := prod (skipn (S axis) (shape t)) in
    Ok (concat (map (fun o => firstn inner (skipn ((o * n + i) * inner) (data t)))
                    (seq 0 outer))).

(** Modelled from the spec: [quant_utils.convert_quantization_axis_to_reduce_axis]
    followed by [quant_utils.reduce_amax], which are not among the sources.
    The [max] method uses the raw per-channel maximum absolute value, kept in
    a tensor whose shape is all ones except the channel axis; with no axis the
    maximum is taken over the whole tensor. *)
Definition reduce_amax (w : Tensor) (axis : option nat) : result Tensor :=
  match axis with
  | None =>
      m <- Num.amax RuntimeError (map Qabs (data w)) ;;
      Ok (mkTensor [] [m])
  | Some a =>
      n <- Num.index (shape w) a ;;
      vals <- mapM (fun c => sl <- index_select w a c ;;
                             Num.amax RuntimeError (map Qabs sl)) (seq 0 n) ;;
      Ok (mkTensor (upd (repeat 1%nat (dim w)) a n) vals)
  end.

Definition shape_eqb (s1 s2 : list nat) : bool :=
  if list_eq_dec Nat.eq_dec s1 s2 then true else false.

(** [torch.stack] along a new first axis. *)
Definition stack (ts : list Tensor) : result Tensor :=
  match ts with
  | [] => Raise RuntimeError
  | t :: _ =>
      if forallb (fun u => shape_eqb (shape u) (shape t)) ts
      then Ok (mkTensor (List.length ts :: shape t) (concat (map data ts)))
      else Raise RuntimeError
  end.

Definition reshape (t : Tensor) (s : list nat) : result Tensor :=
  if (prod s =? numel t)%nat then Ok (mkTensor s (data t)) else Raise RuntimeError.

(** [t.squeeze_()]: every axis of size one is dropped. *)
Definition squeeze (t : Tensor) : Tensor :=
  mkTensor (filter (fun d => negb (d =? 1)%nat) (shape t)) (data t).

Record TensorQuantizer : Type := mkQuantizer {
  num_bits : NumBits;
  unsigned : bool;
  amax : option Tensor
}.

(** A child module: its weight and weight quantizer when it has them, and
    whether it is one of the transposed convolutions. *)
Record QuantModule : Type := mkModule {
  weight : option Tensor;
  weight_quantizer : option TensorQuantizer;
  channel_second : bool
}.

Section CalibrateWeights.
Context (fake_tensor_quant : list Q -> Q -> Z -> bool -> list Q)
        (scaled_e4m3 : list Q -> Q -> Z -> Z -> list Q).

(** One histogram of absolute values over [[0, max]]. *)
Definition weight_histogram (input_weights : list Q) (num_bins : Z)
  : result (list Z * list Q) :=
  let input_weights := map Qabs input_weights in
  mx <- Num.amax ValueError input_weights ;;
  Num.histogram_bins input_weights num_bins (Some (0, mx)).

Definition scalar (r : option Q) : result Tensor :=
  match r with
  | Some v => Ok (mkTensor [] [v])
  | None => Raise TypeError
  end.

(** The body of the loop of [calibrate_weights] for a module that has a
    weight and a weight quantizer. *)
Definition calibrate_module (w : Tensor) (q : TensorQuantizer)
    (is_channel_second : bool) (method : string) (perchannel : bool)
    (percentile : Q) (num_bins : Z) : result TensorQuantizer :=
  let axis :=
    if perchannel then Some (if is_channel_second then 1%nat else 0%nat)
    else None in
  axis_size <-
    match axis with
    | Some a => Num.index (shape w) a
    | None => Ok 1%nat
    end ;;
  hists <-
    match axis with
    | None => h <- weight_histogram (data w) num_bins ;; Ok [h]
    | Some a =>
        mapM (fun i => sl <- index_select w a i ;; weight_histogram sl num_bins)
             (seq 0 axis_size)
    end ;;
  calib_amax <-
    (if String.eqb method "max" then
       t <- reduce_amax w axis ;; Ok [t]
     else if String.eqb method "mse" then
       mapM (fun i => '(h, e) <- Num.index hists i ;;
                      r <- _compute_amax_mse fake_tensor_quant scaled_e4m3
                             (Some h) (Some e) (num_bits q) (unsigned q)
                             1%nat 128%nat ;;
                      scalar r)
            (seq 0 axis_size)
     else if String.eqb method "percentile" then
       mapM (fun i => '(h, e) <- Num.index hists i ;;
                      r <- _compute_amax_percentile (Some h) (Some e) percentile ;;
                      scalar r)
            (seq 0 axis_size)
     else Raise TypeError) ;;
  calib_amax_t <-
    match axis with
    | None => Num.index calib_amax 0
    | Some a =>
        if (dim w <=? a)%nat then Raise IndexError
        else
          let calib_amax_shape := upd (repeat 1%nat (dim w)) a axis_size in
          t <- stack calib_amax ;; reshape t calib_amax_shape
    end ;;
  let calib_amax_t :=
    if (numel calib_amax_t =? 1)%nat then squeeze calib_amax_t else calib_amax_t in
  Ok (mkQuantizer (num_bits q) (unsigned q) (Some calib_amax_t)).

(** [calibrate_weights]: every child module that has both attributes is
    calibrated in turn. *)
Fixpoint calibrate_weights (model : list QuantModule) (method : string)
    (perchannel : bool) (percentile : Q) (num_bins : Z)
  : result (list QuantModule) :=
  match model with
  | [] => Ok []
  | m :: rest =>
      m' <-
        match weight m, weight_quantizer m with
        | Some w, Some q =>
            q' <- calibrate_module w q (channel_second m) method perchannel
                    percentile num_bins ;;
            Ok (mkModule (weight m) (Some q') (channel_second m))
        | _, _ => Ok m
        end ;;
      rest' <- calibrate_weights rest method perchannel percentile num_bins ;;
      Ok (m' :: rest')
  end.
End CalibrateWeights.

(** ** Vocabulary of the specifications *)

Definition fresh (num_bins : Z) (skip_zeros torch_hist : bool) : HistogramCalibrator :=
  mkCalibrator (Int 8) false num_bins skip_zeros torch_hist None None.

Definition hist_total (c : HistogramCalibrator) : Z :=
  match _calib_hist c with
  | Some h => Num.sum h
  | None => 0%Z
  end.

(** The number of values a batch contributes. *)
Definition ingested (skip_zeros : bool) (x : list Q) : Z :=
  Z.of_nat (List.length (if skip_zeros then filter nonzero x else x)).

Definition ingested_all (skip_zeros : bool) (batches : list (list Q)) : Z :=
  fold_right (fun x acc => (ingested skip_zeros x + acc)%Z) 0%Z batches.

(** Non-decreasing, stated on positions. *)
Definition sorted_nth (a : list Q) : Prop :=
  forall i j, (i <= j < List.length a)%nat -> nth i a 0 <= nth j a 0.

(** The candidate cut indices [start, start + stride, ...] below [stop]. *)
Definition candidate (start stop stride j : nat) : Prop :=
  (exists k, j = start + k * stride)%nat /\ (j < stop)%nat.

(** The mass that the entries of key [k] carry, and the count kept for a key
    in a [Counter]. *)
Fixpoint keysum (k : Z) (ds : list Z) (bs : list Z) : Q :=
  match ds, bs with
  | d :: ds', b :: bs' =>
      (if (d =? k)%Z then inject_Z b else 0) + keysum k ds' bs'
  | _, _ => 0
  end.

Fixpoint keycount (k : Z) (ds : list Z) : nat :=
  match ds with
  | [] => 0%nat
  | d :: ds' => ((if (d =? k)%Z then 1 else 0) + keycount k ds')%nat
  end.

Fixpoint cget (c : list (Z * nat)) (k : Z) : nat :=
  match c with
  | [] => 0%nat
  | (k', n) :: r => if (k =? k')%Z then n else cget r k
  end.

(** What an entry of [digitized_space] may be next to its count: the mark -1
    on an empty bin, or a quantization level below [n]. *)
Definition level_ok (n : nat) (d b : Z) : Prop :=
  (d = (-1)%Z /\ b = 0%Z) \/ (0 <= d < Z.of_nat n)%Z.

(** The score of the MSE search in the words of its description: the mean
    over the bins of the squared distance between a center and its quantized
    image, weighted by the count of the bin. *)
Fixpoint weighted_sq_err (quant centers counts : list Q) : list Q :=
  match quant, centers, counts with
  | q :: qs, c :: cs, w :: ws =>
      ((q - c) * (q - c) * w) :: weighted_sq_err qs cs ws
  | _, _, _ => []
  end.

Definition valid_num_bits (num_bits : NumBits) : Prop :=
  match num_bits with
  | Int n => (0 <= n)%Z
  | Tuple e m => e = 4%Z /\ m = 3%Z
  end.

Definition mse_score (fake_tensor_quant : list Q -> Q -> Z -> bool -> list Q)
    (scaled_e4m3 : list Q -> Q -> Z -> Z -> list Q)
    (hist : list Z) (edges : list Q) (num_bits : NumBits) (unsigned : bool)
    (i : nat) : Q :=
  let centers := centers_of edges in
  let amax := nth i centers 0 in
  let quant :=
    match num_bits with
    | Int n => fake_tensor_quant centers amax n unsigned
    | Tuple e m => scaled_e4m3 centers amax e m
    end in
  qsum (weighted_sq_err quant centers (map inject_Z hist))
  / Num.of_nat (List.length centers).

(** The shape of a stored histogram: one count per pair of neighbouring
    edges, edges non-decreasing. *)
Definition hist_inv (c : HistogramCalibrator) : Prop :=
  match _calib_bin_edges c, _calib_hist c with
  | None, None => True
  | Some e, Some h => List.length e = S (List.length h) /\ Num.monotone e = true
  | _, _ => False
  end.

Definition first_edge_zero (c : HistogramCalibrator) : Prop :=
  match _calib_bin_edges c with
  | Some (first :: _) => first == 0
  | Some [] => False
  | None => True
  end.

(** In the torch mode [_num_bins] follows the stored histogram. *)
Definition num_bins_inv (c : HistogramCalibrator) : Prop :=
  match _calib_hist c with
  | Some h => Z.of_nat (List.length h) = _num_bins c
  | None => True
  end.

Definition torch_ok (c : HistogramCalibrator) : Prop :=
  hist_inv c /\ first_edge_zero c /\ num_bins_inv c.

Definition counts_nonneg (c : HistogramCalibrator) : Prop :=
  match _calib_hist c with
  | Some h => Forall (fun v => (0 <= v)%Z) h
  | None => True
  end.

(** A batch that holds at least one value other than zero. *)
Definition has_nonzero (x : list Q) : Prop := Exists (fun y => ~ y == 0) x.

(** Non-decreasing integers, on neighbours. *)
Fixpoint zsorted (c : list Z) : Prop :=
  match c with
  | x :: ((y :: _) as r) => (x <= y)%Z /\ zsorted r
  | _ => True
  end.

(** * Properties *)

(** ** Searching an empty collector *)

(** C5: on a collector that holds no histogram and no bin edges, each of the
    three search methods (the percentile lying in [0, 100]) returns [None],
    raises nothing and leaves the collector as it was. *)
Theorem compute_amax_empty :
  forall (D : Type) (entropy : list Q -> list Q -> D) (dltb : D -> D -> bool)
         (fake_tensor_quant : list Q -> Q -> Z -> bool -> list Q)
         (scaled_e4m3 : list Q -> Q -> Z -> Z -> list Q)
         (c : HistogramCalibrator) (method : string)
         (stride start_bin : nat) (percentile : Q),
    _calib_hist c = None ->
    _calib_bin_edges c = None ->
    method = "entropy"%string \/ method = "mse"%string \/ method = "percentile"%string ->
    0 <= percentile <= 100 ->
    compute_amax entropy dltb fake_tensor_quant scaled_e4m3 c method
      stride start_bin percentile = (c, Ok None).
Proof.
  intros D entropy dltb ftq e4m3 c method stride start_bin p Hh He Hm [Hp0 Hp1].
  destruct c as [nb u n sz th e h]; simpl in Hh, He; subst e h.
  unfold compute_amax; simpl.
  destruct Hm as [-> | [-> | ->]]; simpl.
  - destruct th; reflexivity.
  - destruct th; reflexivity.
  - unfold _compute_amax_percentile, Num.Qltb.
    apply Qle_bool_iff in Hp0, Hp1. rewrite Hp0, Hp1. destruct th; reflexivity.
Qed.

Lemma compute_amax_empty_witness :
  let c := mkCalibrator (Int 8) false 2048 false true None None in
  compute_amax (fun _ q => qsum q) Num.Qltb (fun c _ _ _ => c) (fun c _ _ _ => c)
    c "mse" 1 128 (9999 # 100) = (c, Ok None).
Proof.
  intro c.
  apply (compute_amax_empty Q (fun _ q => qsum q) Num.Qltb
           (fun c _ _ _ => c) (fun c _ _ _ => c) c "mse" 1%nat 128%nat (9999 # 100)).
  - reflexivity.
  - reflexivity.
  - right; left; reflexivity.
  - split; [ apply Qle_bool_iff | apply Qle_bool_iff ]; reflexivity.
Defined.

(** ** Aliasing in the entropy search *)

(** C9: the entropy search writes into the counts array it is given: on the
    counts [5, 3, 2, 0, 7] the caller's array holds [3, 3, 2, 0, 7] when the
    call returns. *)
Theorem entropy_search_overwrites_first_count :
  fst (_compute_amax_entropy (fun _ q => qsum q) Num.Qltb
         (Some [5; 3; 2; 0; 7]%Z) (Some [0; 1; 2; 3; 4; 5]) (Int 2) false 1 1)
  = Some [3; 3; 2; 0; 7]%Z.
Proof. reflexivity. Qed.

(** The write does not depend on the scoring function, nor on how the search
    ends: any array of at least two counts loses its first entry. *)
Lemma entropy_search_store :
  forall (D : Type) (entropy : list Q -> list Q -> D) (dltb : D -> D -> bool)
         b0 b1 rest edges nb u stride start_bin,
    fst (_compute_amax_entropy entropy dltb (Some (b0 :: b1 :: rest)) edges
           nb u stride start_bin) = Some (b1 :: b1 :: rest).
Proof. intros. destruct edges; reflexivity. Qed.

(** Through [compute_amax], a numpy-collected histogram is changed in the
    collector itself. *)
Lemma compute_amax_entropy_changes_numpy_collector :
  let c := mkCalibrator (Int 2) false 5 false false
             (Some [0; 1; 2; 3; 4; 5]) (Some [5; 3; 2; 0; 7]%Z) in
  _calib_hist (fst (compute_amax (fun _ q => qsum q) Num.Qltb
                      (fun c _ _ _ => c) (fun c _ _ _ => c) c "entropy" 1 1 50))
  = Some [3; 3; 2; 0; 7]%Z.
Proof. reflexivity. Qed.

(** ** Generic facts about the error monad and the substrate *)


Lemma mapM_Forall2 {A B : Type} (f : A -> result B) (l : list A) (bs : list B) :
  mapM f l = Ok bs -> Forall2 (fun a b => f a = Ok b) l bs.
Proof.
  revert bs. induction l as [| a r IH]; simpl; intros bs H.
  - inversion H. constructor.
  - destruct (f a) as [b |] eqn:Hb; simpl in H; [ | discriminate ].
    destruct (mapM f r) as [bs' |] eqn:Hr; simpl in H; [ | discriminate ].
    inversion H; subst. constructor; [ assumption | apply IH; reflexivity ].
Qed.


Lemma Qle_bool_total (x y : Q) : Qle_bool x y = false -> Qle_bool y x = true.
Proof.
  intros H. apply Qle_bool_iff. destruct (Qlt_le_dec y x) as [Hlt | Hle].
  - apply Qlt_le_weak; assumption.
  - apply Qle_bool_iff in Hle. congruence.
Qed.

Lemma qmax_ge_l (x y : Q) : x <= Num.qmax x y.
Proof.
  unfold Num.qmax. destruct (Qle_bool x y) eqn:E.
  - apply Qle_bool_iff; assumption.
  - apply Qle_refl.
Qed.

Lemma qmax_ge_r (x y : Q) : y <= Num.qmax x y.
Proof.
  unfold Num.qmax. destruct (Qle_bool x y) eqn:E.
  - apply Qle_refl.
  - apply Qle_bool_iff, Qle_bool_total; assumption.
Qed.

Lemma fold_qmax_ge_init (r : list Q) (x : Q) : x <= fold_left Num.qmax r x.
Proof.
  revert x. induction r as [| y r IH]; intros x; simpl.
  - apply Qle_refl.
  - eapply Qle_trans; [ apply qmax_ge_l | apply IH ].
Qed.

Lemma fold_qmax_ge (r : list Q) (x y : Q) :
  In y (x :: r) -> y <= fold_left Num.qmax r x.
Proof.
  revert x. induction r as [| z r IH]; intros x H; simpl.
  - destruct H as [-> | []]. apply Qle_refl.
  - destruct H as [-> | [-> | H]].
    + eapply Qle_trans; [ apply qmax_ge_l | apply fold_qmax_ge_init ].
    + eapply Qle_trans; [ apply qmax_ge_r | apply fold_qmax_ge_init ].
    + apply IH. right; assumption.
Qed.

Lemma amax_ge (e : exn) (a : list Q) (m y : Q) :
  Num.amax e a = Ok m -> In y a -> y <= m.
Proof.
  destruct a as [| x r]; simpl; intros H Hy; [ discriminate | ].
  inversion H; subst. apply fold_qmax_ge; assumption.
Qed.

Lemma amax_nonempty (e : exn) (a : list Q) :
  a <> [] -> exists m, Num.amax e a = Ok m.
Proof. destruct a; [ congruence | intros _; eexists; reflexivity ]. Qed.

Lemma amax_abs_nonneg (e : exn) (a : list Q) (m : Q) :
  Num.amax e (map Qabs a) = Ok m -> 0 <= m.
Proof.
  destruct a as [| x r]; simpl; intros H; [ discriminate | ].
  inversion H; subst.
  eapply Qle_trans; [ apply (Qabs_nonneg x) | apply fold_qmax_ge_init ].
Qed.

(** ** Per-channel reassembly *)

Lemma weight_histogram_ok (sl : list Q) (num_bins : Z) :
  sl <> [] -> (1 <= num_bins)%Z -> exists h, weight_histogram sl num_bins = Ok h.
Proof.
  intros Hsl Hn. unfold weight_histogram.
  destruct (amax_nonempty ValueError (map Qabs sl)) as [m Hm].
  { destruct sl; [ congruence | discriminate ]. }
  rewrite Hm. simpl. unfold Num.histogram_bins.
  destruct (num_bins <? 1)%Z eqn:E; [ apply Z.ltb_lt in E; lia | ].
  unfold Num.outer_edges, Num.Qltb.
  apply amax_abs_nonneg in Hm. apply Qle_bool_iff in Hm. rewrite Hm. simpl.
  destruct (Qeq_bool 0 m); simpl; eexists; reflexivity.
Qed.





(** ** Percentile search *)

Lemma Qltb_lt (x y : Q) : Num.Qltb x y = true <-> x < y.
Proof.
  unfold Num.Qltb. rewrite negb_true_iff. split; intros H.
  - apply Qnot_le_lt. intros L. apply Qle_bool_iff in L. congruence.
  - destruct (Qle_bool y x) eqn:E; [ | reflexivity ].
    apply Qle_bool_iff in E. exfalso. exact (Qlt_not_le _ _ H E).
Qed.

Lemma Qltb_ge (x y : Q) : Num.Qltb x y = false <-> y <= x.
Proof.
  unfold Num.Qltb. rewrite negb_false_iff. apply Qle_bool_iff.
Qed.

Lemma bsearch_spec (a : list Q) (v : Q) :
  sorted_nth a ->
  forall fuel lo hi,
    (hi - lo <= fuel)%nat -> (lo <= hi <= List.length a)%nat ->
    (forall i, (i < lo)%nat -> nth i a 0 < v) ->
    (forall i, (hi <= i < List.length a)%nat -> v <= nth i a 0) ->
    let r := bsearch fuel a v lo hi in
    (r <= List.length a)%nat /\
    (forall i, (i < r)%nat -> nth i a 0 < v) /\
    (forall i, (r <= i < List.length a)%nat -> v <= nth i a 0).
Proof.
  intros Hs. induction fuel as [| fuel IH]; intros lo hi Hf Hb Hlo Hhi.
  - simpl. assert (lo = hi) by lia. subst hi.
    repeat split; [ lia | assumption | assumption ].
  - cbv zeta. cbn [bsearch]. destruct (lo <? hi)%nat eqn:E.
    + apply Nat.ltb_lt in E.
      set (mid := (lo + (hi - lo) / 2)%nat).
      assert (Hmid : (lo <= mid < hi)%nat).
      { unfold mid. split; [ lia | ].
        assert ((hi - lo) / 2 < hi - lo)%nat by (apply Nat.div_lt; lia). lia. }
      destruct (Num.Qltb (nth mid a 0) v) eqn:C.
      * apply Qltb_lt in C. apply IH.
        -- lia.
        -- lia.
        -- intros i Hi. apply Qle_lt_trans with (nth mid a 0); [ apply Hs; lia | exact C ].
        -- assumption.
      * apply Qltb_ge in C. apply IH.
        -- lia.
        -- lia.
        -- assumption.
        -- intros i Hi. apply Qle_trans with (nth mid a 0); [ exact C | apply Hs; lia ].
    + apply Nat.ltb_ge in E. assert (lo = hi) by lia. subst hi.
      repeat split; [ lia | assumption | assumption ].
Qed.

Lemma searchsorted_spec (a : list Q) (v : Q) :
  sorted_nth a ->
  (searchsorted a v <= List.length a)%nat /\
  (forall i, (i < searchsorted a v)%nat -> nth i a 0 < v) /\
  (forall i, (searchsorted a v <= i < List.length a)%nat -> v <= nth i a 0).
Proof.
  intros Hs. unfold searchsorted.
  apply (bsearch_spec a v Hs); try lia; intros; lia.
Qed.

Lemma searchsorted_monotone (a : list Q) (v1 v2 : Q) :
  sorted_nth a -> v1 <= v2 -> (searchsorted a v1 <= searchsorted a v2)%nat.
Proof.
  intros Hs Hv.
  destruct (searchsorted_spec a v1 Hs) as [L1 [B1 A1]].
  destruct (searchsorted_spec a v2 Hs) as [L2 [B2 A2]].
  destruct (Nat.le_gt_cases (searchsorted a v1) (searchsorted a v2)) as [H | H];
    [ assumption | exfalso ].
  specialize (B1 _ H). specialize (A2 (searchsorted a v2) ltac:(lia)).
  apply (Qlt_not_le _ _ B1). eapply Qle_trans; eassumption.
Qed.

Lemma monotone_sorted_nth (e : list Q) : Num.monotone e = true -> sorted_nth e.
Proof.
  induction e as [| x r IH]; intros H i j Hij; simpl in Hij; [ lia | ].
  destruct r as [| y r'].
  - assert (i = 0%nat /\ j = 0%nat) as [-> ->] by (simpl in Hij; lia). apply Qle_refl.
  - simpl in H. apply andb_true_iff in H. destruct H as [Hxy Hr].
    apply Qle_bool_iff in Hxy. specialize (IH Hr).
    destruct i as [| i], j as [| j]; try lia.
    + apply Qle_refl.
    + change (x <= nth j (y :: r') 0).
      eapply Qle_trans; [ exact Hxy | ].
      apply (IH 0%nat j). simpl in *. lia.
    + change (nth i (y :: r') 0 <= nth j (y :: r') 0). apply IH. simpl in *. lia.
Qed.

Lemma cumsum_from_ge (l : list Q) :
  Forall (fun x => 0 <= x) l ->
  forall acc j, (j < List.length l)%nat -> acc <= nth j (cumsum_from acc l) 0.
Proof.
  induction 1 as [| x r Hx Hr IH]; intros acc j Hj; simpl in Hj; [ lia | ].
  assert (Hacc : acc <= acc + x).
  { rewrite <- (Qplus_0_r acc) at 1. apply Qplus_le_r. assumption. }
  destruct j as [| j]; simpl; [ assumption | ].
  eapply Qle_trans; [ exact Hacc | apply IH; lia ].
Qed.

Lemma cumsum_from_length (l : list Q) (acc : Q) :
  List.length (cumsum_from acc l) = List.length l.
Proof. revert acc. induction l; simpl; intros; [ reflexivity | f_equal; auto ]. Qed.

Lemma cumsum_from_sorted (l : list Q) :
  Forall (fun x => 0 <= x) l -> forall acc, sorted_nth (cumsum_from acc l).
Proof.
  induction 1 as [| x r Hx Hr IH]; intros acc i j Hij; simpl in Hij; [ lia | ].
  rewrite cumsum_from_length in Hij.
  destruct i as [| i], j as [| j]; try lia; simpl.
  - apply Qle_refl.
  - apply cumsum_from_ge; [ assumption | lia ].
  - apply IH. rewrite cumsum_from_length. lia.
Qed.

Lemma index_nth {A : Type} (l : list A) (i : nat) (d : A) :
  (i < List.length l)%nat -> Num.index l i = Ok (nth i l d).
Proof.
  intros H. unfold Num.index.
  rewrite (nth_error_nth' l d H). reflexivity.
Qed.

Lemma sum_nonneg (h : list Z) :
  Forall (fun c => (0 <= c)%Z) h -> (0 <= Num.sum h)%Z.
Proof. induction 1; simpl; lia. Qed.

Lemma sum_pos (h : list Z) :
  Forall (fun c => (0 <= c)%Z) h -> Exists (fun c => c <> 0%Z) h -> (0 < Num.sum h)%Z.
Proof.
  induction 1 as [| c r Hc Hr IH]; intros HE; inversion HE; subst; simpl.
  - pose proof (sum_nonneg r Hr). lia.
  - specialize (IH H0). lia.
Qed.

Lemma cdf_terms_nonneg (h : list Z) (total : Q) :
  0 < total -> Forall (fun c => (0 <= c)%Z) h ->
  Forall (fun x => 0 <= x) (map (fun c => inject_Z c / total) h).
Proof.
  intros Ht. induction 1 as [| c r Hc Hr IH]; simpl; constructor; [ | assumption ].
  apply Qle_shift_div_l; [ assumption | ].
  rewrite Qmult_0_l. change 0 with (inject_Z 0). rewrite <- Zle_Qle. assumption.
Qed.

(** C7: on a histogram with non-negative counts, one of them not zero, and
    non-decreasing edges, the percentile search returns a threshold for every
    percentile in [0, 100], and a larger percentile never gives a smaller
    threshold. *)
Theorem percentile_monotone :
  forall (hist : list Z) (edges : list Q) (p1 p2 : Q),
    Forall (fun c => (0 <= c)%Z) hist ->
    Exists (fun c => c <> 0%Z) hist ->
    List.length edges = S (List.length hist) ->
    Num.monotone edges = true ->
    0 <= p1 -> p1 <= p2 -> p2 <= 100 ->
    exists t1 t2,
      _compute_amax_percentile (Some hist) (Some edges) p1 = Ok (Some t1) /\
      _compute_amax_percentile (Some hist) (Some edges) p2 = Ok (Some t2) /\
      t1 <= t2.
Proof.
  intros hist edges p1 p2 Hnn Hnz Hlen Hmono H0 H12 H100.
  set (total := inject_Z (Num.sum hist)).
  set (cdf := cumsum (map (fun c => inject_Z c / total) hist)).
  assert (Htot : 0 < total).
  { unfold total. change 0 with (inject_Z 0). rewrite <- Zlt_Qlt.
    apply sum_pos; assumption. }
  assert (Hs : sorted_nth cdf).
  { unfold cdf, cumsum. apply cumsum_from_sorted, cdf_terms_nonneg; assumption. }
  assert (Hcl : List.length cdf = List.length hist).
  { unfold cdf, cumsum. rewrite cumsum_from_length, length_map. reflexivity. }
  assert (Hv : p1 / 100 <= p2 / 100).
  { unfold Qdiv. apply Qmult_le_compat_r; [ assumption | discriminate ]. }
  pose proof (searchsorted_monotone cdf _ _ Hs Hv) as Hidx.
  destruct (searchsorted_spec cdf (p1 / 100) Hs) as [L1 _].
  destruct (searchsorted_spec cdf (p2 / 100) Hs) as [L2 _].
  exists (nth (searchsorted cdf (p1 / 100)) edges 0),
         (nth (searchsorted cdf (p2 / 100)) edges 0).
  assert (Hrange : forall p, 0 <= p -> p <= 100 ->
            Num.Qltb p 0 || Num.Qltb 100 p = false).
  { intros p Hp0 Hp1. apply orb_false_iff. split; apply Qltb_ge; assumption. }
  unfold _compute_amax_percentile.
  rewrite (Hrange p1 H0 (Qle_trans _ _ _ H12 H100)).
  rewrite (Hrange p2 (Qle_trans _ _ _ H0 H12) H100).
  fold total. fold cdf.
  rewrite (index_nth edges (searchsorted cdf (p1 / 100)) 0) by lia.
  rewrite (index_nth edges (searchsorted cdf (p2 / 100)) 0) by lia.
  simpl. repeat split; try reflexivity.
  apply (monotone_sorted_nth edges Hmono). lia.
Qed.

Lemma percentile_monotone_witness :
  exists t1 t2,
    _compute_amax_percentile (Some [1; 1; 2; 1]%Z)
      (Some [0; 3 # 4; 3 # 2; 9 # 4; 3]) 50 = Ok (Some t1) /\
    _compute_amax_percentile (Some [1; 1; 2; 1]%Z)
      (Some [0; 3 # 4; 3 # 2; 9 # 4; 3]) (9999 # 100) = Ok (Some t2) /\
    t1 <= t2.
Proof.
  apply (percentile_monotone [1; 1; 2; 1]%Z [0; 3 # 4; 3 # 2; 9 # 4; 3] 50 (9999 # 100)).
  - repeat constructor; discriminate.
  - constructor. discriminate.
  - reflexivity.
  - reflexivity.
  - discriminate.
  - discriminate.
  - discriminate.
Defined.

(** ** Sums, updates and signed indexing *)

Lemma qsum_cons (x : Q) (l : list Q) : qsum (x :: l) = x + qsum l.
Proof. reflexivity. Qed.

Lemma sum_cons (x : Z) (l : list Z) : Num.sum (x :: l) = (x + Num.sum l)%Z.
Proof. reflexivity. Qed.

Lemma qsum_app (a b : list Q) : qsum (a ++ b) == qsum a + qsum b.
Proof.
  induction a as [| x a IH]; simpl.
  - rewrite Qplus_0_l. reflexivity.
  - rewrite IH. apply Qplus_assoc.
Qed.

Lemma qsum_map_ext {A : Type} (F G : A -> Q) (l : list A) :
  (forall k, In k l -> F k == G k) -> qsum (map F l) == qsum (map G l).
Proof.
  induction l as [| k l IH]; simpl; intros H; [ reflexivity | ].
  rewrite (H k (or_introl eq_refl)), IH; [ reflexivity | ].
  intros; apply H; right; assumption.
Qed.

Lemma qsum_map_plus {A : Type} (F G : A -> Q) (l : list A) :
  qsum (map (fun k => F k + G k) l) == qsum (map F l) + qsum (map G l).
Proof.
  induction l as [| k l IH]; simpl; [ reflexivity | ].
  rewrite IH. ring.
Qed.

Lemma qsum_map_zero {A : Type} (l : list A) : qsum (map (fun _ => 0) l) == 0.
Proof. induction l; simpl; [ reflexivity | rewrite IHl; ring ]. Qed.

(** A sum over levels that picks one level out. *)
Lemma qsum_pick (v : nat -> Q) (d s n : nat) :
  (s <= d < s + n)%nat ->
  qsum (map (fun k => if (d =? k)%nat then v k else 0) (seq s n)) == v d.
Proof.
  revert s. induction n as [| n IH]; intros s H; [ lia | ].
  simpl. destruct (d =? s)%nat eqn:E.
  - apply Nat.eqb_eq in E. subst s.
    rewrite (qsum_map_ext _ (fun _ => 0)).
    + rewrite qsum_map_zero. ring.
    + intros k Hk. apply in_seq in Hk.
      destruct (d =? k)%nat eqn:E'; [ apply Nat.eqb_eq in E'; lia | reflexivity ].
  - apply Nat.eqb_neq in E. rewrite IH by lia. ring.
Qed.

Lemma qsum_inject (l : list Z) : qsum (map inject_Z l) == inject_Z (Num.sum l).
Proof.
  induction l as [| x l IH]; simpl; [ reflexivity | ].
  rewrite IH, inject_Z_plus. reflexivity.
Qed.



Lemma upd_length {A : Type} (l : list A) (i : nat) (v : A) :
  List.length (upd l i v) = List.length l.
Proof.
  revert i. induction l as [| x l IH]; intros [| i]; simpl; auto.
Qed.

Lemma upd_nth_same {A : Type} (l : list A) (i : nat) (v d : A) :
  (i < List.length l)%nat -> nth i (upd l i v) d = v.
Proof.
  revert i. induction l as [| x l IH]; intros [| i] H; simpl in *; try lia.
  - reflexivity.
  - apply IH. lia.
Qed.

Lemma upd_nth_other {A : Type} (l : list A) (i j : nat) (v d : A) :
  i <> j -> nth j (upd l i v) d = nth j l d.
Proof.
  revert i j. induction l as [| x l IH]; intros [| i] [| j] H; simpl; try reflexivity.
  - congruence.
  - apply IH. congruence.
Qed.

Lemma norm_index_ok (len : nat) (k : Z) :
  (0 <= k < Z.of_nat len)%Z -> norm_index len k = Ok (Z.to_nat k).
Proof.
  intros H. unfold norm_index.
  replace ((0 <=? k) && (k <? Z.of_nat len))%Z with true; [ reflexivity | ].
  symmetry. apply andb_true_iff. split; [ apply Z.leb_le | apply Z.ltb_lt ]; lia.
Qed.

Lemma getZ_ok (l : list Q) (k : Z) :
  (0 <= k < Z.of_nat (List.length l))%Z -> getZ l k = Ok (nth (Z.to_nat k) l 0).
Proof.
  intros H. unfold getZ. rewrite norm_index_ok by assumption. simpl.
  apply index_nth. lia.
Qed.

Lemma setZ_ok (l : list Q) (k : Z) (v : Q) :
  (0 <= k < Z.of_nat (List.length l))%Z -> setZ l k v = Ok (upd l (Z.to_nat k) v).
Proof.
  intros H. unfold setZ. rewrite norm_index_ok by assumption. reflexivity.
Qed.

(** ** The quantized distribution of the entropy search *)

Lemma accumulate_spec (n : nat) (ds bs rest : list Z) :
  Forall2 (level_ok n) ds bs ->
  forall ndc, List.length ndc = n ->
    exists ndc',
      accumulate ndc ds (bs ++ rest) = Ok ndc' /\
      List.length ndc' = n /\
      forall k, (k < n)%nat ->
        nth k ndc' 0 == nth k ndc 0 + keysum (Z.of_nat k) ds bs.
Proof.
  induction 1 as [| d b ds bs Hd HF IH]; intros ndc Hlen.
  - exists ndc. simpl. repeat split; [ assumption | ].
    intros. ring.
  - cbn [accumulate app]. destruct Hd as [[-> ->] | Hd].
    + change (-1 =? -1)%Z with true. cbn [bind].
      destruct (IH ndc Hlen) as [ndc' [Ha [Hl Hk]]].
      exists ndc'. repeat split; [ assumption | assumption | ].
      intros k Hkn. rewrite (Hk k Hkn).
      cbn [keysum]. change (inject_Z 0) with 0.
      destruct (-1 =? Z.of_nat k)%Z; ring.
    + destruct (d =? -1)%Z eqn:E; [ apply Z.eqb_eq in E; lia | ].
      rewrite getZ_ok by lia. cbn [bind]. rewrite setZ_ok by lia. cbn [bind].
      set (ndc1 := upd ndc (Z.to_nat d) (nth (Z.to_nat d) ndc 0 + inject_Z b)).
      destruct (IH ndc1) as [ndc' [Ha [Hl Hk]]].
      { unfold ndc1. rewrite upd_length. assumption. }
      exists ndc'. repeat split; [ assumption | assumption | ].
      intros k Hkn. rewrite (Hk k Hkn). unfold ndc1. cbn [keysum].
      destruct (d =? Z.of_nat k)%Z eqn:E'.
      * apply Z.eqb_eq in E'. subst d. rewrite Nat2Z.id.
        rewrite upd_nth_same by lia. ring.
      * apply Z.eqb_neq in E'.
        rewrite upd_nth_other by lia. ring.
Qed.

Lemma cget_counter_add (c : list (Z * nat)) (k k' : Z) :
  cget (counter_add c k) k' = if (k =? k')%Z then S (cget c k') else cget c k'.
Proof.
  induction c as [| [k0 n0] r IH]; cbn [counter_add cget].
  - rewrite (Z.eqb_sym k' k). destruct (k =? k')%Z; reflexivity.
  - destruct (k =? k0)%Z eqn:E0; cbn [cget].
    + apply Z.eqb_eq in E0. subst k0.
      rewrite (Z.eqb_sym k' k). destruct (k =? k')%Z; reflexivity.
    + destruct (k' =? k0)%Z eqn:E1.
      * apply Z.eqb_eq in E1. subst k0. rewrite E0. reflexivity.
      * apply IH.
Qed.

Lemma keys_counter_add (c : list (Z * nat)) (k k' : Z) :
  In k' (map fst (counter_add c k)) <-> k' = k \/ In k' (map fst c).
Proof.
  induction c as [| [k0 n0] r IH]; cbn [counter_add map fst In].
  - intuition congruence.
  - destruct (k =? k0)%Z eqn:E0; cbn [map fst In].
    + apply Z.eqb_eq in E0. subst k0. intuition congruence.
    + rewrite IH. intuition congruence.
Qed.

Lemma NoDup_counter_add (c : list (Z * nat)) (k : Z) :
  NoDup (map fst c) -> NoDup (map fst (counter_add c k)).
Proof.
  induction c as [| [k0 n0] r IH]; cbn [counter_add map fst]; intros H.
  - constructor; [ intros [] | constructor ].
  - inversion H as [| ? ? Hnin Hr]; subst.
    destruct (k =? k0)%Z eqn:E0; cbn [map fst].
    + constructor; assumption.
    + constructor; [ | apply IH; assumption ].
      rewrite keys_counter_add. apply Z.eqb_neq in E0. intuition congruence.
Qed.

Lemma Counter_spec (ds : list Z) :
  forall c,
    NoDup (map fst c) ->
    NoDup (map fst (fold_left counter_add ds c)) /\
    (forall k, In k (map fst (fold_left counter_add ds c))
               <-> In k ds \/ In k (map fst c)) /\
    (forall k, cget (fold_left counter_add ds c) k = (keycount k ds + cget c k)%nat).
Proof.
  induction ds as [| d ds IH]; intros c Hc; cbn [fold_left keycount].
  - split; [ assumption | split ].
    + intros k. cbn [In]. tauto.
    + intros k. reflexivity.
  - destruct (IH (counter_add c d) (NoDup_counter_add c d Hc)) as [Hn [Hk Hg]].
    split; [ assumption | split ].
    + intros k. rewrite Hk, keys_counter_add. cbn [In]. intuition congruence.
    + intros k. rewrite Hg, cget_counter_add.
      destruct (d =? k)%Z; lia.
Qed.

Lemma keycount_pos (k : Z) (ds : list Z) : In k ds -> (1 <= keycount k ds)%nat.
Proof.
  induction ds as [| d ds IH]; cbn [In keycount]; intros H; [ contradiction | ].
  destruct H as [-> | H].
  - rewrite Z.eqb_refl. lia.
  - specialize (IH H). lia.
Qed.

Lemma keycount_zero_keysum (k : Z) (ds bs : list Z) :
  ~ In k ds -> keysum k ds bs == 0.
Proof.
  revert bs. induction ds as [| d ds IH]; intros bs H; cbn [keysum]; [ reflexivity | ].
  destruct bs as [| b bs]; [ reflexivity | ].
  destruct (d =? k)%Z eqn:E.
  - apply Z.eqb_eq in E. exfalso. apply H. left. assumption.
  - rewrite IH; [ ring | ]. intros Hin. apply H. right. assumption.
Qed.

Lemma average_spec (n : nat) (items : list (Z * nat)) :
  NoDup (map fst items) ->
  Forall (fun kv => fst kv = (-1)%Z \/ (0 <= fst kv < Z.of_nat n)%Z) items ->
  forall ndc, List.length ndc = n ->
    exists ndc',
      average ndc items = Ok ndc' /\
      List.length ndc' = n /\
      forall k, (k < n)%nat ->
        (In (Z.of_nat k) (map fst items) ->
         nth k ndc' 0 == nth k ndc 0 / Num.of_nat (cget items (Z.of_nat k))) /\
        (~ In (Z.of_nat k) (map fst items) -> nth k ndc' 0 == nth k ndc 0).
Proof.
  induction items as [| [key val] r IH]; intros Hnd Hv ndc Hlen.
  - exists ndc. cbn [average map In].
    split; [ reflexivity | split; [ assumption | ] ].
    intros k Hk. split; [ intros [] | intros _; reflexivity ].
  - revert ndc Hlen.
    cbn [map fst] in Hnd. inversion Hnd as [| ? ? Hnin Hr]; subst.
    inversion Hv as [| ? ? Hkey Hv']; subst. cbn [fst] in Hkey.
    intros ndc Hlen. cbn [average].
    destruct (key =? -1)%Z eqn:E.
    + apply Z.eqb_eq in E. subst key. cbn [bind].
      destruct (IH Hr Hv' ndc Hlen) as [ndc' [Ha [Hl Hk]]].
      exists ndc'. split; [ assumption | split; [ assumption | ] ].
      intros k H. split.
      * cbn [map fst In cget]. intros [Hc | Hin]; [ lia | ].
        destruct (Z.of_nat k =? -1)%Z eqn:E'; [ apply Z.eqb_eq in E'; lia | ].
        apply (Hk k H); assumption.
      * cbn [map fst In]. intros Hn. apply (Hk k H). tauto.
    + apply Z.eqb_neq in E. assert (Hrange : (0 <= key < Z.of_nat n)%Z) by lia.
      rewrite getZ_ok by lia. cbn [bind]. rewrite setZ_ok by lia. cbn [bind].
      set (ndc1 := upd ndc (Z.to_nat key) (nth (Z.to_nat key) ndc 0 / Num.of_nat val)).
      destruct (IH Hr Hv' ndc1) as [ndc' [Ha [Hl Hk]]].
      { unfold ndc1. rewrite upd_length. assumption. }
      exists ndc'. split; [ assumption | split; [ assumption | ] ].
      intros k H. split.
      * cbn [map fst In cget]. intros Hin.
        destruct (Z.of_nat k =? key)%Z eqn:E'.
        -- apply Z.eqb_eq in E'. subst key.
           rewrite (proj2 (Hk k H) Hnin). unfold ndc1.
           rewrite Nat2Z.id. rewrite upd_nth_same by lia. reflexivity.
        -- apply Z.eqb_neq in E'.
           destruct Hin as [Hc | Hin]; [ congruence | ].
           rewrite (proj1 (Hk k H) Hin). unfold ndc1.
           rewrite upd_nth_other by lia. reflexivity.
      * cbn [map fst In]. intros Hn.
        rewrite (proj2 (Hk k H)) by tauto. unfold ndc1.
        rewrite upd_nth_other by lia. reflexivity.
Qed.

Lemma spread_spec (n : nat) (ndc : list Q) (ds : list Z) :
  List.length ndc = n ->
  Forall (fun d => d = (-1)%Z \/ (0 <= d < Z.of_nat n)%Z) ds ->
  spread ndc ds
  = Ok (map (fun d => if (d =? -1)%Z then 0 else nth (Z.to_nat d) ndc 0) ds).
Proof.
  intros Hlen. unfold spread. induction 1 as [| d ds Hd HF IH]; [ reflexivity | ].
  cbn [mapM map]. rewrite IH.
  destruct (d =? -1)%Z eqn:E; [ reflexivity | ].
  apply Z.eqb_neq in E. rewrite getZ_ok by lia. reflexivity.
Qed.

Lemma of_nat_nonneg (k : nat) : 0 <= Num.of_nat k.
Proof.
  unfold Num.of_nat. change 0 with (inject_Z 0). rewrite <- Zle_Qle. lia.
Qed.

Lemma of_nat_lt (a b : nat) : (a < b)%nat -> Num.of_nat a < Num.of_nat b.
Proof. intros H. unfold Num.of_nat. rewrite <- Zlt_Qlt. lia. Qed.

Lemma of_nat_plus (a b : nat) : Num.of_nat (a + b) == Num.of_nat a + Num.of_nat b.
Proof. unfold Num.of_nat. rewrite Nat2Z.inj_add, inject_Z_plus. reflexivity. Qed.

Lemma of_nat_pos_neq (k : nat) : (1 <= k)%nat -> ~ Num.of_nat k == 0.
Proof.
  intros H E. pose proof (of_nat_lt 0 k H) as L.
  rewrite E in L. exact (Qlt_irrefl _ L).
Qed.

Lemma filter_some {A : Type} (p : A -> bool) (l : list A) (x : A) :
  In x l -> p x = true -> (1 <= List.length (filter p l))%nat.
Proof.
  induction l as [| y l IH]; cbn [In filter]; intros H Hp; [ contradiction | ].
  destruct H as [-> | H].
  - rewrite Hp. simpl. lia.
  - specialize (IH H Hp). destruct (p y); simpl; lia.
Qed.

Lemma filter_not_all {A : Type} (p : A -> bool) (l : list A) (x : A) :
  In x l -> p x = false -> (List.length (filter p l) < List.length l)%nat.
Proof.
  induction l as [| y l IH]; cbn [In filter]; intros H Hp; [ contradiction | ].
  destruct H as [-> | H].
  - rewrite Hp. pose proof (filter_length_le p l). simpl. lia.
  - specialize (IH H Hp). destruct (p y); simpl; lia.
Qed.

(** Every position below the cut falls into one of the [nbins] levels. *)
Lemma digitize_range (nbins i v : nat) :
  (1 <= nbins)%nat -> (v < i)%nat ->
  (0 <= digitize (Num.of_nat v) (Num.linspace 0 (Num.of_nat i) (nbins + 1)) - 1
     < Z.of_nat nbins)%Z.
Proof.
  intros Hn Hv. unfold digitize, Num.count_if, Num.linspace.
  set (step := (Num.of_nat i - 0) / Num.of_nat (nbins + 1 - 1)).
  set (pt := fun k => 0 + Num.of_nat k * step).
  set (p := fun e => Qle_bool e (Num.of_nat v)).
  assert (Hlen : List.length (map pt (seq 0 (nbins + 1))) = (nbins + 1)%nat).
  { rewrite length_map, length_seq. reflexivity. }
  assert (Hlo : (1 <= List.length (filter p (map pt (seq 0 (nbins + 1)))))%nat).
  { apply (filter_some p _ (pt 0%nat)).
    - apply in_map, in_seq. lia.
    - unfold p, pt. apply Qle_bool_iff.
      change (Num.of_nat 0) with 0. rewrite Qmult_0_l, Qplus_0_l.
      apply of_nat_nonneg. }
  assert (Hhi : (List.length (filter p (map pt (seq 0 (nbins + 1))))
                 < List.length (map pt (seq 0 (nbins + 1))))%nat).
  { apply (filter_not_all p _ (pt nbins)).
    - apply in_map, in_seq. lia.
    - unfold p, pt. destruct (Qle_bool _ _) eqn:E; [ exfalso | reflexivity ].
      apply Qle_bool_iff in E.
      assert (Hpt : 0 + Num.of_nat nbins * step == Num.of_nat i).
      { unfold step. replace (nbins + 1 - 1)%nat with nbins by lia.
        field. apply of_nat_pos_neq. assumption. }
      rewrite Hpt in E. apply (Qlt_not_le _ _ (of_nat_lt v i Hv)). assumption. }
  rewrite Hlen in Hhi. lia.
Qed.

Lemma mask_assign_spec (n : nat) (ds0 : list Z) :
  Forall (fun d => (0 <= d < Z.of_nat n)%Z) ds0 ->
  forall bs, List.length bs = List.length ds0 ->
    exists ds, mask_assign ds0 bs = Ok ds /\ Forall2 (level_ok n) ds bs.
Proof.
  induction 1 as [| d ds0 Hd HF IH]; intros [| b bs] Hlen; simpl in Hlen; try lia.
  - exists []. split; [ reflexivity | constructor ].
  - destruct (IH bs ltac:(lia)) as [ds [Hm H2]].
    exists ((if (b =? 0)%Z then (-1)%Z else d) :: ds).
    cbn [mask_assign]. rewrite Hm. cbn [bind].
    split; [ reflexivity | constructor; [ | assumption ] ].
    destruct (b =? 0)%Z eqn:E.
    + apply Z.eqb_eq in E. left. split; [ reflexivity | assumption ].
    + right. assumption.
Qed.

Lemma level_ok_keys (n : nat) (ds bs : list Z) :
  Forall2 (level_ok n) ds bs ->
  Forall (fun d => d = (-1)%Z \/ (0 <= d < Z.of_nat n)%Z) ds.
Proof.
  induction 1 as [| d b ds bs Hd HF IH]; constructor; [ | assumption ].
  destruct Hd as [[-> _] | Hd]; [ left; reflexivity | right; assumption ].
Qed.

(** Summing a function of the level over the entries is summing it over the
    levels, weighted by how often each one occurs. *)
Lemma qsum_by_level (n : nat) (g : nat -> Q) (ds : list Z) :
  Forall (fun d => d = (-1)%Z \/ (0 <= d < Z.of_nat n)%Z) ds ->
  qsum (map (fun d => if (d =? -1)%Z then 0 else g (Z.to_nat d)) ds)
  == qsum (map (fun k => Num.of_nat (keycount (Z.of_nat k) ds) * g k) (seq 0 n)).
Proof.
  induction 1 as [| d ds Hd HF IH].
  - cbn [map qsum keycount]. change (Num.of_nat 0) with 0.
    rewrite (qsum_map_ext _ (fun _ => 0)); [ rewrite qsum_map_zero; reflexivity | ].
    intros; ring.
  - cbn [map]. rewrite qsum_cons. destruct Hd as [-> | Hd].
    + change ((-1 =? -1)%Z) with true. cbv iota.
      rewrite Qplus_0_l.
      transitivity (qsum (map (fun k => Num.of_nat (keycount (Z.of_nat k) ds) * g k)
                              (seq 0 n))); [ exact IH | ].
      apply qsum_map_ext. intros k _. cbn [keycount].
      destruct (-1 =? Z.of_nat k)%Z eqn:E; [ apply Z.eqb_eq in E; lia | ].
      reflexivity.
    + destruct (d =? -1)%Z eqn:E; [ apply Z.eqb_eq in E; lia | ].
      transitivity
        (qsum (map (fun k => (if (Z.to_nat d =? k)%nat then g k else 0)
                             + Num.of_nat (keycount (Z.of_nat k) ds) * g k)
                   (seq 0 n))).
      * rewrite qsum_map_plus. rewrite qsum_pick by lia.
        apply Qplus_comp; [ reflexivity | exact IH ].
      * apply qsum_map_ext. intros k _. cbn [keycount]. rewrite of_nat_plus.
        destruct (d =? Z.of_nat k)%Z eqn:E1.
        -- apply Z.eqb_eq in E1. subst d. rewrite Nat2Z.id, Nat.eqb_refl.
           change (Num.of_nat 1) with 1. ring.
        -- apply Z.eqb_neq in E1.
           destruct (Z.to_nat d =? k)%nat eqn:E'; [ apply Nat.eqb_eq in E'; lia | ].
           change (Num.of_nat 0) with 0. ring.
Qed.

(** The masses carried by the levels add up to the mass of the entries. *)
Lemma keysum_total (n : nat) (ds bs : list Z) :
  Forall2 (level_ok n) ds bs ->
  qsum (map (fun k => keysum (Z.of_nat k) ds bs) (seq 0 n)) == inject_Z (Num.sum bs).
Proof.
  induction 1 as [| d b ds bs Hd HF IH].
  - cbn [keysum]. apply qsum_map_zero.
  - cbn [keysum]. rewrite qsum_map_plus, sum_cons, inject_Z_plus.
    apply Qplus_comp; [ | exact IH ].
    destruct Hd as [[-> ->] | Hd].
    + rewrite (qsum_map_ext _ (fun _ => 0)); [ apply qsum_map_zero | ].
      intros k _. destruct (-1 =? Z.of_nat k)%Z; reflexivity.
    + transitivity
        (qsum (map (fun k => if (Z.to_nat d =? k)%nat then inject_Z b else 0)
                   (seq 0 n))).
      * apply qsum_map_ext. intros k _.
        destruct (d =? Z.of_nat k)%Z eqn:E1.
        -- apply Z.eqb_eq in E1. subst d. rewrite Nat2Z.id, Nat.eqb_refl. reflexivity.
        -- apply Z.eqb_neq in E1.
           destruct (Z.to_nat d =? k)%nat eqn:E'; [ apply Nat.eqb_eq in E'; lia | ].
           reflexivity.
      * apply (qsum_pick (fun _ => inject_Z b)). lia.
Qed.

Lemma Forall2_length_eq {A B : Type} (R : A -> B -> Prop) (l : list A) (l' : list B) :
  Forall2 R l l' -> List.length l = List.length l'.
Proof. induction 1; simpl; congruence. Qed.

(** The quantized distribution is built for every cut index up to the number
    of bins, and it carries the mass of the bins below the cut. *)
Lemma new_density_mass (bins : list Z) (nbins i : nat) :
  (1 <= nbins)%nat -> (i <= List.length bins)%nat ->
  exists nd,
    new_density_of bins nbins i = Ok nd /\
    List.length nd = i /\
    qsum nd == inject_Z (Num.sum (firstn i bins)).
Proof.
  intros Hn Hi. unfold new_density_of.
  set (space := Num.linspace 0 (Num.of_nat i) (nbins + 1)).
  set (ds0 := map (fun v => (digitize (Num.of_nat v) space - 1)%Z) (seq 0 i)).
  assert (H0 : Forall (fun d => (0 <= d < Z.of_nat nbins)%Z) ds0).
  { apply Forall_forall. intros d Hd. unfold ds0 in Hd.
    apply in_map_iff in Hd. destruct Hd as [v [<- Hv]]. apply in_seq in Hv.
    apply digitize_range; lia. }
  destruct (mask_assign_spec nbins ds0 H0 (firstn i bins)) as [ds [Hm H2]].
  { unfold ds0. rewrite length_firstn, length_map, length_seq. lia. }
  rewrite Hm. cbn [bind].
  assert (Hkeys := level_ok_keys _ _ _ H2).
  assert (Hdl : List.length ds = i).
  { rewrite (Forall2_length_eq _ _ _ H2), length_firstn. lia. }
  destruct (accumulate_spec nbins ds (firstn i bins) (skipn i bins) H2
              (repeat 0 nbins) (repeat_length _ _)) as [ndc1 [Ha [Hl1 Hk1]]].
  rewrite firstn_skipn in Ha. rewrite Ha. cbn [bind].
  destruct (Counter_spec ds [] (NoDup_nil _)) as [Hnd [Hin Hget]].
  fold (Counter ds) in Hnd, Hin, Hget.
  destruct (average_spec nbins (Counter ds) Hnd) with (ndc := ndc1)
    as [ndc2 [Hav [Hl2 Hk2]]].
  { apply Forall_forall. intros [k v] Hkv. cbn [fst].
    assert (Hk : In k ds).
    { destruct (proj1 (Hin k)) as [H | []]; [ | assumption ].
      apply in_map_iff. exists (k, v). split; [ reflexivity | assumption ]. }
    exact (proj1 (Forall_forall _ _) Hkeys k Hk). }
  { assumption. }
  rewrite Hav. cbn [bind].
  rewrite (spread_spec nbins ndc2 ds Hl2 Hkeys).
  eexists. split; [ reflexivity | split ].
  - rewrite length_map. assumption.
  - rewrite (qsum_by_level nbins (fun k => nth k ndc2 0) ds Hkeys).
    rewrite <- (keysum_total nbins ds (firstn i bins) H2).
    apply qsum_map_ext. intros k Hk. apply in_seq in Hk.
    assert (Hk' : (k < nbins)%nat) by lia.
    assert (E1 : nth k ndc1 0 == keysum (Z.of_nat k) ds (firstn i bins)).
    { rewrite (Hk1 k Hk'). rewrite nth_repeat. ring. }
    destruct (in_dec Z.eq_dec (Z.of_nat k) ds) as [Hd | Hd].
    + rewrite (proj1 (Hk2 k Hk')) by (apply Hin; left; assumption).
      rewrite Hget. cbn [cget]. rewrite Nat.add_0_r, E1.
      field. apply of_nat_pos_neq, keycount_pos. assumption.
    + rewrite (proj2 (Hk2 k Hk')).
      * rewrite E1, (keycount_zero_keysum _ _ _ Hd). ring.
      * intros Hc. apply Hin in Hc. destruct Hc as [Hc | []]. contradiction.
Qed.




Section EntropyBody.
Context {D : Type} (entropy : list Q -> list Q -> D).


(** At the cut index 0 the reference distribution is empty and its last
    entry cannot be written. *)
Lemma entropy_body_zero (bins : list Z) (nbins : nat) :
  (1 <= nbins)%nat ->
  entropy_body entropy bins (Num.sum bins) nbins 0 = Raise IndexError.
Proof.
  intros Hn.
  destruct (new_density_mass bins nbins 0 Hn (Nat.le_0_l _)) as [nd [Hnd _]].
  unfold entropy_body. rewrite Hnd. reflexivity.
Qed.
End EntropyBody.


(** ** Candidate cut indices *)

Lemma range_count (m s k : nat) :
  (1 <= s)%nat -> ((k < (m + s - 1) / s) <-> (k * s < m))%nat.
Proof.
  intros Hs.
  pose proof (Nat.div_mod_eq (m + s - 1) s) as E.
  pose proof (Nat.mod_upper_bound (m + s - 1) s ltac:(lia)) as U.
  set (q := ((m + s - 1) / s)%nat) in *.
  set (r := ((m + s - 1) mod s)%nat) in *.
  split; intros H; nia.
Qed.

Lemma py_range_spec (start stop stride : nat) :
  (1 <= stride)%nat ->
  exists l,
    py_range start stop stride = Ok l /\
    (forall k, (k < List.length l)%nat -> nth k l 0%nat = (start + k * stride)%nat) /\
    (forall j, In j l <-> candidate start stop stride j).
Proof.
  intros Hs. unfold py_range.
  destruct (stride =? 0)%nat eqn:E; [ apply Nat.eqb_eq in E; lia | ].
  eexists. split; [ reflexivity | split ].
  - intros k Hk. rewrite length_map, length_seq in Hk.
    rewrite (nth_indep _ 0%nat (start + 0 * stride)%nat)
      by (rewrite length_map, length_seq; assumption).
    rewrite (map_nth (fun k => (start + k * stride)%nat)).
    rewrite seq_nth by assumption. reflexivity.
  - intros j. rewrite in_map_iff. unfold candidate. split.
    + intros [k [<- Hk]]. apply in_seq in Hk.
      split; [ exists k; reflexivity | ].
      assert (k * stride < stop - start)%nat by (apply range_count; lia). lia.
    + intros [[k ->] Hlt]. exists k. split; [ reflexivity | ].
      apply in_seq. split; [ lia | ].
      apply range_count; [ assumption | lia ].
Qed.

(** ** The first and the last minimum *)

Section ArgminFacts.
Context {D : Type} (dltb : D -> D -> bool).
Hypothesis dltb_irrefl : forall x, dltb x x = false.
Hypothesis dltb_trans :
  forall x y z, dltb x y = true -> dltb y z = true -> dltb x z = true.
Hypothesis dltb_negtrans :
  forall x y z, dltb x y = false -> dltb y z = false -> dltb x z = false.

Lemma argmin_from_spec (d : D) (r : list D) :
  forall pre best besti,
    (besti < List.length pre)%nat ->
    nth besti pre d = best ->
    (forall j, (j < List.length pre)%nat -> dltb (nth j pre d) best = false) ->
    (forall j, (j < besti)%nat -> dltb best (nth j pre d) = true) ->
    let a := argmin_from dltb best besti (List.length pre) r in
    let l := pre ++ r in
    (a < List.length l)%nat /\
    (forall j, (j < List.length l)%nat -> dltb (nth j l d) (nth a l d) = false) /\
    (forall j, (j < a)%nat -> dltb (nth a l d) (nth j l d) = true).
Proof.
  induction r as [| x r IH]; intros pre best besti Hb Hn Hall Hbefore; cbv zeta.
  - cbn [argmin_from]. rewrite app_nil_r, Hn.
    split; [ assumption | split; assumption ].
  - cbn [argmin_from].
    replace (pre ++ x :: r) with ((pre ++ [x]) ++ r)
      by (rewrite <- app_assoc; reflexivity).
    replace (S (List.length pre)) with (List.length (pre ++ [x]))
      by (rewrite length_app; simpl; lia).
    destruct (dltb x best) eqn:E.
    + apply IH.
      * rewrite length_app. simpl. lia.
      * rewrite app_nth2 by lia. rewrite Nat.sub_diag. reflexivity.
      * intros j Hj. rewrite length_app in Hj. simpl in Hj.
        destruct (Nat.eq_dec j (List.length pre)) as [-> | Hne].
        -- rewrite app_nth2 by lia. rewrite Nat.sub_diag. apply dltb_irrefl.
        -- rewrite app_nth1 by lia.
           destruct (dltb (nth j pre d) x) eqn:E'; [ | reflexivity ].
           rewrite <- (Hall j ltac:(lia)). symmetry.
           apply (dltb_trans _ x _); assumption.
      * intros j Hj. rewrite app_nth1 by lia.
        destruct (dltb x (nth j pre d)) eqn:E'; [ reflexivity | ].
        rewrite <- E. symmetry.
        apply (dltb_negtrans _ (nth j pre d) _); [ assumption | apply Hall; lia ].
    + apply IH.
      * rewrite length_app. simpl. lia.
      * rewrite app_nth1 by lia. assumption.
      * intros j Hj. rewrite length_app in Hj. simpl in Hj.
        destruct (Nat.eq_dec j (List.length pre)) as [-> | Hne].
        -- rewrite app_nth2 by lia. rewrite Nat.sub_diag. assumption.
        -- rewrite app_nth1 by lia. apply Hall. lia.
      * intros j Hj. rewrite app_nth1 by lia. apply Hbefore. assumption.
Qed.

(** [argmin] returns a position of a minimum, before which every score is
    strictly larger. *)
Lemma argmin_spec (d : D) (l : list D) :
  l <> [] ->
  exists a,
    argmin dltb l = Ok a /\
    (a < List.length l)%nat /\
    (forall j, (j < List.length l)%nat -> dltb (nth j l d) (nth a l d) = false) /\
    (forall j, (j < a)%nat -> dltb (nth a l d) (nth j l d) = true).
Proof.
  destruct l as [| x r]; [ congruence | intros _ ].
  eexists. split; [ reflexivity | ].
  apply (argmin_from_spec d r [x] x 0%nat).
  - simpl. lia.
  - reflexivity.
  - intros j Hj. simpl in Hj. assert (j = 0%nat) as -> by lia. apply dltb_irrefl.
  - intros j Hj. lia.
Qed.

End ArgminFacts.


Lemma pow2_nbins (s : Z) : (0 <= s)%Z -> (1 <= Z.to_nat (2 ^ s))%nat.
Proof.
  intros H. pose proof (Z.pow_pos_nonneg 2 s ltac:(lia) H). lia.
Qed.

(** ** The entropy search *)


Lemma Qltb_irrefl (x : Q) : Num.Qltb x x = false.
Proof. apply Qltb_ge, Qle_refl. Qed.

Lemma Qltb_trans (x y z : Q) :
  Num.Qltb x y = true -> Num.Qltb y z = true -> Num.Qltb x z = true.
Proof.
  rewrite !Qltb_lt. intros H1 H2. eapply Qlt_trans; eassumption.
Qed.

Lemma Qltb_negtrans (x y z : Q) :
  Num.Qltb x y = false -> Num.Qltb y z = false -> Num.Qltb x z = false.
Proof.
  rewrite !Qltb_ge. intros H1 H2. eapply Qle_trans; eassumption.
Qed.


(** With a constant divergence every cut index ties, and the last one, the
    upper edge of the histogram, is returned. *)
Example entropy_all_tied_takes_last_edge :
  snd (_compute_amax_entropy (fun _ _ => 0) Num.Qltb
         (Some [5; 3; 2; 0; 7]%Z) (Some [0; 1; 2; 3; 4; 5]) (Int 2) false 1 1)
  = Ok (Some 5).
Proof. reflexivity. Qed.




(** ** The MSE search *)

Lemma centers_of_length (edges : list Q) :
  List.length (centers_of edges) = (List.length edges - 1)%nat.
Proof.
  induction edges as [| x [| y r] IH]; try reflexivity.
  change (centers_of (x :: y :: r)) with (((y + x) / 2) :: centers_of (y :: r)).
  cbn [List.length] in *. rewrite IH. lia.
Qed.

Lemma centers_of_nth (edges : list Q) (i : nat) :
  (S i < List.length edges)%nat ->
  nth i (centers_of edges) 0 = (nth (S i) edges 0 + nth i edges 0) / 2.
Proof.
  revert i. induction edges as [| x [| y r] IH]; intros i Hi; cbn [List.length] in Hi;
    try lia.
  change (centers_of (x :: y :: r)) with (((y + x) / 2) :: centers_of (y :: r)).
  destruct i as [| i]; [ reflexivity | ].
  change (nth i (centers_of (y :: r)) 0 = (nth (S i) (y :: r) 0 + nth i (y :: r) 0) / 2).
  apply IH. cbn [List.length]. lia.
Qed.

Lemma weighted_sq_err_length (q c w : list Q) :
  List.length q = List.length c -> List.length w = List.length c ->
  List.length (weighted_sq_err q c w) = List.length c.
Proof.
  revert q w. induction c as [| y c IH]; intros [| x q] [| z w] Hq Hw;
    simpl in *; try lia; try reflexivity.
  f_equal. apply IH; lia.
Qed.

Lemma zip_sq_err (q c w : list Q) :
  List.length q = List.length c -> List.length w = List.length c ->
  (d <- zip_with Qminus q c ;; zip_with Qmult (map (fun v => v * v) d) w)
  = Ok (weighted_sq_err q c w).
Proof.
  revert q w. induction c as [| y c IH]; intros [| x q] [| z w] Hq Hw;
    simpl in *; try lia; try reflexivity.
  specialize (IH q w ltac:(lia) ltac:(lia)).
  destruct (zip_with Qminus q c) as [d |]; cbn [bind] in *; [ | discriminate ].
  cbn [map zip_with]. rewrite IH. reflexivity.
Qed.

Section MseFacts.
Context (fake_tensor_quant : list Q -> Q -> Z -> bool -> list Q)
        (scaled_e4m3 : list Q -> Q -> Z -> Z -> list Q).
(** Fake quantization is elementwise: it keeps the shape of its input. *)
Hypothesis fake_tensor_quant_shape :
  forall c a n u, List.length (fake_tensor_quant c a n u) = List.length c.
Hypothesis scaled_e4m3_shape :
  forall c a e m, List.length (scaled_e4m3 c a e m) = List.length c.

Lemma mse_body_score (hist : list Z) (edges : list Q) (num_bits : NumBits)
    (unsigned : bool) (i : nat) :
  valid_num_bits num_bits ->
  List.length edges = S (List.length hist) ->
  (i < List.length hist)%nat ->
  mse_body fake_tensor_quant scaled_e4m3 (centers_of edges) (map inject_Z hist)
    num_bits unsigned i
  = Ok (mse_score fake_tensor_quant scaled_e4m3 hist edges num_bits unsigned i).
Proof.
  intros Hv Hlen Hi.
  assert (Hc : List.length (centers_of edges) = List.length hist)
    by (rewrite centers_of_length; lia).
  unfold mse_body, mse_score.
  rewrite (index_nth (centers_of edges) i 0) by lia. cbn [bind].
  set (amax := nth i (centers_of edges) 0).
  assert (Hgen : forall quant,
            List.length quant = List.length (centers_of edges) ->
            (d <- zip_with Qminus quant (centers_of edges) ;;
             w <- zip_with Qmult (map (fun v => v * v) d) (map inject_Z hist) ;;
             Ok (mean w))
            = Ok (qsum (weighted_sq_err quant (centers_of edges) (map inject_Z hist))
                  / Num.of_nat (List.length (centers_of edges)))).
  { intros quant Hq.
    pose proof (zip_sq_err quant (centers_of edges) (map inject_Z hist) Hq
                  ltac:(rewrite length_map; lia)) as Hz.
    destruct (zip_with Qminus quant (centers_of edges)) as [d |];
      cbn [bind] in *; [ | discriminate ].
    rewrite Hz. cbn [bind]. unfold mean.
    rewrite weighted_sq_err_length; [ reflexivity | assumption | ].
    rewrite length_map. lia. }
  destruct num_bits as [n | e m]; cbn [valid_num_bits] in Hv.
  - replace (0 <=? n)%Z with true by (symmetry; apply Z.leb_le; assumption).
    cbn [bind]. apply Hgen. apply fake_tensor_quant_shape.
  - destruct Hv as [-> ->]. cbn [Z.eqb Pos.eqb andb bind].
    apply Hgen. apply scaled_e4m3_shape.
Qed.
End MseFacts.

Lemma mapM_total {A B : Type} (f : A -> result B) (g : A -> B) (l : list A) :
  (forall a, In a l -> f a = Ok (g a)) -> mapM f l = Ok (map g l).
Proof.
  induction l as [| a r IH]; intros H; [ reflexivity | ].
  cbn [mapM map]. rewrite (H a (or_introl eq_refl)). cbn [bind].
  rewrite IH; [ reflexivity | ]. intros; apply H; right; assumption.
Qed.

(** C8: the MSE search scores the cut indices [start_bin],
    [start_bin + stride], ... below the number of bin centers by the
    counts-weighted mean squared error between the centers and their
    fake-quantized images at the threshold [centers[i]]; it returns the center
    [(edges[i] + edges[i+1]) / 2] of a scored index with minimal error, before
    which every scored index has a strictly larger error. *)
Theorem mse_selects_first_minimum :
  forall (fake_tensor_quant : list Q -> Q -> Z -> bool -> list Q)
         (scaled_e4m3 : list Q -> Q -> Z -> Z -> list Q),
    (forall c a n u, List.length (fake_tensor_quant c a n u) = List.length c) ->
    (forall c a e m, List.length (scaled_e4m3 c a e m) = List.length c) ->
    forall (hist : list Z) (edges : list Q) (num_bits : NumBits) (unsigned : bool)
           (stride start_bin : nat),
      let score := mse_score fake_tensor_quant scaled_e4m3 hist edges num_bits unsigned in
      valid_num_bits num_bits ->
      List.length edges = S (List.length hist) ->
      (1 <= stride)%nat ->
      (start_bin < List.length hist)%nat ->
      exists i,
        candidate start_bin (List.length hist) stride i /\
        _compute_amax_mse fake_tensor_quant scaled_e4m3 (Some hist) (Some edges)
          num_bits unsigned stride start_bin
        = Ok (Some ((nth (S i) edges 0 + nth i edges 0) / 2)) /\
        forall j, candidate start_bin (List.length hist) stride j ->
          score i <= score j /\ ((j < i)%nat -> score i < score j).
Proof.
  intros ftq e4m3 Hftq He4m3 hist edges num_bits unsigned stride start_bin score
         Hv Hlen Hstride Hstart.
  assert (Hc : List.length (centers_of edges) = List.length hist)
    by (rewrite centers_of_length; lia).
  destruct (py_range_spec start_bin (List.length hist) stride Hstride)
    as [args [Hrange [Hnth Hin]]].
  assert (Hm : mapM (mse_body ftq e4m3 (centers_of edges) (map inject_Z hist)
                       num_bits unsigned) args = Ok (map score args)).
  { apply mapM_total. intros j Hj. apply Hin in Hj. destruct Hj as [_ Hj].
    apply mse_body_score; assumption. }
  assert (Hstart_in : In start_bin args).
  { apply Hin. split; [ exists 0%nat; lia | assumption ]. }
  assert (Hne : map score args <> []).
  { destruct args; [ contradiction | discriminate ]. }
  destruct (argmin_spec Num.Qltb Qltb_irrefl Qltb_trans Qltb_negtrans 0
              (map score args) Hne) as [a [Ha [Hlt [Hmin Hfirst]]]].
  rewrite length_map in Hlt, Hmin.
  assert (Hscore : forall k, (k < List.length args)%nat ->
            nth k (map score args) 0 = score (start_bin + k * stride)%nat).
  { intros k Hk. rewrite (nth_indep _ 0 (score 0%nat)) by (rewrite length_map; assumption).
    rewrite (map_nth score). rewrite (Hnth k Hk). reflexivity. }
  assert (Hci : candidate start_bin (List.length hist) stride (start_bin + a * stride)).
  { apply Hin. rewrite <- (Hnth a Hlt). apply nth_In. assumption. }
  exists (start_bin + a * stride)%nat.
  split; [ assumption | split ].
  - unfold _compute_amax_mse. rewrite Hc, Hrange. cbn [bind].
    rewrite Hm. cbn [bind]. rewrite Ha. cbn [bind].
    rewrite (index_nth args a 0%nat Hlt). cbn [bind]. rewrite (Hnth a Hlt).
    destruct Hci as [_ Hci].
    rewrite (index_nth (centers_of edges) _ 0) by lia. cbn [bind].
    rewrite centers_of_nth by lia. reflexivity.
  - intros j Hj. apply Hin in Hj.
    destruct (In_nth args j 0%nat Hj) as [k [Hk Hkj]].
    rewrite (Hnth k Hk) in Hkj. subst j.
    rewrite <- (Hscore k Hk), <- (Hscore a Hlt). split.
    + apply Qltb_ge. apply Hmin. assumption.
    + intros Hji. apply Qltb_lt. apply Hfirst. nia.
Qed.

Lemma mse_selects_first_minimum_witness :
  exists i,
    candidate 1 4 1 i /\
    _compute_amax_mse (fun c a _ _ => map (Num.qmin a) c) (fun c _ _ _ => c)
      (Some [1; 1; 2; 1]%Z) (Some [0; 1; 2; 3; 4]) (Int 8) false 1 1
    = Ok (Some ((nth (S i) [0; 1; 2; 3; 4] 0 + nth i [0; 1; 2; 3; 4] 0) / 2)) /\
    forall j, candidate 1 4 1 j ->
      mse_score (fun c a _ _ => map (Num.qmin a) c) (fun c _ _ _ => c)
        [1; 1; 2; 1]%Z [0; 1; 2; 3; 4] (Int 8) false i
      <= mse_score (fun c a _ _ => map (Num.qmin a) c) (fun c _ _ _ => c)
           [1; 1; 2; 1]%Z [0; 1; 2; 3; 4] (Int 8) false j /\
      ((j < i)%nat ->
       mse_score (fun c a _ _ => map (Num.qmin a) c) (fun c _ _ _ => c)
         [1; 1; 2; 1]%Z [0; 1; 2; 3; 4] (Int 8) false i
       < mse_score (fun c a _ _ => map (Num.qmin a) c) (fun c _ _ _ => c)
           [1; 1; 2; 1]%Z [0; 1; 2; 3; 4] (Int 8) false j).
Proof.
  apply (mse_selects_first_minimum
           (fun c a _ _ => map (Num.qmin a) c) (fun c _ _ _ => c)
           (fun c a n u => length_map (Num.qmin a) c) (fun c a e m => eq_refl)
           [1; 1; 2; 1]%Z [0; 1; 2; 3; 4] (Int 8) false 1%nat 1%nat).
  - simpl. lia.
  - reflexivity.
  - lia.
  - simpl. lia.
Defined.

(** A clipping quantizer on the histogram of the witness: the first of the
    candidates with the least error is the last center. *)
Example mse_search_clipping :
  _compute_amax_mse (fun c a _ _ => map (Num.qmin a) c) (fun c _ _ _ => c)
    (Some [1; 1; 2; 1]%Z) (Some [0; 1; 2; 3; 4]) (Int 8) false 1 1
  = Ok (Some ((4 + 3) / 2)).
Proof. reflexivity. Qed.

(** ** Counting into equal bins *)

Lemma zsum_map_plus {A : Type} (F G : A -> Z) (l : list A) :
  Num.sum (map (fun k => (F k + G k)%Z) l)
  = (Num.sum (map F l) + Num.sum (map G l))%Z.
Proof. induction l as [| k l IH]; simpl; [ reflexivity | rewrite IH; lia ]. Qed.

Lemma zsum_pick (d s n : nat) :
  (s <= d < s + n)%nat ->
  Num.sum (map (fun k => if (d =? k)%nat then 1%Z else 0%Z) (seq s n)) = 1%Z.
Proof.
  revert s. induction n as [| n IH]; intros s H; [ lia | ].
  cbn [seq map]. rewrite sum_cons. destruct (d =? s)%nat eqn:E.
  - apply Nat.eqb_eq in E. subst s.
    assert (Hz : forall m t, (d < t)%nat ->
              Num.sum (map (fun k => if (d =? k)%nat then 1%Z else 0%Z) (seq t m)) = 0%Z).
    { induction m as [| m IHm]; intros t Ht; [ reflexivity | ].
      cbn [seq map]. rewrite sum_cons, IHm by lia.
      destruct (d =? t)%nat eqn:E'; [ apply Nat.eqb_eq in E'; lia | reflexivity ]. }
    rewrite Hz by lia. reflexivity.
  - apply Nat.eqb_neq in E. rewrite IH by lia. reflexivity.
Qed.

Lemma count_if_cons {A : Type} (p : A -> bool) (x : A) (l : list A) :
  Num.count_if p (x :: l) = ((if p x then 1 else 0) + Num.count_if p l)%Z.
Proof.
  unfold Num.count_if. cbn [filter]. destruct (p x); cbn [List.length]; lia.
Qed.

(** When every element has a bin below [n], the counts add up to the number
    of elements. *)
Lemma bin_counts_total {A : Type} (f : A -> nat) (n : nat) (l : list A) :
  (forall x, In x l -> (f x < n)%nat) ->
  Num.sum (map (fun k => Num.count_if (fun x => (f x =? k)%nat) l) (seq 0 n))
  = Z.of_nat (List.length l).
Proof.
  induction l as [| x l IH]; intros H.
  - cbn [List.length]. induction (seq 0 n) as [| k r IHr]; [ reflexivity | ].
    cbn [map]. rewrite sum_cons, IHr. reflexivity.
  - rewrite (map_ext (fun k => Num.count_if (fun y => (f y =? k)%nat) (x :: l))
                     (fun k => ((if (f x =? k)%nat then 1 else 0)
                                + Num.count_if (fun y => (f y =? k)%nat) l)%Z))
      by (intros k; apply (count_if_cons (fun y => (f y =? k)%nat))).
    rewrite zsum_map_plus, zsum_pick, IH.
    + cbn [List.length]. lia.
    + intros y Hy. apply H. right. assumption.
    + specialize (H x (or_introl eq_refl)). lia.
Qed.

Lemma in_range_iff (lo hi x : Q) :
  Num.in_range lo hi x = true <-> lo <= x <= hi.
Proof.
  unfold Num.in_range. rewrite andb_true_iff, !Qle_bool_iff. reflexivity.
Qed.

Lemma bin_index_lt (lo hi : Q) (n : nat) (x : Q) :
  (1 <= n)%nat -> lo < hi -> lo <= x <= hi ->
  (Num.bin_index lo hi n x < n)%nat.
Proof.
  intros Hn Hlh [Hl Hh]. unfold Num.bin_index.
  set (q := (x - lo) * Num.of_nat n / (hi - lo)).
  assert (Hq : q <= Num.of_nat n).
  { unfold q. apply Qle_shift_div_r.
    - rewrite <- (Qplus_opp_r lo). apply Qplus_lt_l. assumption.
    - rewrite (Qmult_comm (Num.of_nat n)).
      apply Qmult_le_compat_r; [ | apply of_nat_nonneg ].
      apply Qplus_le_l. assumption. }
  apply Qfloor_resp_le in Hq. unfold Num.of_nat in Hq. rewrite Qfloor_Z in Hq.
  destruct (Z.to_nat (Qfloor q) =? n)%nat eqn:E; [ lia | ].
  apply Nat.eqb_neq in E. lia.
Qed.

Lemma uniform_counts_length (lo hi : Q) (n : nat) (a : list Q) :
  List.length (Num.uniform_counts lo hi n a) = n.
Proof. unfold Num.uniform_counts. rewrite length_map, length_seq. reflexivity. Qed.

Lemma uniform_counts_total (lo hi : Q) (n : nat) (a : list Q) :
  (1 <= n)%nat -> lo < hi ->
  Num.sum (Num.uniform_counts lo hi n a)
  = Z.of_nat (List.length (filter (Num.in_range lo hi) a)).
Proof.
  intros Hn Hlh. unfold Num.uniform_counts. apply bin_counts_total.
  intros x Hx. apply filter_In in Hx. destruct Hx as [_ Hx].
  apply in_range_iff in Hx. apply bin_index_lt; assumption.
Qed.

Lemma filter_all {A : Type} (p : A -> bool) (l : list A) :
  (forall x, In x l -> p x = true) -> filter p l = l.
Proof.
  induction l as [| x l IH]; intros H; [ reflexivity | ].
  cbn [filter]. rewrite (H x (or_introl eq_refl)), IH; [ reflexivity | ].
  intros; apply H; right; assumption.
Qed.

Lemma qmin_le_l (x y : Q) : Num.qmin x y <= x.
Proof.
  unfold Num.qmin. destruct (Qle_bool x y) eqn:E.
  - apply Qle_refl.
  - apply Qle_bool_iff, Qle_bool_total; assumption.
Qed.

Lemma qmin_le_r (x y : Q) : Num.qmin x y <= y.
Proof.
  unfold Num.qmin. destruct (Qle_bool x y) eqn:E.
  - apply Qle_bool_iff; assumption.
  - apply Qle_refl.
Qed.

Lemma fold_qmin_le_init (r : list Q) (x : Q) : fold_left Num.qmin r x <= x.
Proof.
  revert x. induction r as [| y r IH]; intros x; simpl.
  - apply Qle_refl.
  - eapply Qle_trans; [ apply IH | apply qmin_le_l ].
Qed.

Lemma fold_qmin_le (r : list Q) (x y : Q) :
  In y (x :: r) -> fold_left Num.qmin r x <= y.
Proof.
  revert x. induction r as [| z r IH]; intros x H; simpl.
  - destruct H as [-> | []]. apply Qle_refl.
  - destruct H as [-> | [-> | H]].
    + eapply Qle_trans; [ apply fold_qmin_le_init | apply qmin_le_l ].
    + eapply Qle_trans; [ apply fold_qmin_le_init | apply qmin_le_r ].
    + apply IH. right; assumption.
Qed.

Lemma amin_le (e : exn) (a : list Q) (m y : Q) :
  Num.amin e a = Ok m -> In y a -> m <= y.
Proof.
  destruct a as [| x r]; simpl; intros H Hy; [ discriminate | ].
  inversion H; subst. apply fold_qmin_le; assumption.
Qed.

(** [histc] over a range that covers the batch counts every element. *)
Lemma histc_total (x : list Q) (bins : Z) (M : Q) (h : list Z) :
  (forall y, In y x -> 0 <= y <= M) ->
  Num.histc x bins 0 M = Ok h ->
  List.length h = Z.to_nat bins /\ (1 <= bins)%Z /\
  Num.sum h = Z.of_nat (List.length x).
Proof.
  intros Hx. unfold Num.histc.
  destruct (bins <? 1)%Z eqn:Eb; [ discriminate | ]. apply Z.ltb_ge in Eb.
  assert (Hgen : forall lo hi,
            (forall y, In y x -> lo <= y <= hi) ->
            (if negb (Num.Qltb lo hi) then Raise RuntimeError
             else Ok (Num.uniform_counts lo hi (Z.to_nat bins) x)) = Ok h ->
            List.length h = Z.to_nat bins /\ (1 <= bins)%Z /\
            Num.sum h = Z.of_nat (List.length x)).
  { intros lo hi Hr H. destruct (Num.Qltb lo hi) eqn:El; [ | discriminate ].
    cbn [negb] in H. inversion H; subst h. apply Qltb_lt in El.
    split; [ apply uniform_counts_length | split; [ assumption | ] ].
    rewrite uniform_counts_total by (assumption || lia).
    rewrite filter_all; [ reflexivity | ].
    intros y Hy. apply in_range_iff. apply Hr. assumption. }
  destruct x as [| x0 xr] eqn:Ex.
  - cbn [bind]. destruct (Qeq_bool 0 M); apply Hgen; intros y [].
  - rewrite <- Ex in *.
    destruct (Qeq_bool 0 M) eqn:E0.
    + destruct (Num.amin RuntimeError x) as [lo |] eqn:Elo; cbn [bind]; [ | discriminate ].
      destruct (Num.amax RuntimeError x) as [hi |] eqn:Ehi; cbn [bind]; [ | discriminate ].
      destruct (Qeq_bool lo hi); apply Hgen; intros y Hy;
        pose proof (amin_le _ _ _ _ Elo Hy); pose proof (amax_ge _ _ _ _ Ehi Hy).
      * split.
        -- apply Qle_trans with lo; [ | assumption ].
           rewrite <- (Qplus_0_r lo) at 2. apply Qplus_le_r. discriminate.
        -- apply Qle_trans with hi; [ assumption | ].
           rewrite <- (Qplus_0_r hi) at 1. apply Qplus_le_r. discriminate.
      * split; assumption.
    + cbn [bind]. rewrite E0. apply Hgen. assumption.
Qed.

(** ** Edges and prefix addition *)

Lemma monotone_affine (a step : Q) (s n : nat) :
  0 <= step ->
  Num.monotone (map (fun k => a + Num.of_nat k * step) (seq s n)) = true.
Proof.
  intros Hstep. revert s. induction n as [| n IH]; intros s; [ reflexivity | ].
  destruct n as [| n]; [ reflexivity | ].
  specialize (IH (S s)).
  change (Qle_bool (a + Num.of_nat s * step) (a + Num.of_nat (S s) * step)
          && Num.monotone (map (fun k => a + Num.of_nat k * step) (seq (S s) (S n)))
          = true).
  rewrite IH, andb_true_r. apply Qle_bool_iff.
  apply Qplus_le_r. apply Qmult_le_compat_r; [ | assumption ].
  apply Qlt_le_weak, of_nat_lt. lia.
Qed.

Lemma linspace_monotone (start stop : Q) (num : nat) :
  start <= stop -> Num.monotone (Num.linspace start stop num) = true.
Proof.
  intros H. unfold Num.linspace. apply monotone_affine.
  assert (Hd : 0 <= stop - start).
  { rewrite <- (Qplus_opp_r start). apply Qplus_le_l. assumption. }
  destruct (Qeq_dec (Num.of_nat (num - 1)) 0) as [E | E].
  - unfold Qdiv. rewrite E. unfold Qinv. simpl. rewrite Qmult_0_r. apply Qle_refl.
  - apply Qle_shift_div_l.
    + destruct (Qlt_le_dec 0 (Num.of_nat (num - 1))) as [L | L]; [ assumption | ].
      exfalso. apply E. apply Qle_antisym; [ assumption | apply of_nat_nonneg ].
    + rewrite Qmult_0_l. assumption.
Qed.

Lemma linspace_length (start stop : Q) (num : nat) :
  List.length (Num.linspace start stop num) = num.
Proof. unfold Num.linspace. rewrite length_map, length_seq. reflexivity. Qed.

Lemma Qceiling_unique (q : Q) (z : Z) :
  inject_Z (z - 1) < q -> q <= inject_Z z -> Qceiling q = z.
Proof.
  intros Hlo Hhi.
  pose proof (Qceiling_resp_le _ _ Hhi) as H1. rewrite Qceiling_Z in H1.
  pose proof (Qle_ceiling q) as H2.
  pose proof (Qlt_le_trans _ _ _ Hlo H2) as H3.
  rewrite <- Zlt_Qlt in H3. lia.
Qed.

Lemma Qceiling_plus_1 (q : Q) : Qceiling (q + 1) = (Qceiling q + 1)%Z.
Proof.
  apply Qceiling_unique.
  - replace (Qceiling q + 1 - 1)%Z with (Qceiling q - 1 + 1)%Z by lia.
    rewrite inject_Z_plus. apply Qplus_lt_l. apply Qceiling_lt.
  - rewrite inject_Z_plus. apply Qplus_le_l. apply Qle_ceiling.
Qed.

Lemma add_into_length (hist old : list Z) :
  List.length (Num.add_into hist old) = List.length hist.
Proof.
  revert old. induction hist as [| h hs IH]; intros [| o os]; simpl; auto.
Qed.

Lemma add_into_sum (hist old : list Z) :
  (List.length old <= List.length hist)%nat ->
  Num.sum (Num.add_into hist old) = (Num.sum hist + Num.sum old)%Z.
Proof.
  revert old. induction hist as [| h hs IH]; intros [| o os] H; simpl in *; try lia.
  rewrite IH by lia. lia.
Qed.

Lemma add_prefix_spec (e : exn) (hist old r : list Z) :
  Num.add_prefix e hist old = Ok r ->
  List.length r = List.length hist /\ Num.sum r = (Num.sum hist + Num.sum old)%Z.
Proof.
  unfold Num.add_prefix. destruct (List.length old <=? List.length hist)%nat eqn:E;
    intros H; inversion H; subst.
  apply Nat.leb_le in E. split; [ apply add_into_length | apply add_into_sum; assumption ].
Qed.

Lemma index_last_nth {A : Type} (l : list A) (d v : A) :
  Num.index_last l = Ok v ->
  (1 <= List.length l)%nat /\ v = nth (List.length l - 1) l d.
Proof.
  unfold Num.index_last. destruct l as [| x r] eqn:E; [ discriminate | ].
  rewrite <- E. intros H.
  assert (Hl : (1 <= List.length l)%nat) by (rewrite E; simpl; lia).
  rewrite (index_nth l _ d) in H by lia. inversion H. split; [ assumption | reflexivity ].
Qed.

Lemma index_in {A : Type} (l : list A) (i : nat) (v : A) :
  Num.index l i = Ok v -> nth_error l i = Some v.
Proof.
  unfold Num.index. destruct (nth_error l i); intros H; inversion H; reflexivity.
Qed.

Lemma monotone_first_two (e : list Q) (e0 e1 : Q) :
  Num.monotone e = true -> Num.index e 0 = Ok e0 -> Num.index e 1 = Ok e1 -> e0 <= e1.
Proof.
  intros Hm H0 H1. apply index_in in H0, H1.
  destruct e as [| a [| b r]]; try discriminate.
  simpl in H0, H1. inversion H0; inversion H1; subst.
  simpl in Hm. apply andb_true_iff in Hm. apply Qle_bool_iff. tauto.
Qed.

Lemma nonzero_abs (y : Q) : nonzero (Qabs y) = nonzero y.
Proof.
  unfold nonzero. f_equal.
  destruct (Qeq_bool y 0) eqn:E.
  - apply Qeq_bool_iff in E. apply Qeq_bool_iff. rewrite E. reflexivity.
  - destruct (Qeq_bool (Qabs y) 0) eqn:E'; [ | reflexivity ].
    apply Qeq_bool_iff in E'. exfalso.
    assert (Hy : y == 0).
    { apply Qle_antisym.
      - eapply Qle_trans; [ apply Qle_Qabs | rewrite E'; apply Qle_refl ].
      - pose proof (Qle_Qabs (- y)) as H. rewrite Qabs_opp, E' in H.
        apply Qopp_le_compat in H. rewrite Qopp_involutive in H. exact H. }
    apply Qeq_bool_iff in Hy. congruence.
Qed.

Lemma filter_map_length {A B : Type} (g : A -> B) (p : B -> bool) (l : list A) :
  List.length (filter p (map g l)) = List.length (filter (fun a => p (g a)) l).
Proof.
  induction l as [| a l IH]; [ reflexivity | ].
  cbn [map filter]. destruct (p (g a)); cbn [List.length]; rewrite IH; reflexivity.
Qed.

(** The batch as the branches of [collect] see it: non-negative, and with as
    many values, zero or not, as the batch handed in. *)
Lemma preprocess_spec (m : Q) (x : list Q) :
  Num.amin RuntimeError x = Ok m ->
  let x' := if Num.Qltb m 0 then map Qabs x else x in
  (forall y, In y x' -> 0 <= y) /\
  (forall skip, ingested skip x' = ingested skip x).
Proof.
  intros Hm. cbv zeta. destruct (Num.Qltb m 0) eqn:E.
  - split.
    + intros y Hy. apply in_map_iff in Hy. destruct Hy as [z [<- _]]. apply Qabs_nonneg.
    + intros [|]; unfold ingested.
      * rewrite filter_map_length. f_equal. f_equal.
        apply filter_ext. intros a. apply nonzero_abs.
      * rewrite length_map. reflexivity.
  - apply Qltb_ge in E. split; [ | reflexivity ].
    intros y Hy. eapply Qle_trans; [ exact E | ]. eapply amin_le; eassumption.
Qed.

Lemma amax_nonneg (e : exn) (a : list Q) (m : Q) :
  Num.amax e a = Ok m -> (forall y, In y a -> 0 <= y) -> 0 <= m.
Proof.
  intros Hm Ha. destruct a as [| x r]; [ discriminate | ].
  apply Qle_trans with x.
  - apply Ha. left. reflexivity.
  - eapply amax_ge; [ eassumption | left; reflexivity ].
Qed.

Lemma index_map_seq {A : Type} (f : nat -> A) (n k : nat) :
  (k < n)%nat -> Num.index (map f (seq 0 n)) k = Ok (f k).
Proof.
  intros H. rewrite (index_nth _ k (f 0%nat)) by (rewrite length_map, length_seq; lia).
  rewrite (map_nth f), seq_nth by lia. reflexivity.
Qed.

Lemma filter_nonneg (p : Q -> bool) (x : list Q) :
  (forall y, In y x -> 0 <= y) -> forall y, In y (filter p x) -> 0 <= y.
Proof. intros H y Hy. apply filter_In in Hy. apply H. tauto. Qed.

(** ** The torch branch of the collector *)

Ltac innermost m :=
  match m with
  | bind ?m' _ => innermost m'
  | _ => m
  end.

Tactic Notation "bind_ok" hyp(H) ident(v) ident(E) :=
  match type of H with
  | bind ?m _ = Ok _ =>
      let m' := innermost m in
      destruct m' as [v |] eqn:E; cbn [bind] in H; [ | discriminate H ]
  end.

Lemma collect_torch_first (c : HistogramCalibrator) (xs : list Q) (x_max : Q)
    (c' : HistogramCalibrator) :
  (forall y, In y xs -> 0 <= y) ->
  Num.amax RuntimeError xs = Ok x_max ->
  (hist <- Num.histc xs (_num_bins c) 0 x_max ;;
   if (_num_bins c + 1 <? 0)%Z then Raise RuntimeError
   else Ok (set_hist c (_num_bins c) hist
              (Num.linspace 0 x_max (Z.to_nat (_num_bins c + 1))))) = Ok c' ->
  hist_inv c' /\ first_edge_zero c' /\ num_bins_inv c' /\
  hist_total c' = Z.of_nat (List.length xs).
Proof.
  intros Hx Hmax H.
  bind_ok H hist Eh.
  destruct (histc_total xs (_num_bins c) x_max hist) as [Hl [Hnb Hs]]; [ | assumption | ].
  { intros y Hy. split; [ apply Hx; assumption | eapply amax_ge; eassumption ]. }
  destruct (_num_bins c + 1 <? 0)%Z; [ discriminate | ].
  inversion H; subst c'. clear H.
  unfold hist_inv, first_edge_zero, num_bins_inv, hist_total, set_hist.
  cbn [_calib_bin_edges _calib_hist _num_bins].
  split; [ split | split; [ | split ] ].
  - rewrite linspace_length, Hl. lia.
  - apply linspace_monotone. eapply amax_nonneg; eassumption.
  - replace (Z.to_nat (_num_bins c + 1)) with (S (Z.to_nat (_num_bins c))) by lia.
    unfold Num.linspace. cbn [seq map]. change (Num.of_nat 0) with 0. ring.
  - rewrite Hl. lia.
  - assumption.
Qed.

Lemma collect_torch_next (c : HistogramCalibrator) (xs : list Q) (x_max : Q)
    (edges : list Q) (old : list Z) (c' : HistogramCalibrator) :
  (forall y, In y xs -> 0 <= y) ->
  Num.amax RuntimeError xs = Ok x_max ->
  List.length edges = S (List.length old) ->
  Num.monotone edges = true ->
  (match edges with first :: _ => first == 0 | [] => False end) ->
  Z.of_nat (List.length old) = _num_bins c ->
  (last <- Num.index_last edges ;;
   '(num_bins, edges) <-
     (if Num.Qltb last x_max then
        e1 <- Num.index edges 1 ;;
        e0 <- Num.index edges 0 ;;
        let width := e1 - e0 in
        if Qeq_bool width 0 then
          Raise (if Qeq_bool x_max 0 then ValueError else OverflowError)
        else
          let num_bins := Qceiling (x_max / width) in
          edges <- Num.arange 0 (x_max + width) width ;;
          Ok (num_bins, edges)
      else Ok (_num_bins c, edges)) ;;
   last <- Num.index_last edges ;;
   hist <- Num.histc xs num_bins 0 last ;;
   hist <- Num.add_prefix RuntimeError hist old ;;
   Ok (set_hist c num_bins hist edges)) = Ok c' ->
  hist_inv c' /\ first_edge_zero c' /\ num_bins_inv c' /\
  hist_total c' = (Num.sum old + Z.of_nat (List.length xs))%Z.
Proof.
  intros Hx Hmax Hlen Hmono Hfirst Hnb H.
  bind_ok H last El.
  destruct (Num.Qltb last x_max) eqn:Eext.
  - (* the range is extended *)
    cbv iota in H. bind_ok H e1 E1. bind_ok H e0 E0.
    pose proof (monotone_first_two edges e0 e1 Hmono E0 E1) as H01.
    cbv zeta in H.
    destruct (Qeq_bool (e1 - e0) 0) eqn:Ew; [ discriminate | ].
    set (width := e1 - e0) in *.
    assert (Hw : 0 < width).
    { destruct (Qlt_le_dec 0 width) as [L | L]; [ assumption | exfalso ].
      assert (E : width == 0).
      { apply Qle_antisym; [ assumption | ].
        unfold width. rewrite <- (Qplus_opp_r e0). apply Qplus_le_l. assumption. }
      apply Qeq_bool_iff in E. congruence. }
    assert (Hwn : ~ width == 0).
    { intros E. rewrite E in Hw. exact (Qlt_irrefl _ Hw). }
    unfold Num.arange in H. rewrite Ew in H. cbn [bind] in H.
    set (nb := Qceiling (x_max / width)) in *.
    assert (Hceil : Qceiling ((x_max + width - 0) / width) = (nb + 1)%Z).
    { unfold nb. rewrite <- Qceiling_plus_1. apply Qceiling_comp. field. assumption. }
    rewrite Hceil in H.
    set (pt := fun k => 0 + Num.of_nat k * width) in *.
    bind_ok H last' El'. bind_ok H hist Eh. bind_ok H r Er.
    inversion H; subst c'. clear H.
    assert (H1nb : (1 <= nb)%Z).
    { unfold Num.histc in Eh. destruct (nb <? 1)%Z eqn:E; [ discriminate | ].
      apply Z.ltb_ge in E. assumption. }
    assert (Hlast' : last' = pt (Z.to_nat nb)).
    { unfold Num.index_last in El'.
      replace (Z.to_nat (nb + 1)) with (S (Z.to_nat nb)) in El' by lia.
      destruct (map pt (seq 0 (S (Z.to_nat nb)))) eqn:Emap; [ discriminate | ].
      rewrite <- Emap in El'. rewrite length_map, length_seq in El'.
      rewrite index_map_seq in El' by lia.
      replace (S (Z.to_nat nb) - 1)%nat with (Z.to_nat nb) in El' by lia.
      inversion El'. reflexivity. }
    assert (Hcover : x_max <= last').
    { rewrite Hlast'. unfold pt, Num.of_nat. rewrite Z2Nat.id by lia.
      rewrite Qplus_0_l.
      apply Qle_trans with (x_max / width * width).
      - apply Qle_lteq. right. field. assumption.
      - apply Qmult_le_compat_r; [ apply Qle_ceiling | apply Qlt_le_weak; assumption ]. }
    destruct (histc_total xs nb last' hist) as [Hl [_ Hs]]; [ | assumption | ].
    { intros y Hy. split; [ apply Hx; assumption | ].
      eapply Qle_trans; [ eapply amax_ge; eassumption | assumption ]. }
    destruct (add_prefix_spec _ _ _ _ Er) as [Hrl Hrs].
    unfold hist_inv, first_edge_zero, num_bins_inv, hist_total, set_hist.
    cbn [_calib_bin_edges _calib_hist _num_bins].
    split; [ split | split; [ | split ] ].
    + rewrite length_map, length_seq, Hrl, Hl. lia.
    + apply monotone_affine. apply Qlt_le_weak. assumption.
    + replace (Z.to_nat (nb + 1)) with (S (Z.to_nat nb)) by lia.
      cbn [seq map]. unfold pt. change (Num.of_nat 0) with 0. ring.
    + rewrite Hrl, Hl. lia.
    + rewrite Hrs, Hs. lia.
  - (* the batch fits the stored range *)
    cbn [bind] in H. rewrite El in H. cbn [bind] in H.
    bind_ok H hist Eh. bind_ok H r Er.
    inversion H; subst c'. clear H.
    apply Qltb_ge in Eext.
    destruct (histc_total xs (_num_bins c) last hist) as [Hl [_ Hs]]; [ | assumption | ].
    { intros y Hy. split; [ apply Hx; assumption | ].
      eapply Qle_trans; [ eapply amax_ge; eassumption | assumption ]. }
    destruct (add_prefix_spec _ _ _ _ Er) as [Hrl Hrs].
    unfold hist_inv, first_edge_zero, num_bins_inv, hist_total, set_hist.
    cbn [_calib_bin_edges _calib_hist _num_bins].
    split; [ split | split; [ | split ] ].
    + rewrite Hrl, Hl, <- Hnb, Nat2Z.id. assumption.
    + assumption.
    + destruct edges; assumption.
    + rewrite Hrl, Hl. lia.
    + rewrite Hrs, Hs. lia.
Qed.

(** In the torch mode a successful [collect] keeps the shape of the histogram,
    keeps its first edge at 0 and adds to the counts exactly the values of the
    batch (the zeros apart when they are skipped). *)
Lemma collect_torch_mode (c : HistogramCalibrator) (x : list Q)
    (c' : HistogramCalibrator) :
  _torch_hist c = true -> torch_ok c -> collect c x = Ok c' ->
  torch_ok c' /\
  hist_total c' = (hist_total c + ingested (_skip_zeros c) x)%Z /\
  _torch_hist c' = true /\ _skip_zeros c' = _skip_zeros c.
Proof.
  intros Ht [Hinv [Hfirst Hnb]] H. unfold collect in H.
  bind_ok H m Em. rewrite Ht in H. cbn [negb] in H.
  destruct (preprocess_spec m x Em) as [Hpos Hing].
  set (x' := if Num.Qltb m 0 then map Qabs x else x) in *.
  unfold collect_torch in H.
  set (xs := if _skip_zeros c then filter nonzero x' else x') in *.
  assert (Hxs : forall y, In y xs -> 0 <= y).
  { unfold xs. destruct (_skip_zeros c); [ apply filter_nonneg | ]; assumption. }
  assert (Hcount : Z.of_nat (List.length xs) = ingested (_skip_zeros c) x).
  { rewrite <- Hing. reflexivity. }
  bind_ok H x_max Emax.
  assert (Hcfg : forall nb h e, _torch_hist (set_hist c nb h e) = true /\
                                _skip_zeros (set_hist c nb h e) = _skip_zeros c).
  { intros. split; [ exact Ht | reflexivity ]. }
  unfold hist_inv, first_edge_zero, num_bins_inv, hist_total in *.
  destruct (_calib_bin_edges c) as [edges |] eqn:Ee;
    destruct (_calib_hist c) as [old |] eqn:Eo; try contradiction.
  - destruct Hinv as [Hlen Hmono].
    pose proof (collect_torch_next c xs x_max edges old c' Hxs Emax Hlen Hmono) as Hn.
    destruct Hn as [A [B [C T]]]; [ destruct edges; assumption | assumption | exact H | ].
    assert (Hc' : _torch_hist c' = true /\ _skip_zeros c' = _skip_zeros c).
    { clear - H Hcfg.
      repeat match type of H with
             | bind ?m _ = Ok _ =>
                 let m' := innermost m in
                 destruct m' as [? |]; cbn [bind] in H; [ | discriminate H ]
             | (let '(_, _) := ?p in _) = Ok _ => destruct p
             end.
      inversion H. apply Hcfg. }
    split; [ split; [ | split ]; assumption | ].
    split; [ | exact Hc' ].
    unfold hist_total in T. rewrite T, Hcount. reflexivity.
  - pose proof (collect_torch_first c xs x_max c' Hxs Emax H) as [A [B [C T]]].
    assert (Hc' : _torch_hist c' = true /\ _skip_zeros c' = _skip_zeros c).
    { clear - H Hcfg. bind_ok H hist Eh.
      destruct (_num_bins c + 1 <? 0)%Z; [ discriminate | ].
      inversion H. apply Hcfg. }
    split; [ split; [ | split ]; assumption | ].
    split; [ | exact Hc' ].
    unfold hist_total in T. rewrite T, Hcount. reflexivity.
Qed.

(** Conservation over any sequence of batches in the torch mode, however
    often the range was extended. *)
Lemma collect_all_torch_conserves (batches : list (list Q)) :
  forall c c',
    _torch_hist c = true -> torch_ok c -> collect_all c batches = Ok c' ->
    torch_ok c' /\
    hist_total c' = (hist_total c + ingested_all (_skip_zeros c) batches)%Z.
Proof.
  induction batches as [| x rest IH]; intros c c' Ht Hok H.
  - inversion H; subst. split; [ assumption | ].
    unfold ingested_all. cbn [fold_right]. lia.
  - cbn [collect_all] in H. bind_ok H c1 E1.
    destruct (collect_torch_mode c x c1 Ht Hok E1) as [Hok1 [Htot [Ht1 Hsk]]].
    destruct (IH c1 c' Ht1 Hok1 H) as [Hok' Htot'].
    split; [ assumption | ].
    rewrite Htot', Htot, Hsk.
    change (ingested_all (_skip_zeros c) (x :: rest))
      with (ingested (_skip_zeros c) x + ingested_all (_skip_zeros c) rest)%Z.
    lia.
Qed.

Lemma fresh_torch_ok (nb : NumBits) (u : bool) (n : Z) (sz : bool) :
  torch_ok (mkCalibrator nb u n sz true None None).
Proof. repeat split. Qed.

(** From a new torch-mode collector: the counts sum to the number of values
    ingested, the edges start at 0 and are non-decreasing, and there is one
    count per bin. *)
Lemma torch_collector_sound (nb : NumBits) (u : bool) (n : Z) (sz : bool)
    (batches : list (list Q)) (c : HistogramCalibrator) :
  collect_all (mkCalibrator nb u n sz true None None) batches = Ok c ->
  hist_total c = ingested_all sz batches /\
  hist_inv c /\ first_edge_zero c.
Proof.
  intros H.
  destruct (collect_all_torch_conserves batches
              (mkCalibrator nb u n sz true None None) c eq_refl
              (fresh_torch_ok nb u n sz) H) as [[Hi [Hf _]] Ht].
  cbn [_skip_zeros] in Ht. unfold hist_total at 2 in Ht. cbn [_calib_hist] in Ht.
  split; [ lia | split; assumption ].
Qed.

(** ** The numpy branch of the collector *)

Lemma diff_length (c : list Z) : List.length (Num.diff c) = (List.length c - 1)%nat.
Proof.
  induction c as [| x [| y r] IH]; try reflexivity.
  change (Num.diff (x :: y :: r)) with ((y - x)%Z :: Num.diff (y :: r)).
  cbn [List.length] in *. rewrite IH. lia.
Qed.

Lemma outer_edges_ordered (a : list Q) (first last : Q) :
  Num.outer_edges a None = Ok (first, last) -> first <= last.
Proof.
  unfold Num.outer_edges.
  assert (Hgen : forall lo hi,
            lo <= hi ->
            (if Qeq_bool lo hi then Ok (lo - (1 # 2), hi + (1 # 2)) else Ok (lo, hi))
            = Ok (first, last) -> first <= last).
  { intros lo hi Hle H. destruct (Qeq_bool lo hi); inversion H; subst.
    - apply Qle_trans with lo.
      + rewrite <- (Qplus_0_r lo) at 2. apply Qplus_le_r. discriminate.
      + apply Qle_trans with hi; [ assumption | ].
        rewrite <- (Qplus_0_r hi) at 1. apply Qplus_le_r. discriminate.
    - assumption. }
  destruct a as [| x r] eqn:Ea.
  - cbn [bind]. apply Hgen. discriminate.
  - rewrite <- Ea.
    destruct (Num.amin ValueError a) as [lo |] eqn:Elo; cbn [bind]; [ | discriminate ].
    destruct (Num.amax ValueError a) as [hi |] eqn:Ehi; cbn [bind]; [ | discriminate ].
    apply Hgen. apply Qle_trans with x.
    + eapply amin_le; [ eassumption | rewrite Ea; left; reflexivity ].
    + eapply amax_ge; [ eassumption | rewrite Ea; left; reflexivity ].
Qed.

Lemma histogram_bins_shape (a : list Q) (bins : Z) (h : list Z) (e : list Q) :
  Num.histogram_bins a bins None = Ok (h, e) ->
  List.length e = S (List.length h) /\ Num.monotone e = true.
Proof.
  unfold Num.histogram_bins. destruct (bins <? 1)%Z; [ discriminate | ].
  destruct (Num.outer_edges a None) as [[first last] |] eqn:Eo; cbn [bind];
    [ | discriminate ].
  intros H. inversion H; subst.
  rewrite linspace_length, uniform_counts_length.
  split; [ reflexivity | ].
  apply linspace_monotone. eapply outer_edges_ordered. eassumption.
Qed.

Lemma histogram_edges_shape (a edges : list Q) (h : list Z) (e : list Q) :
  Num.histogram_edges a edges = Ok (h, e) ->
  e = edges /\ List.length e = S (List.length h) /\ Num.monotone e = true.
Proof.
  unfold Num.histogram_edges. destruct (Num.monotone edges) eqn:Em; [ | discriminate ].
  cbn [negb]. destruct (Num.index_last edges) as [last |] eqn:El; cbn [bind];
    [ | discriminate ].
  intros H. inversion H; subst.
  destruct (index_last_nth e 0 last El) as [Hl _].
  split; [ reflexivity | split; [ | assumption ] ].
  rewrite diff_length, length_app, length_map, removelast_firstn_len, length_firstn.
  cbn [List.length]. lia.
Qed.

(** In the numpy mode a successful [collect] leaves one count per bin and
    non-decreasing edges, and does not touch [_num_bins]. *)
Lemma collect_numpy_mode (c : HistogramCalibrator) (x : list Q)
    (c' : HistogramCalibrator) :
  _torch_hist c = false -> collect c x = Ok c' ->
  hist_inv c' /\
  exists h e, c' = set_hist c (_num_bins c) h e.
Proof.
  intros Ht H. unfold collect in H.
  bind_ok H m Em. rewrite Ht in H. cbn [negb] in H.
  unfold collect_numpy in H.
  set (x_np := if _skip_zeros c
               then filter nonzero (if Num.Qltb m 0 then map Qabs x else x)
               else (if Num.Qltb m 0 then map Qabs x else x)) in *.
  destruct (_calib_bin_edges c) as [edges |];
    destruct (_calib_hist c) as [old |]; try discriminate.
  - bind_ok H temp_amax Ea. bind_ok H last El.
    destruct (Num.Qltb last temp_amax).
    + cbv iota in H. bind_ok H e1 E1. bind_ok H e0 E0. bind_ok H nbe En.
      destruct (Num.histogram_edges x_np (edges ++ nbe)) as [[h e] |] eqn:Eh;
        cbn [bind] in H; [ | discriminate ].
      bind_ok H r Er. inversion H; subst c'.
      destruct (histogram_edges_shape _ _ _ _ Eh) as [_ [Hl Hm]].
      destruct (add_prefix_spec _ _ _ _ Er) as [Hrl _].
      split; [ | eexists; eexists; reflexivity ].
      unfold hist_inv, set_hist. cbn [_calib_bin_edges _calib_hist].
      rewrite Hrl. split; assumption.
    + cbn [bind] in H.
      destruct (Num.histogram_edges x_np edges) as [[h e] |] eqn:Eh;
        cbn [bind] in H; [ | discriminate ].
      bind_ok H r Er. inversion H; subst c'.
      destruct (histogram_edges_shape _ _ _ _ Eh) as [_ [Hl Hm]].
      destruct (add_prefix_spec _ _ _ _ Er) as [Hrl _].
      split; [ | eexists; eexists; reflexivity ].
      unfold hist_inv, set_hist. cbn [_calib_bin_edges _calib_hist].
      rewrite Hrl. split; assumption.
  - destruct (Num.histogram_bins x_np (_num_bins c) None) as [[h e] |] eqn:Eh;
      cbn [bind] in H; [ | discriminate ].
    inversion H; subst c'.
    split; [ | eexists; eexists; reflexivity ].
    unfold hist_inv, set_hist. cbn [_calib_bin_edges _calib_hist].
    eapply histogram_bins_shape. eassumption.
Qed.

Lemma reset_set_hist (c : HistogramCalibrator) (h : list Z) (e : list Q) :
  reset (set_hist c (_num_bins c) h e) = reset c.
Proof. reflexivity. Qed.

(** In the numpy mode whatever was collected is forgotten by [reset]: the
    collector is again the one it was built as. *)
Lemma reset_numpy_is_fresh (nb : NumBits) (u : bool) (n : Z) (sz : bool)
    (batches : list (list Q)) :
  forall c,
    collect_all (mkCalibrator nb u n sz false None None) batches = Ok c ->
    reset c = mkCalibrator nb u n sz false None None.
Proof.
  assert (Hgen : forall c0 c, _torch_hist c0 = false ->
            collect_all c0 batches = Ok c -> reset c = reset c0).
  { induction batches as [| x rest IH]; intros c0 c Ht H.
    - inversion H. reflexivity.
    - cbn [collect_all] in H. bind_ok H c1 E1.
      destruct (collect_numpy_mode c0 x c1 Ht E1) as [_ [h [e Hc1]]].
      rewrite (IH c1 c) by (assumption || (subst c1; exact Ht)).
      subst c1. apply reset_set_hist. }
  intros c H.
  rewrite (Hgen (mkCalibrator nb u n sz false None None) c eq_refl H). reflexivity.
Qed.

(** ** The collector against its description *)

Lemma init_fresh (num_bins : Z) (skip_zeros torch_hist : bool) :
  init (Int 8) None false num_bins skip_zeros torch_hist
  = Ok (fresh num_bins skip_zeros torch_hist).
Proof. reflexivity. Qed.

(** C1: in the numpy mode a value below the lowest edge of the first batch is
    dropped: after the batches [1, 2] and [0.5] the counts sum to 2, not 3. *)
Theorem collect_numpy_loses_low_values :
  exists c,
    collect_all (fresh 2 false false) [[1; 2]; [1 # 2]] = Ok c /\
    _calib_hist c = Some [1; 1]%Z /\
    hist_total c = 2%Z /\
    ingested_all false [[1; 2]; [1 # 2]] = 3%Z.
Proof. eexists. repeat (split; [ reflexivity | ]). reflexivity. Qed.

(** The same two batches in the torch mode: nothing is lost. *)
Example collect_torch_keeps_low_values :
  exists c,
    collect_all (fresh 2 false true) [[1; 2]; [1 # 2]] = Ok c /\
    _calib_hist c = Some [1; 2]%Z.
Proof. eexists. split; reflexivity. Qed.

(** The batch [-1, 0.5, 2, 2, 3] on four bins in the torch mode: range
    [[0, 3]], bins of width 0.75, half-open except the last. *)
Example collect_torch_four_bins :
  exists c,
    collect (fresh 4 false true) [-1; 1 # 2; 2; 2; 3] = Ok c /\
    _calib_hist c = Some [1; 1; 2; 1]%Z.
Proof. eexists. split; reflexivity. Qed.

(** C3: in the numpy mode the first edge is the minimum of the first batch:
    after the batch [1, 2] the edges are [1, 1.5, 2]. *)
Theorem collect_numpy_first_edge_not_zero :
  exists c first rest,
    collect (fresh 2 false false) [1; 2] = Ok c /\
    _calib_bin_edges c = Some (first :: rest) /\
    first == 1 /\ ~ first == 0.
Proof.
  eexists. eexists. eexists.
  split; [ reflexivity | split; [ reflexivity | split ] ].
  - reflexivity.
  - discriminate.
Qed.

(** C4: [reset] keeps the bin count that an extension has written: in the
    torch mode, after the batches [1] and [2] on two bins and a reset, the
    batch [1] lands in four bins, where a new collector has two. *)
Theorem reset_keeps_grown_num_bins :
  exists c c1 c2,
    collect_all (fresh 2 false true) [[1]; [2]] = Ok c /\
    collect_all (reset c) [[1]] = Ok c1 /\
    collect_all (fresh 2 false true) [[1]] = Ok c2 /\
    _calib_hist c1 = Some [0; 0; 0; 1]%Z /\
    _calib_hist c2 = Some [0; 1]%Z /\
    _calib_hist c1 <> _calib_hist c2.
Proof.
  eexists. eexists. eexists.
  repeat (split; [ reflexivity | ]).
  discriminate.
Qed.

(** * Further properties of the code *)

(** ** The torch branch: first edge and bin count *)

Lemma has_nonzero_amin (x : list Q) :
  has_nonzero x -> exists m, Num.amin RuntimeError x = Ok m.
Proof. intros H. destruct H; eexists; reflexivity. Qed.

Lemma nonneg_nonzero_pos (y : Q) : 0 <= y -> ~ y == 0 -> 0 < y.
Proof.
  intros H0 Hn. destruct (Qlt_le_dec 0 y) as [L | L]; [ assumption | ].
  exfalso. apply Hn. apply Qle_antisym; assumption.
Qed.

Lemma nonzero_true (y : Q) : ~ y == 0 -> nonzero y = true.
Proof.
  intros H. unfold nonzero. destruct (Qeq_bool y 0) eqn:E; [ | reflexivity ].
  apply Qeq_bool_iff in E. contradiction.
Qed.

Lemma nonzero_false (y : Q) : y == 0 -> nonzero y = false.
Proof.
  intros H. unfold nonzero. apply Qeq_bool_iff in H. rewrite H. reflexivity.
Qed.

(** After the absolute value and the removal of zeros a batch with a value
    other than zero still holds a positive value. *)
Lemma preprocess_positive (m : Q) (x : list Q) (skip : bool) :
  Num.amin RuntimeError x = Ok m -> has_nonzero x ->
  let x' := if Num.Qltb m 0 then map Qabs x else x in
  let xs := if skip then filter nonzero x' else x' in
  exists y, In y xs /\ 0 < y.
Proof.
  intros Hm Hnz. cbv zeta.
  destruct (preprocess_spec m x Hm) as [Hpos _].
  apply Exists_exists in Hnz. destruct Hnz as [y [Hy Hy0]].
  set (x' := if Num.Qltb m 0 then map Qabs x else x) in *.
  assert (Hx' : exists y', In y' x' /\ ~ y' == 0).
  { unfold x'. destruct (Num.Qltb m 0).
    - exists (Qabs y). split; [ apply in_map; assumption | ].
      intros E. pose proof (nonzero_abs y) as Hn.
      rewrite (nonzero_false _ E), (nonzero_true _ Hy0) in Hn. discriminate.
    - exists y. split; assumption. }
  destruct Hx' as [y' [Hy' Hy'0]].
  exists y'. split.
  - destruct skip; [ | assumption ].
    apply filter_In. split; [ assumption | apply nonzero_true; assumption ].
  - apply nonneg_nonzero_pos; [ apply Hpos | ]; assumption.
Qed.

Lemma amax_pos (e : exn) (a : list Q) (y : Q) :
  In y a -> 0 < y -> exists m, Num.amax e a = Ok m /\ 0 < m.
Proof.
  intros Hy Hpos. destruct (amax_nonempty e a) as [m Hm].
  { intros E. rewrite E in Hy. contradiction. }
  exists m. split; [ assumption | ].
  eapply Qlt_le_trans; [ exact Hpos | eapply amax_ge; eassumption ].
Qed.

Lemma index_last_map_seq {A : Type} (f : nat -> A) (n : nat) :
  Num.index_last (map f (seq 0 (S n))) = Ok (f n).
Proof.
  unfold Num.index_last.
  destruct (map f (seq 0 (S n))) eqn:E; [ discriminate | ].
  rewrite <- E. rewrite length_map, length_seq.
  replace (S n - 1)%nat with n by lia. apply index_map_seq. lia.
Qed.

Lemma index_last_ok {A : Type} (l : list A) (d : A) :
  (1 <= List.length l)%nat -> Num.index_last l = Ok (nth (List.length l - 1) l d).
Proof.
  intros H. unfold Num.index_last. destruct l as [| a r] eqn:E; [ simpl in H; lia | ].
  rewrite <- E. apply index_nth. rewrite E. simpl. lia.
Qed.

(** X2: in the torch mode, whatever batches a new collector has collected,
    the first edge it holds is 0 and [_num_bins] is the number of counts it
    holds: the edges are laid out from 0 at every call, and the counts are
    made with [_num_bins] bins at every call. *)
Theorem torch_collect_first_edge_zero :
  forall (nb : NumBits) (u : bool) (n : Z) (sz : bool)
         (batches : list (list Q)) (c : HistogramCalibrator),
    collect_all (mkCalibrator nb u n sz true None None) batches = Ok c ->
    first_edge_zero c /\ num_bins_inv c.
Proof.
  intros nb u n sz batches c H.
  destruct (collect_all_torch_conserves batches
              (mkCalibrator nb u n sz true None None) c eq_refl
              (fresh_torch_ok nb u n sz) H) as [[_ [Hf Hn]] _].
  split; assumption.
Qed.

Lemma torch_collect_first_edge_zero_witness :
  let c0 := mkCalibrator (Int 8) false 2 false true None None in
  let c := match collect_all c0 [[1; 0]; [-3; 2]] with
           | Ok c => c
           | Raise _ => c0
           end in
  first_edge_zero c /\ num_bins_inv c.
Proof.
  intros c0 c.
  apply (torch_collect_first_edge_zero (Int 8) false 2 false [[1; 0]; [-3; 2]]).
  reflexivity.
Defined.

(** ** Counts only grow *)

Lemma count_if_nonneg {A : Type} (p : A -> bool) (a : list A) :
  (0 <= Num.count_if p a)%Z.
Proof. unfold Num.count_if. lia. Qed.

Lemma count_if_le {A : Type} (p q : A -> bool) (a : list A) :
  (forall x, p x = true -> q x = true) ->
  (Num.count_if p a <= Num.count_if q a)%Z.
Proof.
  intros H. induction a as [| x a IH]; [ reflexivity | ].
  rewrite !count_if_cons. specialize (H x).
  destruct (p x), (q x); try lia; specialize (H eq_refl); discriminate.
Qed.

Lemma uniform_counts_nonneg (lo hi : Q) (n : nat) (a : list Q) :
  Forall (fun v => (0 <= v)%Z) (Num.uniform_counts lo hi n a).
Proof.
  unfold Num.uniform_counts. apply Forall_forall. intros v Hv.
  apply in_map_iff in Hv. destruct Hv as [k [<- _]]. apply count_if_nonneg.
Qed.

Lemma histc_nonneg (xs : list Q) (bins : Z) (mn mx : Q) (h : list Z) :
  Num.histc xs bins mn mx = Ok h -> Forall (fun v => (0 <= v)%Z) h.
Proof.
  unfold Num.histc. destruct (bins <? 1)%Z; [ discriminate | ]. intros H.
  bind_ok H r Er. destruct r as [lo hi].
  destruct (Qeq_bool lo hi); destruct (negb (Num.Qltb _ _)); try discriminate;
    inversion H; apply uniform_counts_nonneg.
Qed.

Lemma histogram_bins_nonneg (a : list Q) (bins : Z) (range : option (Q * Q))
    (h : list Z) (e : list Q) :
  Num.histogram_bins a bins range = Ok (h, e) -> Forall (fun v => (0 <= v)%Z) h.
Proof.
  unfold Num.histogram_bins. destruct (bins <? 1)%Z; [ discriminate | ]. intros H.
  bind_ok H r Er. destruct r as [first last].
  inversion H. apply uniform_counts_nonneg.
Qed.

Lemma diff_nonneg (c : list Z) : zsorted c -> Forall (fun v => (0 <= v)%Z) (Num.diff c).
Proof.
  induction c as [| x [| y r] IH]; intros H; try constructor.
  - destruct H. lia.
  - apply IH. destruct H. assumption.
Qed.

Lemma cum_counts_sorted (a : list Q) (edges : list Q) (last : Q) :
  Num.monotone edges = true -> Num.index_last edges = Ok last ->
  zsorted (map (fun e => Num.count_if (fun x => Num.Qltb x e) a) (removelast edges)
           ++ [Num.count_if (fun x => Qle_bool x last) a]).
Proof.
  induction edges as [| e1 [| e2 r] IH]; intros Hm Hl.
  - discriminate.
  - exact I.
  - assert (Hl' : Num.index_last (e2 :: r) = Ok last).
    { destruct (index_last_nth _ 0 _ Hl) as [_ E].
      rewrite (index_last_ok (e2 :: r) 0) by (simpl; lia).
      rewrite E. simpl. rewrite Nat.sub_0_r. reflexivity. }
    cbn [Num.monotone] in Hm. apply andb_true_iff in Hm. destruct Hm as [H12 Hm].
    apply Qle_bool_iff in H12. specialize (IH Hm Hl').
    change (removelast (e1 :: e2 :: r)) with (e1 :: removelast (e2 :: r)).
    cbn [map app].
    destruct r as [| e3 r].
    + cbn [removelast map app zsorted]. split; [ | exact I ].
      apply count_if_le. intros x Hx. apply Qltb_lt in Hx. apply Qle_bool_iff.
      destruct (index_last_nth _ 0 _ Hl') as [_ E]. simpl in E. subst last.
      apply Qlt_le_weak. eapply Qlt_le_trans; eassumption.
    + change (removelast (e2 :: e3 :: r)) with (e2 :: removelast (e3 :: r)) in *.
      cbn [map app] in *. cbn [zsorted]. split; [ | exact IH ].
      apply count_if_le. intros x Hx. apply Qltb_lt in Hx. apply Qltb_lt.
      eapply Qlt_le_trans; eassumption.
Qed.

Lemma histogram_edges_nonneg (a edges : list Q) (h : list Z) (e : list Q) :
  Num.histogram_edges a edges = Ok (h, e) -> Forall (fun v => (0 <= v)%Z) h.
Proof.
  unfold Num.histogram_edges. destruct (Num.monotone edges) eqn:Em; [ | discriminate ].
  cbn [negb]. intros H. bind_ok H last El. inversion H; subst.
  apply diff_nonneg. apply cum_counts_sorted; assumption.
Qed.

Lemma add_into_nonneg (hist old : list Z) :
  Forall (fun v => (0 <= v)%Z) hist -> Forall (fun v => (0 <= v)%Z) old ->
  Forall (fun v => (0 <= v)%Z) (Num.add_into hist old).
Proof.
  intros Hh. revert old. induction Hh as [| x hs Hx Hhs IH]; intros old Ho.
  - destruct old; constructor.
  - destruct old as [| o os]; cbn [Num.add_into].
    + constructor; assumption.
    + inversion Ho; subst. constructor; [ lia | apply IH; assumption ].
Qed.

Lemma add_into_ge (hist old : list Z) :
  Forall (fun v => (0 <= v)%Z) hist ->
  forall k, (k < List.length old)%nat -> (k < List.length hist)%nat ->
            (nth k old 0 <= nth k (Num.add_into hist old) 0)%Z.
Proof.
  intros Hh. revert old. induction Hh as [| x hs Hx Hhs IH]; intros old k Hk Hk'.
  - simpl in Hk'. lia.
  - destruct old as [| o os]; [ simpl in Hk; lia | ].
    cbn [Num.add_into]. destruct k as [| k]; cbn [nth]; [ lia | ].
    apply IH; simpl in *; lia.
Qed.

(** Whatever the mode, a later [collect] adds the histogram of the batch,
    made of counts that are not negative, onto the stored counts. *)
Lemma collect_adds (c : HistogramCalibrator) (x : list Q)
    (c' : HistogramCalibrator) (old : list Z) :
  _calib_hist c = Some old -> collect c x = Ok c' ->
  exists batch_hist,
    Forall (fun v => (0 <= v)%Z) batch_hist /\
    (List.length old <= List.length batch_hist)%nat /\
    _calib_hist c' = Some (Num.add_into batch_hist old).
Proof.
  intros Hold H. unfold collect in H. bind_ok H m Em.
  destruct (_torch_hist c); cbn [negb] in H.
  - unfold collect_torch in H. bind_ok H x_max Emax. rewrite Hold in H.
    destruct (_calib_bin_edges c) as [edges |]; [ | discriminate ].
    bind_ok H last El. bind_ok H p Ep. destruct p as [num_bins edges'].
    bind_ok H last' El'. bind_ok H hist Eh. bind_ok H r Er.
    inversion H; subst c'. unfold Num.add_prefix in Er.
    destruct (List.length old <=? List.length hist)%nat eqn:E; [ | discriminate ].
    inversion Er; subst r. apply Nat.leb_le in E.
    exists hist. split; [ eapply histc_nonneg; eassumption | split; [ assumption | ] ].
    reflexivity.
  - unfold collect_numpy in H. rewrite Hold in H.
    destruct (_calib_bin_edges c) as [edges |]; [ | discriminate ].
    bind_ok H temp_amax Ea. bind_ok H last El. bind_ok H edges' Ee.
    bind_ok H p Ep. destruct p as [hist edges''].
    bind_ok H r Er. inversion H; subst c'. unfold Num.add_prefix in Er.
    destruct (List.length old <=? List.length hist)%nat eqn:E; [ | discriminate ].
    inversion Er; subst r. apply Nat.leb_le in E.
    exists hist. split; [ eapply histogram_edges_nonneg; eassumption | ].
    split; [ assumption | reflexivity ].
Qed.

(** X4: in both modes a successful [collect] on a collector that holds a
    histogram never shortens it and never lowers the count of a bin. *)
Theorem collect_never_lowers_counts :
  forall (c c' : HistogramCalibrator) (x : list Q) (old : list Z),
    _calib_hist c = Some old -> collect c x = Ok c' ->
    exists new,
      _calib_hist c' = Some new /\
      (List.length old <= List.length new)%nat /\
      forall k, (k < List.length old)%nat -> (nth k old 0 <= nth k new 0)%Z.
Proof.
  intros c c' x old Hold H.
  destruct (collect_adds c x c' old Hold H) as [bh [Hnn [Hlen Hc']]].
  exists (Num.add_into bh old).
  split; [ assumption | split ].
  - rewrite add_into_length. assumption.
  - intros k Hk. apply add_into_ge; [ assumption | assumption | lia ].
Qed.

Lemma collect_never_lowers_counts_witness :
  let c := mkCalibrator (Int 8) false 4 false false
             (Some [1 # 2; 9 # 8; 7 # 4; 19 # 8; 3]) (Some [2; 0; 2; 1]%Z) in
  exists new,
    _calib_hist (match collect c [4] with Ok c' => c' | Raise _ => c end) = Some new /\
    (List.length [2; 0; 2; 1]%Z <= List.length new)%nat /\
    forall k, (k < List.length [2; 0; 2; 1]%Z)%nat ->
              (nth k [2; 0; 2; 1]%Z 0 <= nth k new 0)%Z.
Proof.
  intro c.
  apply (collect_never_lowers_counts c _ [4] [2; 0; 2; 1]%Z).
  - reflexivity.
  - reflexivity.
Defined.

Lemma collect_counts_nonneg (c c' : HistogramCalibrator) (x : list Q) :
  counts_nonneg c -> collect c x = Ok c' -> counts_nonneg c'.
Proof.
  intros Hc H. unfold counts_nonneg in *.
  destruct (_calib_hist c) as [old |] eqn:Eo.
  - destruct (collect_adds c x c' old Eo H) as [bh [Hnn [_ Hc']]].
    rewrite Hc'. apply add_into_nonneg; assumption.
  - unfold collect in H. bind_ok H m Em.
    destruct (_torch_hist c); cbn [negb] in H.
    + unfold collect_torch in H. bind_ok H x_max Emax. rewrite Eo in H.
      destruct (_calib_bin_edges c); [ discriminate | ].
      bind_ok H hist Eh. destruct (_num_bins c + 1 <? 0)%Z; [ discriminate | ].
      inversion H. cbn [set_hist _calib_hist]. eapply histc_nonneg; eassumption.
    + unfold collect_numpy in H. rewrite Eo in H.
      destruct (_calib_bin_edges c); [ discriminate | ].
      bind_ok H p Ep. destruct p as [hist edges].
      inversion H. cbn [set_hist _calib_hist].
      eapply histogram_bins_nonneg; eassumption.
Qed.

(** X5: in both modes, whatever batches a new collector has collected, no
    stored count is negative. *)
Theorem collect_all_counts_nonneg :
  forall (nb : NumBits) (u : bool) (n : Z) (sz th : bool)
         (batches : list (list Q)) (c : HistogramCalibrator),
    collect_all (mkCalibrator nb u n sz th None None) batches = Ok c ->
    counts_nonneg c.
Proof.
  intros nb u n sz th batches.
  assert (Hgen : forall c0 c, counts_nonneg c0 -> collect_all c0 batches = Ok c ->
                              counts_nonneg c).
  { induction batches as [| x rest IH]; intros c0 c H0 H.
    - inversion H; subst. assumption.
    - cbn [collect_all] in H. bind_ok H c1 E1.
      apply (IH c1 c); [ eapply collect_counts_nonneg; eassumption | assumption ]. }
  intros c H. apply (Hgen (mkCalibrator nb u n sz th None None) c I H).
Qed.

Lemma collect_all_counts_nonneg_witness :
  let c0 := mkCalibrator (Int 8) false 2 false false None None in
  counts_nonneg
    (match collect_all c0 [[1; 2]; [1 # 2]; [5]] with Ok c => c | Raise _ => c0 end).
Proof.
  intro c0.
  apply (collect_all_counts_nonneg (Int 8) false 2 false false [[1; 2]; [1 # 2]; [5]]).
  reflexivity.
Defined.

(** ** The numpy branch: shape, appended edges, reset *)

(** X6: in the numpy mode, whatever batches a new collector has collected,
    it holds one count per pair of neighbouring edges, edges that never
    decrease, and the bin count it was built with. *)
Theorem numpy_collect_structure :
  forall (nb : NumBits) (u : bool) (n : Z) (sz : bool)
         (batches : list (list Q)) (c : HistogramCalibrator),
    collect_all (mkCalibrator nb u n sz false None None) batches = Ok c ->
    hist_inv c /\ _num_bins c = n.
Proof.
  intros nb u n sz batches.
  assert (Hgen : forall c0 c, _torch_hist c0 = false -> hist_inv c0 ->
            collect_all c0 batches = Ok c ->
            hist_inv c /\ _num_bins c = _num_bins c0).
  { induction batches as [| x rest IH]; intros c0 c Ht H0 H.
    - inversion H; subst. split; [ assumption | reflexivity ].
    - cbn [collect_all] in H. bind_ok H c1 E1.
      destruct (collect_numpy_mode c0 x c1 Ht E1) as [Hi [h [e Hc1]]].
      destruct (IH c1 c) as [Hi' Hn']; [ subst c1; exact Ht | assumption | assumption | ].
      split; [ assumption | ]. rewrite Hn'. subst c1. reflexivity. }
  intros c H.
  apply (Hgen (mkCalibrator nb u n sz false None None) c eq_refl I H).
Qed.

Lemma numpy_collect_structure_witness :
  let c0 := mkCalibrator (Int 8) false 2 false false None None in
  let c := match collect_all c0 [[1; 2]; [1 # 2]; [5]] with
           | Ok c => c
           | Raise _ => c0
           end in
  hist_inv c /\ _num_bins c = 2%Z.
Proof.
  intros c0 c.
  apply (numpy_collect_structure (Int 8) false 2 false [[1; 2]; [1 # 2]; [5]]).
  reflexivity.
Defined.

(** X7: in the numpy mode a later [collect] only appends edges: the edges
    held before are the first edges held after. *)
Theorem numpy_collect_appends_edges :
  forall (c c' : HistogramCalibrator) (x : list Q) (e : list Q),
    _torch_hist c = false -> _calib_bin_edges c = Some e ->
    collect c x = Ok c' ->
    exists added, _calib_bin_edges c' = Some (e ++ added).
Proof.
  intros c c' x e Ht He H. unfold collect in H. bind_ok H m Em.
  rewrite Ht in H. cbn [negb] in H. unfold collect_numpy in H. rewrite He in H.
  destruct (_calib_hist c) as [old |]; [ | discriminate ].
  bind_ok H temp_amax Ea. bind_ok H last El.
  destruct (Num.Qltb last temp_amax).
  - cbv iota in H. bind_ok H e1 E1. bind_ok H e0 E0. bind_ok H nbe En.
    bind_ok H p Ep. destruct p as [hist edges]. bind_ok H r Er.
    inversion H; subst c'.
    destruct (histogram_edges_shape _ _ _ _ Ep) as [-> _].
    exists nbe. reflexivity.
  - cbn [bind] in H. bind_ok H p Ep. destruct p as [hist edges]. bind_ok H r Er.
    inversion H; subst c'.
    destruct (histogram_edges_shape _ _ _ _ Ep) as [-> _].
    exists []. rewrite app_nil_r. reflexivity.
Qed.

Lemma numpy_collect_appends_edges_witness :
  let c := mkCalibrator (Int 8) false 4 false false
             (Some [1 # 2; 9 # 8; 7 # 4; 19 # 8; 3]) (Some [2; 0; 2; 1]%Z) in
  exists added,
    _calib_bin_edges (match collect c [4] with Ok c' => c' | Raise _ => c end)
    = Some ([1 # 2; 9 # 8; 7 # 4; 19 # 8; 3] ++ added).
Proof.
  intro c.
  apply (numpy_collect_appends_edges c _ [4] [1 # 2; 9 # 8; 7 # 4; 19 # 8; 3]).
  - reflexivity.
  - reflexivity.
  - reflexivity.
Defined.

(** X8: in the numpy mode, after [reset] a collector treats any batches as
    the collector it was built as does, whatever it had collected before. *)
Theorem numpy_reset_equals_new :
  forall (nb : NumBits) (u : bool) (n : Z) (sz : bool)
         (before after : list (list Q)) (c : HistogramCalibrator),
    collect_all (mkCalibrator nb u n sz false None None) before = Ok c ->
    collect_all (reset c) after
    = collect_all (mkCalibrator nb u n sz false None None) after.
Proof.
  intros nb u n sz before after c H.
  rewrite (reset_numpy_is_fresh nb u n sz before c H). reflexivity.
Qed.

Lemma numpy_reset_equals_new_witness :
  let c0 := mkCalibrator (Int 8) false 2 false false None None in
  collect_all
    (reset (match collect_all c0 [[1; 2]; [5]] with Ok c => c | Raise _ => c0 end))
    [[3; 4]]
  = collect_all c0 [[3; 4]].
Proof.
  intro c0.
  apply (numpy_reset_equals_new (Int 8) false 2 false [[1; 2]; [5]] [[3; 4]]).
  reflexivity.
Defined.

(** ** Batches of zeros *)

Lemma fold_qmax_in (r : list Q) (x : Q) : In (fold_left Num.qmax r x) (x :: r).
Proof.
  revert x. induction r as [| y r IH]; intros x; cbn [fold_left].
  - left. reflexivity.
  - specialize (IH (Num.qmax x y)). unfold Num.qmax in *.
    destruct (Qle_bool x y); destruct IH as [E | Hin].
    + right. left. exact E.
    + right. right. exact Hin.
    + left. exact E.
    + right. right. exact Hin.
Qed.

Lemma amax_in (e : exn) (a : list Q) (m : Q) : Num.amax e a = Ok m -> In m a.
Proof.
  destruct a as [| x r]; cbn [Num.amax]; intros H; inversion H.
  apply fold_qmax_in.
Qed.

Lemma fold_qmin_in (r : list Q) (x : Q) : In (fold_left Num.qmin r x) (x :: r).
Proof.
  revert x. induction r as [| y r IH]; intros x; cbn [fold_left].
  - left. reflexivity.
  - specialize (IH (Num.qmin x y)). unfold Num.qmin in *.
    destruct (Qle_bool x y); destruct IH as [E | Hin].
    + left. exact E.
    + right. right. exact Hin.
    + right. left. exact E.
    + right. right. exact Hin.
Qed.

Lemma amin_in (e : exn) (a : list Q) (m : Q) : Num.amin e a = Ok m -> In m a.
Proof.
  destruct a as [| x r]; cbn [Num.amin]; intros H; inversion H.
  apply fold_qmin_in.
Qed.

Lemma zeros_abs (x : list Q) :
  Forall (fun y => y == 0) x -> Forall (fun y => y == 0) (map Qabs x).
Proof.
  induction 1 as [| y r Hy Hr IH]; cbn [map]; constructor; [ | assumption ].
  rewrite Hy. reflexivity.
Qed.

Lemma zeros_filter (x : list Q) : Forall (fun y => y == 0) x -> filter nonzero x = [].
Proof.
  induction 1 as [| y r Hy Hr IH]; [ reflexivity | ].
  cbn [filter]. rewrite (nonzero_false y Hy). assumption.
Qed.

(** X9: in the torch mode with [skip_zeros], a batch made of zeros only (the
    empty batch too) makes [collect] raise a [RuntimeError], in whatever state
    the collector is. *)
Theorem collect_torch_skip_zeros_all_zero :
  forall (c : HistogramCalibrator) (x : list Q),
    _torch_hist c = true -> _skip_zeros c = true ->
    Forall (fun y => y == 0) x ->
    collect c x = Raise RuntimeError.
Proof.
  intros c x Ht Hs Hz. unfold collect.
  destruct (Num.amin RuntimeError x) as [m | e] eqn:Em.
  - cbn [bind]. rewrite Ht. cbn [negb].
    unfold collect_torch. rewrite Hs.
    assert (Hz' : Forall (fun y => y == 0) (if Num.Qltb m 0 then map Qabs x else x)).
    { destruct (Num.Qltb m 0); [ apply zeros_abs | ]; assumption. }
    rewrite (zeros_filter _ Hz'). reflexivity.
  - destruct x; [ inversion Em; reflexivity | discriminate ].
Qed.

Lemma collect_torch_skip_zeros_all_zero_witness :
  collect (mkCalibrator (Int 8) false 4 true true None None) [0; 0; 0]
  = Raise RuntimeError.
Proof.
  apply (collect_torch_skip_zeros_all_zero
           (mkCalibrator (Int 8) false 4 true true None None) [0; 0; 0]).
  - reflexivity.
  - reflexivity.
  - repeat constructor.
Defined.

Lemma histc_ok_zeros (xs : list Q) (bins : Z) (M : Q) :
  (1 <= bins)%Z -> xs <> [] -> Forall (fun y => y == 0) xs -> M == 0 ->
  exists h, Num.histc xs bins 0 M = Ok h.
Proof.
  intros Hb Hne Hz HM. unfold Num.histc.
  destruct (bins <? 1)%Z eqn:E; [ apply Z.ltb_lt in E; lia | ].
  destruct xs as [| x0 xr] eqn:Ex; [ congruence | ]. rewrite <- Ex in *.
  assert (E0 : Qeq_bool 0 M = true) by (apply Qeq_bool_iff; symmetry; assumption).
  rewrite E0.
  destruct (Num.amin RuntimeError xs) as [lo |] eqn:Elo; [ | rewrite Ex in Elo; discriminate ].
  destruct (Num.amax RuntimeError xs) as [hi |] eqn:Ehi; [ | rewrite Ex in Ehi; discriminate ].
  cbn [bind].
  assert (Hlo : lo == 0).
  { exact (proj1 (Forall_forall _ _) Hz lo (amin_in _ _ _ Elo)). }
  assert (Hhi : hi == 0).
  { exact (proj1 (Forall_forall _ _) Hz hi (amax_in _ _ _ Ehi)). }
  assert (Eq : Qeq_bool lo hi = true).
  { apply Qeq_bool_iff. rewrite Hlo, Hhi. reflexivity. }
  rewrite Eq.
  assert (El : Num.Qltb (lo - 1) (hi + 1) = true).
  { apply Qltb_lt. rewrite Hlo, Hhi. reflexivity. }
  rewrite El. cbn [negb]. eexists. reflexivity.
Qed.

(** X10: in the torch mode, after a first batch made of zeros only the bins
    have no width: the next batch that holds a value other than zero makes
    [collect] raise an [OverflowError]. *)
Theorem collect_torch_zero_width_overflow :
  forall (nb : NumBits) (u : bool) (n : Z) (x1 x2 : list Q),
    (1 <= n)%Z -> x1 <> [] -> Forall (fun y => y == 0) x1 -> has_nonzero x2 ->
    exists c1,
      collect (mkCalibrator nb u n false true None None) x1 = Ok c1 /\
      hist_total c1 = Z.of_nat (List.length x1) /\
      collect c1 x2 = Raise OverflowError.
Proof.
  intros nb u n x1 x2 Hn Hne Hz Hnz.
  set (c0 := mkCalibrator nb u n false true None None).
  (* the first batch *)
  destruct (Num.amin RuntimeError x1) as [m1 |] eqn:Em1;
    [ | destruct x1; [ congruence | discriminate ] ].
  set (xs1 := if Num.Qltb m1 0 then map Qabs x1 else x1).
  assert (Hz1 : Forall (fun y => y == 0) xs1).
  { unfold xs1. destruct (Num.Qltb m1 0); [ apply zeros_abs | ]; assumption. }
  assert (Hne1 : xs1 <> []).
  { unfold xs1. destruct (Num.Qltb m1 0); [ | assumption ].
    destruct x1; [ congruence | discriminate ]. }
  destruct (amax_nonempty RuntimeError xs1 Hne1) as [xm Hxm].
  assert (Hxm0 : xm == 0).
  { exact (proj1 (Forall_forall _ _) Hz1 xm (amax_in _ _ _ Hxm)). }
  destruct (histc_ok_zeros xs1 n xm Hn Hne1 Hz1 Hxm0) as [h Hh].
  set (pt := fun k => 0 + Num.of_nat k * ((xm - 0) / Num.of_nat (S (Z.to_nat n) - 1))).
  set (c1 := set_hist c0 n h (map pt (seq 0 (S (Z.to_nat n))))).
  assert (Hc1 : collect c0 x1 = Ok c1).
  { unfold collect. rewrite Em1. unfold c1, c0. cbn [bind _torch_hist negb].
    unfold collect_torch. cbn [_skip_zeros _calib_bin_edges _calib_hist _num_bins].
    fold xs1. rewrite Hxm. cbn [bind]. rewrite Hh. cbn [bind].
    destruct (n + 1 <? 0)%Z eqn:E; [ apply Z.ltb_lt in E; lia | ].
    unfold Num.linspace.
    replace (Z.to_nat (n + 1)) with (S (Z.to_nat n)) by lia. reflexivity. }
  exists c1. split; [ assumption | split ].
  - destruct (collect_torch_mode c0 x1 c1 eq_refl (fresh_torch_ok nb u n false) Hc1)
      as [_ [Htot _]].
    rewrite Htot. unfold hist_total at 1, ingested. cbn [c0 _calib_hist _skip_zeros]. lia.
  - (* the second batch *)
    destruct (has_nonzero_amin x2 Hnz) as [m2 Hm2].
    destruct (preprocess_positive m2 x2 false Hm2 Hnz) as [y [Hy Hypos]].
    destruct (amax_pos RuntimeError _ y Hy Hypos) as [xm2 [Hxm2 Hxm2pos]].
    assert (Hpt0 : forall k, pt k == 0).
    { intros k. unfold pt. rewrite Hxm0. unfold Qdiv. ring. }
    unfold collect. rewrite Hm2. unfold c1, set_hist, c0. cbn [bind _torch_hist negb].
    unfold collect_torch.
    cbn [_skip_zeros _calib_bin_edges _calib_hist _num_bins].
    rewrite Hxm2. cbn [bind].
    rewrite index_last_map_seq. cbn [bind].
    assert (Eext : Num.Qltb (pt (Z.to_nat n)) xm2 = true).
    { apply Qltb_lt. rewrite Hpt0. assumption. }
    rewrite Eext.
    rewrite !index_map_seq by lia. cbn [bind]. cbv zeta.
    assert (Ew : Qeq_bool (pt 1%nat - pt 0%nat) 0 = true).
    { apply Qeq_bool_iff. rewrite !Hpt0. reflexivity. }
    rewrite Ew.
    assert (E2 : Qeq_bool xm2 0 = false).
    { destruct (Qeq_bool xm2 0) eqn:E; [ | reflexivity ].
      apply Qeq_bool_iff in E. rewrite E in Hxm2pos.
      exfalso. exact (Qlt_irrefl _ Hxm2pos). }
    rewrite E2. reflexivity.
Qed.

Lemma collect_torch_zero_width_overflow_witness :
  exists c1,
    collect (mkCalibrator (Int 8) false 4 false true None None) [0; 0] = Ok c1 /\
    hist_total c1 = Z.of_nat (List.length [0; 0]) /\
    collect c1 [1; 2] = Raise OverflowError.
Proof.
  apply (collect_torch_zero_width_overflow (Int 8) false 4 [0; 0] [1; 2]).
  - lia.
  - discriminate.
  - repeat constructor.
  - repeat constructor; discriminate.
Defined.

(** ** What the percentile search returns *)

Lemma qsum_map_div (t : Q) (l : list Z) :
  qsum (map (fun c => inject_Z c / t) l) == inject_Z (Num.sum l) / t.
Proof.
  induction l as [| x l IH]; cbn [map].
  - unfold Qdiv. cbn [qsum fold_right Num.sum]. ring.
  - rewrite qsum_cons, sum_cons, IH, inject_Z_plus. unfold Qdiv. ring.
Qed.

Lemma cumsum_from_nth (l : list Q) :
  forall acc j, (j < List.length l)%nat ->
    nth j (cumsum_from acc l) 0 == acc + qsum (firstn (S j) l).
Proof.
  induction l as [| x r IH]; intros acc j Hj; simpl in Hj; [ lia | ].
  destruct j as [| j].
  - cbn [cumsum_from nth firstn]. rewrite qsum_cons.
    destruct r; cbn [firstn qsum fold_right]; ring.
  - cbn [cumsum_from nth]. rewrite IH by lia.
    change (firstn (S (S j)) (x :: r)) with (x :: firstn (S j) r).
    rewrite qsum_cons. ring.
Qed.

(** The cumulative distribution at a bin is the share of the counts up to and
    including that bin. *)
Lemma cdf_nth (hist : list Z) (j : nat) :
  (j < List.length hist)%nat ->
  nth j (cumsum (map (fun c => inject_Z c / inject_Z (Num.sum hist)) hist)) 0
  == inject_Z (Num.sum (firstn (S j) hist)) / inject_Z (Num.sum hist).
Proof.
  intros Hj. unfold cumsum.
  rewrite cumsum_from_nth by (rewrite length_map; assumption).
  rewrite Qplus_0_l, firstn_map. apply qsum_map_div.
Qed.

Lemma percentile_index_spec (hist : list Z) (edges : list Q) (p : Q) :
  Forall (fun c => (0 <= c)%Z) hist ->
  Exists (fun c => c <> 0%Z) hist ->
  List.length edges = S (List.length hist) ->
  0 <= p -> p <= 100 ->
  exists k,
    (k <= List.length hist)%nat /\
    _compute_amax_percentile (Some hist) (Some edges) p = Ok (Some (nth k edges 0)) /\
    (forall j, (j < k)%nat ->
       inject_Z (Num.sum (firstn (S j) hist)) / inject_Z (Num.sum hist) < p / 100) /\
    ((k < List.length hist)%nat ->
       p / 100 <= inject_Z (Num.sum (firstn (S k) hist)) / inject_Z (Num.sum hist)).
Proof.
  intros Hnn Hnz Hlen Hp0 Hp1.
  set (total := inject_Z (Num.sum hist)).
  set (cdf := cumsum (map (fun c => inject_Z c / total) hist)).
  assert (Htot : 0 < total).
  { unfold total. change 0 with (inject_Z 0). rewrite <- Zlt_Qlt.
    apply sum_pos; assumption. }
  assert (Hs : sorted_nth cdf).
  { unfold cdf, cumsum. apply cumsum_from_sorted, cdf_terms_nonneg; assumption. }
  assert (Hcl : List.length cdf = List.length hist).
  { unfold cdf, cumsum. rewrite cumsum_from_length, length_map. reflexivity. }
  destruct (searchsorted_spec cdf (p / 100) Hs) as [L [B A]].
  exists (searchsorted cdf (p / 100)).
  split; [ lia | split; [ | split ] ].
  - unfold _compute_amax_percentile.
    replace (Num.Qltb p 0 || Num.Qltb 100 p) with false
      by (symmetry; apply orb_false_iff; split; apply Qltb_ge; assumption).
    fold total. fold cdf. rewrite (index_nth edges _ 0) by lia. reflexivity.
  - intros j Hj. specialize (B j Hj). unfold cdf, total in B.
    rewrite cdf_nth in B by lia. exact B.
  - intros Hk.
    assert (Hk' : (searchsorted cdf (p / 100) <= searchsorted cdf (p / 100)
                   < List.length cdf)%nat) by lia.
    specialize (A _ Hk'). clear Hk'.
    unfold cdf at 2, total in A. rewrite cdf_nth in A by exact Hk.
    exact A.
Qed.

Lemma nonneg_firstn (n : nat) (l : list Z) :
  Forall (fun c => (0 <= c)%Z) l -> Forall (fun c => (0 <= c)%Z) (firstn n l).
Proof.
  intros H. revert n. induction H as [| x l Hx Hl IH]; intros [| n]; cbn [firstn];
    constructor; auto.
Qed.

Lemma share_nonneg (hist : list Z) (j : nat) :
  Forall (fun c => (0 <= c)%Z) hist -> (0 < Num.sum hist)%Z ->
  0 <= inject_Z (Num.sum (firstn (S j) hist)) / inject_Z (Num.sum hist).
Proof.
  intros Hnn Hpos. apply Qle_shift_div_l.
  - change 0 with (inject_Z 0). rewrite <- Zlt_Qlt. assumption.
  - rewrite Qmult_0_l. change 0 with (inject_Z 0). rewrite <- Zle_Qle.
    apply sum_nonneg, nonneg_firstn. assumption.
Qed.

(** X12: at the percentile 0 the search returns the first edge. *)
Theorem percentile_zero_first_edge :
  forall (hist : list Z) (edges : list Q),
    Forall (fun c => (0 <= c)%Z) hist ->
    Exists (fun c => c <> 0%Z) hist ->
    List.length edges = S (List.length hist) ->
    _compute_amax_percentile (Some hist) (Some edges) 0 = Ok (Some (nth 0 edges 0)).
Proof.
  intros hist edges Hnn Hnz Hlen.
  destruct (percentile_index_spec hist edges 0 Hnn Hnz Hlen)
    as [k [_ [Hres [Hbelow _]]]]; try discriminate.
  destruct k as [| k]; [ assumption | exfalso ].
  specialize (Hbelow 0%nat ltac:(lia)).
  apply (Qlt_not_le _ _ Hbelow).
  apply Qle_trans with 0; [ discriminate | ].
  apply share_nonneg; [ assumption | ].
  apply sum_pos; assumption.
Qed.

Lemma percentile_zero_first_edge_witness :
  _compute_amax_percentile (Some [0; 1; 2; 1]%Z) (Some [0; 1; 2; 3; 4]) 0
  = Ok (Some (nth 0 [0; 1; 2; 3; 4] 0)).
Proof.
  apply (percentile_zero_first_edge [0; 1; 2; 1]%Z [0; 1; 2; 3; 4]).
  - repeat constructor; discriminate.
  - apply Exists_cons_tl. constructor. discriminate.
  - reflexivity.
Defined.

(** ** Error behaviour of the searches and of their dispatch *)

(** X14: a percentile outside [0, 100] makes [compute_amax] raise a
    [ValueError] whatever the collector holds, an empty one included: the
    validation comes before the check for an empty histogram. *)
Theorem compute_amax_percentile_out_of_range :
  forall (D : Type) (entropy : list Q -> list Q -> D) (dltb : D -> D -> bool)
         (fake_tensor_quant : list Q -> Q -> Z -> bool -> list Q)
         (scaled_e4m3 : list Q -> Q -> Z -> Z -> list Q)
         (c : HistogramCalibrator) (stride start_bin : nat) (percentile : Q),
    percentile < 0 \/ 100 < percentile ->
    compute_amax entropy dltb fake_tensor_quant scaled_e4m3 c "percentile"
      stride start_bin percentile = (c, Raise ValueError).
Proof.
  intros D entropy dltb ftq e4m3 c stride start_bin p Hp.
  unfold compute_amax. cbn [String.eqb Ascii.eqb Bool.eqb andb].
  unfold _compute_amax_percentile.
  replace (Num.Qltb p 0 || Num.Qltb 100 p) with true; [ reflexivity | ].
  symmetry. apply orb_true_iff.
  destruct Hp as [H | H]; [ left | right ]; apply Qltb_lt; assumption.
Qed.

Lemma compute_amax_percentile_out_of_range_witness :
  let c := mkCalibrator (Int 8) false 2048 false true None None in
  compute_amax (fun _ q => qsum q) Num.Qltb (fun c _ _ _ => c) (fun c _ _ _ => c)
    c "percentile" 1 128 (101 # 1) = (c, Raise ValueError).
Proof.
  intro c.
  apply (compute_amax_percentile_out_of_range Q (fun _ q => qsum q) Num.Qltb
           (fun c _ _ _ => c) (fun c _ _ _ => c) c 1%nat 128%nat (101 # 1)).
  right. reflexivity.
Defined.

Lemma py_range_empty (start stop stride : nat) :
  (1 <= stride)%nat -> (stop <= start)%nat -> py_range start stop stride = Ok [].
Proof.
  intros Hs Hle. unfold py_range.
  destruct (stride =? 0)%nat eqn:E; [ apply Nat.eqb_eq in E; lia | ].
  replace (stop - start + stride - 1)%nat with (stride - 1)%nat by lia.
  rewrite Nat.div_small by lia. reflexivity.
Qed.

Lemma mse_no_candidate
    (fake_tensor_quant : list Q -> Q -> Z -> bool -> list Q)
    (scaled_e4m3 : list Q -> Q -> Z -> Z -> list Q)
    (hist : list Z) (edges : list Q) (num_bits : NumBits) (unsigned : bool)
    (stride start_bin : nat) :
  List.length edges = S (List.length hist) ->
  (1 <= stride)%nat ->
  (List.length hist <= start_bin)%nat ->
  _compute_amax_mse fake_tensor_quant scaled_e4m3 (Some hist) (Some edges)
    num_bits unsigned stride start_bin = Raise ValueError.
Proof.
  intros Hlen Hs Hstart. unfold _compute_amax_mse.
  rewrite py_range_empty; [ reflexivity | assumption | ].
  rewrite centers_of_length. lia.
Qed.

(** X16: when [start_bin] is not below the number of bins, the MSE search has
    no candidate and ends in the [ValueError] of [argmin] on an empty list;
    with the default [start_bin] of 128 this is every histogram of at most
    128 bins. *)
Theorem mse_search_no_candidate :
  forall (fake_tensor_quant : list Q -> Q -> Z -> bool -> list Q)
         (scaled_e4m3 : list Q -> Q -> Z -> Z -> list Q)
         (hist : list Z) (edges : list Q) (num_bits : NumBits) (unsigned : bool)
         (stride start_bin : nat),
    List.length edges = S (List.length hist) ->
    (1 <= stride)%nat ->
    (List.length hist <= start_bin)%nat ->
    _compute_amax_mse fake_tensor_quant scaled_e4m3 (Some hist) (Some edges)
      num_bits unsigned stride start_bin = Raise ValueError.
Proof.
  intros ftq e4m3 hist edges num_bits unsigned stride start_bin Hlen Hs Hstart.
  apply mse_no_candidate; assumption.
Qed.

Lemma mse_search_no_candidate_witness :
  _compute_amax_mse (fun c _ _ _ => c) (fun c _ _ _ => c)
    (Some [1; 1; 2; 1]%Z) (Some [0; 1; 2; 3; 4]) (Int 8) false 1 128
  = Raise ValueError.
Proof.
  apply (mse_search_no_candidate (fun c _ _ _ => c) (fun c _ _ _ => c)
           [1; 1; 2; 1]%Z [0; 1; 2; 3; 4] (Int 8) false 1%nat 128%nat).
  - reflexivity.
  - lia.
  - simpl. lia.
Defined.

(** X17: when [start_bin] is above the number of bins, the entropy search has
    no candidate either and ends in the same [ValueError]. *)
Theorem entropy_search_no_candidate :
  forall (D : Type) (entropy : list Q -> list Q -> D) (dltb : D -> D -> bool)
         (b0 b1 : Z) (rest : list Z) (edges : option (list Q)) (n : Z)
         (unsigned : bool) (stride start_bin : nat),
    (0 <= n - 1 + (if unsigned then 1 else 0))%Z ->
    (1 <= stride)%nat ->
    (List.length (b0 :: b1 :: rest) < start_bin)%nat ->
    snd (_compute_amax_entropy entropy dltb (Some (b0 :: b1 :: rest)) edges
           (Int n) unsigned stride start_bin) = Raise ValueError.
Proof.
  intros D entropy dltb b0 b1 rest edges n unsigned stride start_bin Hs Hst Hstart.
  assert (Hsnd : snd (_compute_amax_entropy entropy dltb (Some (b0 :: b1 :: rest))
                        edges (Int n) unsigned stride start_bin)
                 = entropy_search entropy dltb (b1 :: b1 :: rest) edges (Int n)
                     unsigned stride start_bin).
  { unfold _compute_amax_entropy. destruct edges; reflexivity. }
  rewrite Hsnd. unfold entropy_search.
  destruct (n - 1 + (if unsigned then 1 else 0) <? 0)%Z eqn:E;
    [ apply Z.ltb_lt in E; lia | ].
  cbn [bind]. rewrite py_range_empty; [ reflexivity | assumption | ].
  cbn [List.length] in *. lia.
Qed.

Lemma entropy_search_no_candidate_witness :
  snd (_compute_amax_entropy (fun _ q => qsum q) Num.Qltb
         (Some [5; 3; 2; 0; 7]%Z) (Some [0; 1; 2; 3; 4; 5]) (Int 8) false 1 128)
  = Raise ValueError.
Proof.
  apply (entropy_search_no_candidate Q (fun _ q => qsum q) Num.Qltb
           5%Z 3%Z [2; 0; 7]%Z (Some [0; 1; 2; 3; 4; 5]) 8%Z false 1%nat 128%nat).
  - simpl. lia.
  - lia.
  - simpl. lia.
Defined.

(** X18: with [start_bin = 0] the entropy search ends in an [IndexError]: at
    the cut index 0 the reference distribution is empty and has no last
    entry to take the folded mass. *)
Theorem entropy_search_start_zero :
  forall (D : Type) (entropy : list Q -> list Q -> D) (dltb : D -> D -> bool)
         (b0 b1 : Z) (rest : list Z) (edges : option (list Q)) (n : Z)
         (unsigned : bool) (stride : nat),
    (0 <= n - 1 + (if unsigned then 1 else 0))%Z ->
    (1 <= stride)%nat ->
    snd (_compute_amax_entropy entropy dltb (Some (b0 :: b1 :: rest)) edges
           (Int n) unsigned stride 0) = Raise IndexError.
Proof.
  intros D entropy dltb b0 b1 rest edges n unsigned stride Hs Hst.
  assert (Hsnd : snd (_compute_amax_entropy entropy dltb (Some (b0 :: b1 :: rest))
                        edges (Int n) unsigned stride 0)
                 = entropy_search entropy dltb (b1 :: b1 :: rest) edges (Int n)
                     unsigned stride 0).
  { unfold _compute_amax_entropy. destruct edges; reflexivity. }
  rewrite Hsnd. unfold entropy_search.
  set (s := (n - 1 + (if unsigned then 1 else 0))%Z) in *.
  destruct (s <? 0)%Z eqn:E; [ apply Z.ltb_lt in E; lia | ].
  cbn [bind]. unfold py_range.
  destruct (stride =? 0)%nat eqn:E0; [ apply Nat.eqb_eq in E0; lia | ].
  set (stop := (List.length (b1 :: b1 :: rest) + 1)%nat).
  destruct ((stop - 0 + stride - 1) / stride)%nat as [| k] eqn:Ek.
  - exfalso.
    assert (H : (0 < (stop - 0 + stride - 1) / stride)%nat).
    { apply (range_count (stop - 0) stride 0 Hst). unfold stop. simpl. lia. }
    lia.
  - cbn [seq map bind mapM Nat.mul Nat.add].
    rewrite (entropy_body_zero entropy (b1 :: b1 :: rest) _ (pow2_nbins s Hs)).
    reflexivity.
Qed.

Lemma entropy_search_start_zero_witness :
  snd (_compute_amax_entropy (fun _ q => qsum q) Num.Qltb
         (Some [5; 3; 2; 0; 7]%Z) (Some [0; 1; 2; 3; 4; 5]) (Int 2) false 1 0)
  = Raise IndexError.
Proof.
  apply (entropy_search_start_zero Q (fun _ q => qsum q) Num.Qltb
           5%Z 3%Z [2; 0; 7]%Z (Some [0; 1; 2; 3; 4; 5]) 2%Z false 1%nat).
  - simpl. lia.
  - lia.
Defined.

(** ** The weight calibration driver *)

Lemma calibrate_module_result
    (fake_tensor_quant : list Q -> Q -> Z -> bool -> list Q)
    (scaled_e4m3 : list Q -> Q -> Z -> Z -> list Q)
    (w : Tensor) (q q' : TensorQuantizer) (cs : bool) (method : string)
    (perchannel : bool) (percentile : Q) (num_bins : Z) :
  calibrate_module fake_tensor_quant scaled_e4m3 w q cs method perchannel
    percentile num_bins = Ok q' ->
  num_bits q' = num_bits q /\ unsigned q' = unsigned q /\ amax q' <> None.
Proof.
  intros H. unfold calibrate_module in H.
  bind_ok H axis_size Ea. bind_ok H hists Eh. bind_ok H calib_amax Ec.
  bind_ok H t Et. inversion H. cbn [num_bits unsigned amax].
  split; [ reflexivity | split; [ reflexivity | discriminate ] ].
Qed.

(** X19: a successful [calibrate_weights] returns the modules in the same
    order; it never touches a weight, leaves alone every module that lacks a
    weight or a weight quantizer, and in the others changes nothing but the
    threshold of the quantizer, which it always sets. *)
Theorem calibrate_weights_frame :
  forall (fake_tensor_quant : list Q -> Q -> Z -> bool -> list Q)
         (scaled_e4m3 : list Q -> Q -> Z -> Z -> list Q)
         (model model' : list QuantModule) (method : string) (perchannel : bool)
         (percentile : Q) (num_bins : Z),
    calibrate_weights fake_tensor_quant scaled_e4m3 model method perchannel
      percentile num_bins = Ok model' ->
    Forall2
      (fun m m' =>
         weight m' = weight m /\ channel_second m' = channel_second m /\
         match weight m, weight_quantizer m with
         | Some _, Some q =>
             exists q', weight_quantizer m' = Some q' /\
                        num_bits q' = num_bits q /\ unsigned q' = unsigned q /\
                        amax q' <> None
         | _, _ => m' = m
         end)
      model model'.
Proof.
  intros ftq e4m3 model. induction model as [| m rest IH];
    intros model' method perchannel p nb H.
  - inversion H. constructor.
  - cbn [calibrate_weights] in H.
    destruct (weight m) as [w |] eqn:Ew; [ destruct (weight_quantizer m) as [q |] eqn:Eq | ].
    + bind_ok H q' Eq'. cbn [bind] in H. bind_ok H rest' Er. inversion H; subst model'.
      constructor; [ | eapply IH; eassumption ].
      cbn [weight channel_second weight_quantizer]. rewrite Ew, Eq.
      split; [ reflexivity | split; [ reflexivity | ] ].
      exists q'. split; [ reflexivity | ].
      eapply calibrate_module_result. eassumption.
    + cbn [bind] in H. bind_ok H rest' Er. inversion H; subst model'.
      constructor; [ | eapply IH; eassumption ].
      rewrite Ew, Eq. repeat split.
    + cbn [bind] in H. bind_ok H rest' Er. inversion H; subst model'.
      constructor; [ | eapply IH; eassumption ].
      rewrite Ew. repeat split.
Qed.

Lemma calibrate_weights_frame_witness :
  let model := [mkModule None None false;
                mkModule (Some (mkTensor [2; 1; 2; 1]%nat [1; -3; 2; 1 # 2]))
                         (Some (mkQuantizer (Int 8) false None)) false] in
  Forall2
    (fun m m' =>
       weight m' = weight m /\ channel_second m' = channel_second m /\
       match weight m, weight_quantizer m with
       | Some _, Some q =>
           exists q', weight_quantizer m' = Some q' /\
                      num_bits q' = num_bits q /\ unsigned q' = unsigned q /\
                      amax q' <> None
       | _, _ => m' = m
       end)
    model
    (match calibrate_weights (fun c _ _ _ => c) (fun c _ _ _ => c) model
             "percentile" true (9999 # 100) 4 with
     | Ok model' => model'
     | Raise _ => []
     end).
Proof.
  intro model.
  apply (calibrate_weights_frame (fun c _ _ _ => c) (fun c _ _ _ => c) model _
           "percentile" true (9999 # 100) 4).
  reflexivity.
Defined.

Lemma weight_histogram_shape (sl : list Q) (num_bins : Z) (h : list Z) (e : list Q) :
  weight_histogram sl num_bins = Ok (h, e) ->
  List.length h = Z.to_nat num_bins /\ List.length e = S (List.length h)
  /\ (1 <= num_bins)%Z.
Proof.
  unfold weight_histogram. intros H. bind_ok H mx Em.
  unfold Num.histogram_bins in H.
  destruct (num_bins <? 1)%Z eqn:E; [ discriminate | ]. apply Z.ltb_ge in E.
  bind_ok H r Er. destruct r as [first last]. inversion H.
  rewrite uniform_counts_length, linspace_length.
  split; [ reflexivity | split; [ reflexivity | assumption ] ].
Qed.

Lemma weight_histogram_whole (w : Tensor) (num_bins : Z) :
  data w <> [] -> (1 <= num_bins)%Z ->
  exists h e, weight_histogram (data w) num_bins = Ok (h, e).
Proof.
  intros Hd Hn. destruct (weight_histogram_ok (data w) num_bins Hd Hn) as [[h e] H].
  exists h, e. assumption.
Qed.

(** X20: per tensor, on a weight that is not empty, a method name other than
    "max", "mse" and "percentile" ("entropy" for one) makes the driver raise a
    [TypeError], after the histogram has been collected. *)
Theorem calibrate_module_unknown_method :
  forall (fake_tensor_quant : list Q -> Q -> Z -> bool -> list Q)
         (scaled_e4m3 : list Q -> Q -> Z -> Z -> list Q)
         (w : Tensor) (q : TensorQuantizer) (cs : bool) (method : string)
         (percentile : Q) (num_bins : Z),
    data w <> [] -> (1 <= num_bins)%Z ->
    method <> "max"%string -> method <> "mse"%string ->
    method <> "percentile"%string ->
    calibrate_module fake_tensor_quant scaled_e4m3 w q cs method false
      percentile num_bins = Raise TypeError.
Proof.
  intros ftq e4m3 w q cs method p nb Hd Hn H1 H2 H3.
  destruct (weight_histogram_whole w nb Hd Hn) as [h [e Hh]].
  unfold calibrate_module. cbn [bind]. rewrite Hh. cbn [bind].
  apply String.eqb_neq in H1, H2, H3. rewrite H1, H2, H3. reflexivity.
Qed.

Lemma calibrate_module_unknown_method_witness :
  calibrate_module (fun c _ _ _ => c) (fun c _ _ _ => c)
    (mkTensor [2; 2]%nat [1; -3; 2; 1 # 2]) (mkQuantizer (Int 8) false None)
    false "entropy" false (9999 # 100) 2048
  = Raise TypeError.
Proof.
  apply (calibrate_module_unknown_method (fun c _ _ _ => c) (fun c _ _ _ => c)
           (mkTensor [2; 2]%nat [1; -3; 2; 1 # 2]) (mkQuantizer (Int 8) false None)
           false "entropy" (9999 # 100) 2048).
  - discriminate.
  - lia.
  - discriminate.
  - discriminate.
  - discriminate.
Defined.

(** X21: per tensor with the method "mse", a bin count of at most 128 leaves
    the MSE search, called with its default [start_bin] of 128, without a
    candidate: the driver raises a [ValueError]. *)
Theorem calibrate_module_mse_few_bins :
  forall (fake_tensor_quant : list Q -> Q -> Z -> bool -> list Q)
         (scaled_e4m3 : list Q -> Q -> Z -> Z -> list Q)
         (w : Tensor) (q : TensorQuantizer) (cs : bool)
         (percentile : Q) (num_bins : Z),
    data w <> [] -> (1 <= num_bins <= 128)%Z ->
    calibrate_module fake_tensor_quant scaled_e4m3 w q cs "mse" false
      percentile num_bins = Raise ValueError.
Proof.
  intros ftq e4m3 w q cs p nb Hd Hn.
  destruct (weight_histogram_whole w nb Hd (proj1 Hn)) as [h [e Hh]].
  destruct (weight_histogram_shape _ _ _ _ Hh) as [Hl [Hle _]].
  unfold calibrate_module. cbn [bind]. rewrite Hh. cbn [bind].
  change (String.eqb "mse" "max") with false.
  change (String.eqb "mse" "mse") with true. cbv iota.
  cbn [seq mapM Num.index nth_error bind].
  rewrite mse_no_candidate; [ reflexivity | assumption | lia | lia ].
Qed.

Lemma calibrate_module_mse_few_bins_witness :
  calibrate_module (fun c _ _ _ => c) (fun c _ _ _ => c)
    (mkTensor [2; 2]%nat [1; -3; 2; 1 # 2]) (mkQuantizer (Int 8) false None)
    false "mse" false (9999 # 100) 100
  = Raise ValueError.
Proof.
  apply (calibrate_module_mse_few_bins (fun c _ _ _ => c) (fun c _ _ _ => c)
           (mkTensor [2; 2]%nat [1; -3; 2; 1 # 2]) (mkQuantizer (Int 8) false None)
           false (9999 # 100) 100).
  - discriminate.
  - lia.
Defined.







(** ** Signs, and what the numpy branch loses *)

Lemma Qabs_nonneg_eq (y : Q) : 0 <= y -> Qabs y = y.
Proof.
  destruct y as [n d]. unfold Qle, Qabs. cbn [Qnum Qden].
  intros H. rewrite Z.abs_eq by lia. reflexivity.
Qed.

Lemma map_abs_nonneg (x : list Q) :
  (forall y, In y x -> 0 <= y) -> map Qabs x = x.
Proof.
  induction x as [| y x IH]; intros H; [ reflexivity | ].
  cbn [map]. rewrite Qabs_nonneg_eq by (apply H; left; reflexivity).
  rewrite IH; [ reflexivity | ]. intros; apply H; right; assumption.
Qed.

(** The batch that reaches the branches of [collect] is the batch of the
    absolute values, whether or not a negative value triggered [abs]. *)
Lemma preprocess_is_abs (m : Q) (x : list Q) :
  Num.amin RuntimeError x = Ok m ->
  (if Num.Qltb m 0 then map Qabs x else x) = map Qabs x.
Proof.
  intros Hm. destruct (Num.Qltb m 0) eqn:E; [ reflexivity | ].
  symmetry. apply map_abs_nonneg. intros y Hy. apply Qltb_ge in E.
  eapply Qle_trans; [ exact E | eapply amin_le; eassumption ].
Qed.

(** X23: [collect] sees magnitudes only: a batch and the batch of its
    absolute values are collected alike, in both modes and in every state. *)
Theorem collect_discards_sign :
  forall (c : HistogramCalibrator) (x : list Q),
    collect c (map Qabs x) = collect c x.
Proof.
  intros c x. unfold collect.
  destruct (Num.amin RuntimeError x) as [m |] eqn:Em.
  - destruct (Num.amin RuntimeError (map Qabs x)) as [m' |] eqn:Em'.
    + cbn [bind]. rewrite (preprocess_is_abs m x Em).
      rewrite (preprocess_is_abs m' (map Qabs x) Em').
      rewrite (map_abs_nonneg (map Qabs x)); [ reflexivity | ].
      intros y Hy. apply in_map_iff in Hy. destruct Hy as [z [<- _]].
      apply Qabs_nonneg.
    + destruct x; discriminate.
  - destruct x; [ inversion Em; reflexivity | discriminate ].
Qed.

Lemma sum_diff (c : list Z) :
  c <> [] -> Num.sum (Num.diff c) = (last c 0 - hd 0 c)%Z.
Proof.
  induction c as [| x [| y r] IH]; intros H; [ congruence | simpl; lia | ].
  change (Num.diff (x :: y :: r)) with ((y - x)%Z :: Num.diff (y :: r)).
  rewrite sum_cons, IH by discriminate.
  change (last (x :: y :: r) 0%Z) with (last (y :: r) 0%Z).
  cbn [hd]. lia.
Qed.

Lemma count_if_all {A : Type} (p : A -> bool) (a : list A) :
  (forall x, In x a -> p x = true) -> Num.count_if p a = Z.of_nat (List.length a).
Proof. intros H. unfold Num.count_if. rewrite filter_all by assumption. reflexivity. Qed.

(** With explicit edges [np.histogram] counts what is not above the last edge
    and not below the first. *)
Lemma histogram_edges_total (a : list Q) (e0 e1 : Q) (rest : list Q)
    (h : list Z) (e : list Q) (last : Q) :
  Num.histogram_edges a (e0 :: e1 :: rest) = Ok (h, e) ->
  Num.index_last (e0 :: e1 :: rest) = Ok last ->
  Num.sum h = (Num.count_if (fun x => Qle_bool x last) a
               - Num.count_if (fun x => Num.Qltb x e0) a)%Z.
Proof.
  unfold Num.histogram_edges. intros H Hl.
  destruct (Num.monotone (e0 :: e1 :: rest)); [ | discriminate ].
  cbn [negb] in H. rewrite Hl in H. cbn [bind] in H.
  change (removelast (e0 :: e1 :: rest)) with (e0 :: removelast (e1 :: rest)) in H.
  remember (map (fun e => Num.count_if (fun x => Num.Qltb x e) a)
                (e0 :: removelast (e1 :: rest))
            ++ [Num.count_if (fun x => Qle_bool x last) a]) as cum eqn:Ecum.
  injection H as Hh He. subst h.
  rewrite sum_diff by (rewrite Ecum; discriminate).
  rewrite Ecum, last_last. reflexivity.
Qed.

Lemma collect_numpy_within_total (c c' : HistogramCalibrator) (xp : list Q)
    (e0 e1 : Q) (rest : list Q) (old : list Z) (top : Q) :
  _calib_bin_edges c = Some (e0 :: e1 :: rest) -> _calib_hist c = Some old ->
  Num.index_last (e0 :: e1 :: rest) = Ok top ->
  (forall y, In y xp -> y <= top) ->
  collect_numpy c xp = Ok c' ->
  let xs := if _skip_zeros c then filter nonzero xp else xp in
  _calib_bin_edges c' = Some (e0 :: e1 :: rest) /\
  hist_total c' = (Num.sum old + Z.of_nat (List.length xs)
                   - Num.count_if (fun y => Num.Qltb y e0) xs)%Z.
Proof.
  intros He Hold Htop Hle H. cbv zeta. unfold collect_numpy in H.
  set (xs := if _skip_zeros c then filter nonzero xp else xp) in *.
  assert (Hxs : forall y, In y xs -> y <= top).
  { intros y Hy. apply Hle. unfold xs in Hy.
    destruct (_skip_zeros c); [ apply filter_In in Hy; destruct Hy | ]; assumption. }
  rewrite He, Hold in H.
  bind_ok H temp_amax Ea. rewrite Htop in H. cbn [bind] in H.
  assert (Eext : Num.Qltb top temp_amax = false).
  { apply Qltb_ge. apply Hxs. eapply amax_in; eassumption. }
  rewrite Eext in H. cbn [bind] in H.
  destruct (Num.histogram_edges xs (e0 :: e1 :: rest)) as [[hist e''] |] eqn:Eh;
    cbn [bind] in H; [ | discriminate ].
  bind_ok H r Er. inversion H; subst c'.
  unfold hist_total, set_hist. cbn [_calib_hist _calib_bin_edges].
  split.
  - f_equal. pose proof Eh as Eh'. unfold Num.histogram_edges in Eh'.
    destruct (negb (Num.monotone (e0 :: e1 :: rest))); [ discriminate | ].
    rewrite Htop in Eh'. cbn [bind] in Eh'. inversion Eh'; reflexivity.
  - destruct (add_prefix_spec _ _ _ _ Er) as [_ Hs]. rewrite Hs.
    rewrite (histogram_edges_total _ _ _ _ _ _ _ Eh Htop).
    rewrite (count_if_all (fun x => Qle_bool x top)); [ lia | ].
    intros y Hy. apply Qle_bool_iff. apply Hxs. assumption.
Qed.

(** X24: in the numpy mode, a later [collect] of a batch whose magnitudes
    all lie at or below the last stored edge keeps the edges, and adds to the
    counts every value of the batch except those whose magnitude lies below
    the first edge: these, and no others, are lost. *)
Theorem numpy_collect_loses_only_below_first_edge :
  forall (c c' : HistogramCalibrator) (x : list Q)
         (e0 e1 : Q) (rest : list Q) (old : list Z) (top : Q),
    _torch_hist c = false ->
    _calib_bin_edges c = Some (e0 :: e1 :: rest) -> _calib_hist c = Some old ->
    Num.index_last (e0 :: e1 :: rest) = Ok top ->
    Forall (fun y => Qabs y <= top) x ->
    collect c x = Ok c' ->
    let xs := if _skip_zeros c then filter nonzero (map Qabs x) else map Qabs x in
    _calib_bin_edges c' = _calib_bin_edges c /\
    hist_total c' = (hist_total c + ingested (_skip_zeros c) x
                     - Num.count_if (fun y => Num.Qltb y e0) xs)%Z.
Proof.
  intros c c' x e0 e1 rest old top Ht He Hold Htop Hle H. cbv zeta.
  unfold collect in H. bind_ok H m Em. rewrite Ht in H. cbn [negb] in H.
  destruct (preprocess_spec m x Em) as [_ Hing].
  rewrite (preprocess_is_abs m x Em) in H, Hing.
  assert (Hle' : forall y, In y (map Qabs x) -> y <= top).
  { intros y Hy. apply in_map_iff in Hy. destruct Hy as [z [<- Hz]].
    rewrite Forall_forall in Hle. apply Hle. assumption. }
  destruct (collect_numpy_within_total c c' (map Qabs x) e0 e1 rest old top
              He Hold Htop Hle' H) as [Hedges Htot].
  split; [ rewrite Hedges, He; reflexivity | ].
  rewrite Htot. unfold hist_total at 1. rewrite Hold.
  rewrite <- (Hing (_skip_zeros c)). unfold ingested. reflexivity.
Qed.

Lemma numpy_collect_loses_only_below_first_edge_witness :
  let c := mkCalibrator (Int 8) false 2 false false
             (Some [1; 3 # 2; 2]) (Some [1; 1]%Z) in
  let c' := match collect c [1 # 2; -2; 7 # 4] with Ok c' => c' | Raise _ => c end in
  _calib_bin_edges c' = _calib_bin_edges c /\
  hist_total c' = (hist_total c + ingested false [1 # 2; -2; 7 # 4]%Q
     - Num.count_if (fun y => Num.Qltb y 1%Q) (map Qabs [1 # 2; -2; 7 # 4]%Q))%Z.
Proof.
  intros c c'.
  apply (numpy_collect_loses_only_below_first_edge c _ [1 # 2; -2; 7 # 4]
           1 (3 # 2) [2] [1; 1]%Z 2).
  - reflexivity.
  - reflexivity.
  - reflexivity.
  - reflexivity.
  - repeat constructor; discriminate.
  - reflexivity.
Defined.




(** * The entropy search on fixed-width counts *)







Section EntropyIntFacts.
Context {D : Type} (entropy : list Q -> list Q -> D) (dltb : D -> D -> bool).


End EntropyIntFacts.



